(** * Currency converter: mock market data generator

    A shallow embedding of [src/App.js] (the [CurrencyConverter] component):
    the mock history generator, the mock rate, the derived converted amount,
    the currency swap, the chart-period selector and the day-over-day trend;
    and, after them, the currency table, the amount field, the effects and
    the texts of the result, the rate line, the tooltip and the trend
    indicator.

    JavaScript numbers are IEEE-754 binary64 values; they are modelled by
    Rocq's primitive floats, whose operations are specified by [SpecFloat].
    [Math.random], [Math.sin], the clock and the host time zone are inputs of
    the model.  Exceptions are explicit results. *)

From Stdlib Require Import ZArith List String Ascii Bool Lia Floats.
From Stdlib Require Uint63.
Import ListNotations.

Set Warnings "-inexact-float".

Local Open Scope string_scope.
Local Open Scope Z_scope.

(** ** Host numbers *)

Module JsNumber.

  (** The Number whose value is the integer [z], correctly rounded. *)
Definition ofZ (z : Z) : float :=
    if ((0 <=? z) && (z <? 2 ^ 63))%Z%bool then PrimFloat.of_uint63 (Uint63.of_Z z)
    else SF2Prim (binary_normalize prec emax z 0 false).

Definition isNaN (x : float) : bool := PrimFloat.is_nan x.

  (** [Math.max] of two arguments: NaN if either is NaN, and [+0] is larger
      than [-0]. *)
Definition max (a b : float) : float :=
    if isNaN a || isNaN b then nan
    else if (a <? b)%float then b
    else if (b <? a)%float then a
    else if PrimFloat.get_sign a then b else a.

  (** [Math.abs]. *)
Definition abs (x : float) : float := PrimFloat.abs x.

  (** ToBoolean on a Number: [0], [-0] and [NaN] are falsy. *)
Definition truthy (x : float) : bool :=
    negb (isNaN x || PrimFloat.is_zero x).

  (** The exact value of a finite non-zero binary64 [m * 2^e], scaled by
      [10^f] and rounded to the nearest integer, the larger one on a tie. *)
Definition scaledHalfUp (f : nat) (m : positive) (e : Z) : Z :=
    let n := Zpos m * 10 ^ Z.of_nat f in
    match e with
    | Zneg k => (2 * n + 2 ^ Zpos k) / 2 ^ (Zpos k + 1)
    | _ => n * 2 ^ e
    end.

  (** [m * 2^e >= 10^21], decided on integers. *)
Definition atLeast1e21 (m : positive) (e : Z) : bool :=
    match e with
    | Zneg k => (10 ^ 21 * 2 ^ Zpos k <=? Zpos m)%Z
    | _ => (10 ^ 21 <=? Zpos m * 2 ^ e)%Z
    end.

End JsNumber.

(** ** Decimal strings *)

Module Decimal.

Definition digitChar (d : Z) : ascii := ascii_of_nat (48 + Z.to_nat d).

Fixpoint digitsFuel (fuel : nat) (n : Z) (acc : string) : string :=
    match fuel with
    | O => acc
    | S fuel' =>
        let acc' := String (digitChar (n mod 10)) acc in
        if (n <? 10)%Z then acc' else digitsFuel fuel' (n / 10) acc'
    end.

  (** The decimal digits of a non-negative integer, ["0"] for zero. *)
Definition digits (n : Z) : string :=
    digitsFuel (S (Z.to_nat (Z.log2 n))) n "".

Fixpoint zeros (k : nat) : string :=
    match k with O => "" | S k' => String "0" (zeros k') end.

  (** Left-pad with zeros up to [width] characters. *)
Definition padLeft (width : nat) (s : string) : string :=
    zeros (width - String.length s) ++ s.

  (** The digits of [n] with a decimal point before the last [f] of them
      (steps 10.a-10.c of Number.prototype.toFixed). *)
Definition fixedString (f : nat) (n : Z) : string :=
    let m := digits n in
    match f with
    | O => m
    | S _ =>
        let m' := padLeft (S f) m in
        let k := String.length m' in
        substring 0 (k - f) m' ++ "." ++ substring (k - f) f m'
    end.

Definition isDigit (c : ascii) : bool :=
    let n := nat_of_ascii c in (48 <=? n)%nat && (n <=? 57)%nat.

Definition digitValue (c : ascii) : Z := Z.of_nat (nat_of_ascii c) - 48.

  (** Longest prefix of digits: its value, its length and the rest. *)
Fixpoint spanDigits (s : string) (acc : Z) (len : nat) : Z * nat * string :=
    match s with
    | String c s' =>
        if isDigit c then spanDigits s' (10 * acc + digitValue c) (S len)
        else (acc, len, s)
    | EmptyString => (acc, len, s)
    end.

End Decimal.

(** ** Number to string and back *)

Module JsString.
Import Decimal.

  (** [Number.prototype.toFixed(f)].  [bigToString] is the host's
      Number::toString, which toFixed falls back to from [10^21] on. *)
Definition toFixed (bigToString : float -> string) (f : nat) (x : float) : string :=
    match Prim2SF x with
    | S754_nan => "NaN"
    | S754_infinity false => "Infinity"
    | S754_infinity true => "-Infinity"
    | S754_zero _ => fixedString f 0
    | S754_finite s m e =>
        (if s then "-" else "") ++
        (if JsNumber.atLeast1e21 m e then bigToString (PrimFloat.abs x)
         else fixedString f (JsNumber.scaledHalfUp f m e))
    end.

  (** StrWhiteSpaceChar (WhiteSpace and LineTerminator of ECMA-262): TAB,
      LF, VT, FF, CR, SP, U+00A0, U+1680, U+2000 to U+200A, U+2028, U+2029,
      U+202F, U+205F, U+3000 and U+FEFF.  A string is the bytes of its
      UTF-8 encoding, so that the first six are one byte, U+00A0 is two
      and the others are three.  [isWhite] is the case of one byte. *)
Definition isWhite (c : ascii) : bool :=
    match nat_of_ascii c with
    | 9%nat | 10%nat | 11%nat | 12%nat | 13%nat | 32%nat => true
    | _ => false
    end.

  (** U+00A0 is [C2 A0]. *)
Definition isWhite2 (c d : ascii) : bool :=
    ((nat_of_ascii c =? 194) && (nat_of_ascii d =? 160))%nat%bool.

  (** U+1680 is [E1 9A 80]; U+2000 to U+200A are [E2 80 80] to [E2 80 8A];
      U+2028, U+2029 and U+202F are [E2 80 A8], [E2 80 A9] and [E2 80 AF];
      U+205F is [E2 81 9F]; U+3000 is [E3 80 80]; U+FEFF is [EF BB BF]. *)
Definition isWhite3 (c d e : ascii) : bool :=
    let c := nat_of_ascii c in
    let d := nat_of_ascii d in
    let e := nat_of_ascii e in
    (if c =? 225 then (d =? 154) && (e =? 128)
     else if c =? 226 then
       if d =? 128 then
         ((128 <=? e) && (e <=? 138)) || (e =? 168) || (e =? 169) || (e =? 175)
       else (d =? 129) && (e =? 159)
     else if c =? 227 then (d =? 128) && (e =? 128)
     else if c =? 239 then (d =? 187) && (e =? 191)
     else false)%nat%bool.

  (** The first byte of a white-space character of two, of three bytes. *)
Definition leadsWhite2 (c : ascii) : bool := (nat_of_ascii c =? 194)%nat.

Definition leadsWhite3 (c : ascii) : bool :=
    let c := nat_of_ascii c in
    ((c =? 225) || (c =? 226) || (c =? 227) || (c =? 239))%nat%bool.

  (** [TrimString(s, start)]: [s] without the white space it begins with. *)
Fixpoint trimStart (s : string) : string :=
    match s with
    | String c s1 =>
        if isWhite c then trimStart s1
        else if leadsWhite2 c then
          match s1 with
          | String d s2 => if isWhite2 c d then trimStart s2 else s
          | EmptyString => s
          end
        else if leadsWhite3 c then
          match s1 with
          | String d (String e s3) => if isWhite3 c d e then trimStart s3 else s
          | _ => s
          end
        else s
    | EmptyString => s
    end.

  (** [TrimString(s, end)]: [s] without the white space it ends with, which
      is the longest suffix that [trimStart] empties. *)
Fixpoint trimEnd (s : string) : string :=
    match s with
    | String c s' =>
        match trimStart s with
        | EmptyString => EmptyString
        | _ => String c (trimEnd s')
        end
    | EmptyString => s
    end.

  (** The Number nearest to [(-1)^neg * d * 10^k] for [d >= 0]. *)
Definition ofDecimal (neg : bool) (d k : Z) : float :=
    match d with
    | Z0 => if neg then neg_zero else zero
    | _ =>
        SF2Prim
          match k with
          | Zneg p =>
              let '(q, e, l) := SFdiv_core_binary prec emax d 0 (10 ^ Zpos p) 0 in
              binary_round_aux prec emax neg q e l
          | _ => binary_normalize prec emax (if neg then - (d * 10 ^ k) else d * 10 ^ k) 0 false
          end
    end.

  (** The exponent part of a StrDecimalLiteral, [0] when there is none. *)
Definition exponentPart (s : string) : Z :=
    match s with
    | String c s' =>
        if (Ascii.eqb c "e" || Ascii.eqb c "E")%bool then
          let '(neg, s'') :=
            match s' with
            | String "-" t => (true, t)
            | String "+" t => (false, t)
            | _ => (false, s')
            end in
          let '(v, len, _) := spanDigits s'' 0 0 in
          match len with
          | O => 0
          | S _ => if neg then - v else v
          end
        else 0
    | EmptyString => 0
    end.

  (** [parseFloat]: the longest prefix that is a StrDecimalLiteral, as a
      Number; NaN when there is none. *)
Definition parseFloat (s : string) : float :=
    let s0 := trimStart s in
    let '(neg, s1) :=
      match s0 with
      | String "-" t => (true, t)
      | String "+" t => (false, t)
      | _ => (false, s0)
      end in
    if String.prefix "Infinity" s1 then (if neg then neg_infinity else infinity)
    else
      let '(ip, il, s2) := spanDigits s1 0 0 in
      let '(fp, fl, s3) :=
        match s2 with
        | String "." t => spanDigits t ip 0
        | _ => (ip, O, s2)
        end in
      match (il + fl)%nat with
      | O => nan
      | S _ => ofDecimal neg fp (exponentPart s3 - Z.of_nat fl)
      end.

End JsString.

(** ** Dates

    A Date object holds a time value: milliseconds since the epoch in UTC, or
    NaN ([None]).  The calendar functions follow ECMA-262, 21.4.1. *)

Module JsDate.

Definition msPerDay : Z := 86400000.
Definition maxTime : Z := 8640000000000000.

Definition Day (t : Z) : Z := t / msPerDay.
Definition TimeWithinDay (t : Z) : Z := t mod msPerDay.

Definition DayFromYear (y : Z) : Z :=
    365 * (y - 1970) + (y - 1969) / 4 - (y - 1901) / 100 + (y - 1601) / 400.

  (** The largest year [y] with [DayFromYear y <= Day t]. *)
Definition YearFromTime (t : Z) : Z :=
    let d := Day t in
    let y0 := 1970 + (400 * d) / 146097 in
    if (DayFromYear (y0 + 1) <=? d)%Z then y0 + 1
    else if (DayFromYear y0 <=? d)%Z then y0
    else y0 - 1.

Definition InLeapYear (t : Z) : Z :=
    DayFromYear (YearFromTime t + 1) - DayFromYear (YearFromTime t) - 365.

Definition DayWithinYear (t : Z) : Z := Day t - DayFromYear (YearFromTime t).

  (** Day within the year on which month [m] (0-based) starts. *)
Definition monthStart (leap m : Z) : Z :=
    match m with
    | 0 => 0
    | 1 => 31
    | 2 => 59 + leap
    | 3 => 90 + leap
    | 4 => 120 + leap
    | 5 => 151 + leap
    | 6 => 181 + leap
    | 7 => 212 + leap
    | 8 => 243 + leap
    | 9 => 273 + leap
    | 10 => 304 + leap
    | _ => 334 + leap
    end.

Definition MonthFromTime (t : Z) : Z :=
    let d := DayWithinYear t in
    let l := InLeapYear t in
    if (d <? 31)%Z then 0
    else if (d <? 59 + l)%Z then 1
    else if (d <? 90 + l)%Z then 2
    else if (d <? 120 + l)%Z then 3
    else if (d <? 151 + l)%Z then 4
    else if (d <? 181 + l)%Z then 5
    else if (d <? 212 + l)%Z then 6
    else if (d <? 243 + l)%Z then 7
    else if (d <? 273 + l)%Z then 8
    else if (d <? 304 + l)%Z then 9
    else if (d <? 334 + l)%Z then 10
    else 11.

Definition DateFromTime (t : Z) : Z :=
    DayWithinYear t - monthStart (InLeapYear t) (MonthFromTime t) + 1.

  (** [MakeDay year month date] for integral arguments: the day number of
      the first of the month, plus [date - 1]. *)
Definition MakeDay (year month date : Z) : Z :=
    let ym := year + month / 12 in
    let mn := month mod 12 in
    let leap := DayFromYear (ym + 1) - DayFromYear ym - 365 in
    DayFromYear ym + monthStart leap mn + date - 1.

Definition MakeDate (day time : Z) : Z := day * msPerDay + time.

Definition TimeClip (t : Z) : option Z :=
    if (maxTime <? Z.abs t)%Z then None else Some t.

  (** The host time zone: the offset of local time from UTC, in
      milliseconds, at a UTC time value ([LocalTZA(t, true)]) and at a local
      time value ([LocalTZA(t, false)]). *)
Record TimeZone : Type := {
    offsetAtUTC : Z -> Z;
    offsetAtLocal : Z -> Z
  }.

Definition LocalTime (tz : TimeZone) (t : Z) : Z := t + offsetAtUTC tz t.
Definition UTC (tz : TimeZone) (t : Z) : Z := t - offsetAtLocal tz t.

  (** A Date object is its time value. *)
Definition Date : Type := option Z.

  (** [date.getDate()]: the day of the month in local time. *)
Definition getDate (tz : TimeZone) (d : Date) : option Z :=
    match d with
    | None => None
    | Some t => Some (DateFromTime (LocalTime tz t))
    end.

  (** [date.setDate(dt)] for an integral [dt] (NaN is [None]). *)
Definition setDate (tz : TimeZone) (d : Date) (dt : option Z) : Date :=
    match d, dt with
    | Some t0, Some n =>
        let t := LocalTime tz t0 in
        let newDate :=
          MakeDate (MakeDay (YearFromTime t) (MonthFromTime t) n) (TimeWithinDay t) in
        TimeClip (UTC tz newDate)
    | Some _, None => None
    | None, _ => None
    end.

Definition pad (width : nat) (n : Z) : string :=
    Decimal.padLeft width (Decimal.digits n).

Definition isoYear (y : Z) : string :=
    if ((0 <=? y) && (y <=? 9999))%Z%bool then pad 4 y
    else (if (y <? 0)%Z then "-" else "+") ++ pad 6 (Z.abs y).

  (** The part of [toISOString()] before the ["T"]. *)
Definition isoDate (t : Z) : string :=
    isoYear (YearFromTime t) ++ "-" ++ pad 2 (MonthFromTime t + 1)
      ++ "-" ++ pad 2 (DateFromTime t).

Definition monthShort (m : Z) : string :=
    match m with
    | 0 => "Jan" | 1 => "Feb" | 2 => "Mar" | 3 => "Apr" | 4 => "May"
    | 5 => "Jun" | 6 => "Jul" | 7 => "Aug" | 8 => "Sep" | 9 => "Oct"
    | 10 => "Nov" | _ => "Dec"
    end.

  (** [toLocaleDateString('en-US', { month: 'short', day: 'numeric' })]. *)
Definition toLocaleDateString_short (tz : TimeZone) (d : Date) : string :=
    match d with
    | None => "Invalid Date"
    | Some t0 =>
        let t := LocalTime tz t0 in
        monthShort (MonthFromTime t) ++ " " ++ Decimal.digits (DateFromTime t)
    end.

  (** A zone with a constant offset. *)
Definition fixedZone (off : Z) : TimeZone :=
    {| offsetAtUTC := fun _ => off; offsetAtLocal := fun _ => off |}.

  (** Europe/London during 2024: summer time (+1h) from 2024-03-31T01:00Z
      until 2024-10-27T01:00Z.  A local time that is skipped or repeated is
      read with the offset in force before the transition. *)
Definition londonStart : Z := 1711846800000.
Definition londonEnd : Z := 1729990800000.
Definition london2024 : TimeZone :=
    {| offsetAtUTC := fun t =>
         if ((londonStart <=? t) && (t <? londonEnd))%Z%bool then 3600000 else 0;
       offsetAtLocal := fun t =>
         if ((londonStart + 3600000 <=? t) && (t <? londonEnd + 3600000))%Z%bool
         then 3600000 else 0 |}.

End JsDate.

(** ** Effects: exceptions and the random source *)

Inductive JsError : Type :=
| RangeError
| TypeError.

Inductive completion (A : Type) : Type :=
| Normal (a : A)
| Abrupt (e : JsError).
Arguments Normal {A} a.
Arguments Abrupt {A} e.

(** A computation reads the random source from position [k] on and either
    returns a value with the next position, or throws. *)
Definition M (A : Type) : Type := nat -> completion (A * nat).

Definition ret {A : Type} (a : A) : M A := fun k => Normal (a, k).

Definition bind {A B : Type} (c : M A) (f : A -> M B) : M B :=
  fun k =>
    match c k with
    | Normal (a, k') => f a k'
    | Abrupt e => Abrupt e
    end.

Definition throw {A : Type} (e : JsError) : M A := fun _ => Abrupt e.

Notation "x <- c ;; f" := (bind c (fun x => f))
  (at level 61, c at next level, right associativity).

(** ** The component *)

Module App.
Import JsDate.

Record RatePoint : Type := {
    date : string;
    rate : float;
    displayDate : string
  }.

Inductive JsValue : Type :=
  | JsNum (x : float)
  | JsStr (s : string).

Record Trend : Type := {
    trend : string;
    percentage : JsValue
  }.

  (** The [useState] cells of the component. *)
Record State : Type := {
    amount : float;
    fromCurrency : string;
    toCurrency : string;
    exchangeRate : option float;
    convertedAmount : option float;
    loading : bool;
    historicalData : list RatePoint;
    chartPeriod : string;
    lastUpdated : option Z
  }.

Definition initialState : State :=
    {| amount := 100; fromCurrency := "USD"; toCurrency := "EUR";
       exchangeRate := None; convertedAmount := None; loading := false;
       historicalData := []; chartPeriod := "30d"; lastUpdated := None |}.

(** [const baseRate = 0.85 + Math.random() * 0.3], from the draw. *)
Definition baseRate (r : float) : float := (0.85 + r * 0.3)%float.

(** [const mockRate = 0.5 + Math.random() * 1.5], from the draw. *)
Definition mockRate (u : float) : float := (0.5 + u * 1.5)%float.

Section Host.
    (** [Math.sin], the values [Math.random] returns in order, the host time
        zone and the host's Number::toString. *)
Variable sin : float -> float.
Variable rand : nat -> float.
Variable tz : TimeZone.
Variable bigToString : float -> string.

Definition random : M float := fun k => Normal (rand k, S k).

    (** [date.toISOString().split('T')[0]]; toISOString throws a RangeError
        on an invalid date. *)
Definition toISOString_date (d : Date) : M string :=
      match d with
      | None => throw RangeError
      | Some t => ret (isoDate t)
      end.

    (** One iteration of the loop of [generateMockHistoricalData]. *)
Definition historyPoint (today : Date) (baseRate : float) (i : Z) : M RatePoint :=
      let date0 := today in
      let date1 := setDate tz date0 (option_map (fun d => d - i) (getDate tz date0)) in
      u <- random ;;
      let fluctuation := ((sin (JsNumber.ofZ i * 0.1) + u - 0.5) * 0.05)%float in
      let rate0 := JsNumber.max 0.1 (baseRate + fluctuation) in
      d <- toISOString_date date1 ;;
      ret {| date := d;
             rate := JsString.parseFloat (JsString.toFixed bigToString 4 rate0);
             displayDate := toLocaleDateString_short tz date1 |}.

    (** [for (let i = days; i >= 0; i--)] with [n = i + 1] iterations left:
        the body runs for [i = n - 1], then the loop goes on from [i - 1]. *)
Fixpoint historyLoop (today : Date) (baseRate : float) (n : nat)
        (data : list RatePoint) : M (list RatePoint) :=
      match n with
      | O => ret data
      | S m =>
          p <- historyPoint today baseRate (Z.of_nat m) ;;
          historyLoop today baseRate m (data ++ [p])
      end.

    (** [generateMockHistoricalData(days)] for an integer [days], with the
        clock reading [now]. *)
Definition generateMockHistoricalData (now : Z) (days : Z) : M (list RatePoint) :=
      r <- random ;;
      let today := TimeClip now in
      historyLoop today (baseRate r) (Z.to_nat (days + 1)) [].

    (** [fetchExchangeRate] up to its [await]. *)
Definition fetchExchangeRate_begin (st : State) : State :=
      {| amount := amount st; fromCurrency := fromCurrency st;
         toCurrency := toCurrency st; exchangeRate := exchangeRate st;
         convertedAmount := convertedAmount st; loading := true;
         historicalData := historicalData st; chartPeriod := chartPeriod st;
         lastUpdated := lastUpdated st |}.

    (** [fetchExchangeRate] after the delay; [amt] is the [amount] of the
        render that created the closure. *)
Definition fetchExchangeRate_resume (now : Z) (amt : float) (st : State) : M State :=
      u <- random ;;
      ret {| amount := amount st; fromCurrency := fromCurrency st;
             toCurrency := toCurrency st; exchangeRate := Some (mockRate u);
             convertedAmount := Some (amt * mockRate u)%float; loading := false;
             historicalData := historicalData st; chartPeriod := chartPeriod st;
             lastUpdated := TimeClip now |}.

Definition fetchExchangeRate (now : Z) (st : State) : M State :=
      fetchExchangeRate_resume now (amount st) (fetchExchangeRate_begin st).

Definition periodDays (period : string) : Z :=
      if String.eqb period "7d" then 7
      else if String.eqb period "30d" then 30
      else 90.

Definition loadHistoricalData (now : Z) (st : State) : M State :=
      let days := periodDays (chartPeriod st) in
      data <- generateMockHistoricalData now days ;;
      ret {| amount := amount st; fromCurrency := fromCurrency st;
             toCurrency := toCurrency st; exchangeRate := exchangeRate st;
             convertedAmount := convertedAmount st; loading := loading st;
             historicalData := data; chartPeriod := chartPeriod st;
             lastUpdated := lastUpdated st |}.

    (** The effect on [amount, exchangeRate]. *)
Definition recomputeConverted (st : State) : State :=
      match exchangeRate st with
      | Some r =>
          if JsNumber.truthy r then
            {| amount := amount st; fromCurrency := fromCurrency st;
               toCurrency := toCurrency st; exchangeRate := exchangeRate st;
               convertedAmount := Some (amount st * r)%float; loading := loading st;
               historicalData := historicalData st; chartPeriod := chartPeriod st;
               lastUpdated := lastUpdated st |}
          else st
      | None => st
      end.

Definition handleSwapCurrencies (st : State) : State :=
      {| amount := amount st; fromCurrency := toCurrency st;
         toCurrency := fromCurrency st; exchangeRate := exchangeRate st;
         convertedAmount := convertedAmount st; loading := loading st;
         historicalData := historicalData st; chartPeriod := chartPeriod st;
         lastUpdated := lastUpdated st |}.

    (** [historicalData[k].rate]; reading [rate] of [undefined] throws. *)
Definition rateAt (h : list RatePoint) (k : nat) : completion float :=
      match nth_error h k with
      | Some p => Normal (rate p)
      | None => Abrupt TypeError
      end.

Definition calculateTrend (h : list RatePoint) : completion Trend :=
      if (List.length h <? 2)%nat then
        Normal {| trend := "neutral"; percentage := JsNum 0 |}
      else
        match rateAt h (List.length h - 1), rateAt h (List.length h - 2) with
        | Normal latest, Normal previous =>
            let change := ((latest - previous) / previous * 100)%float in
            Normal {| trend := if (0 <? change)%float then "up"
                               else if (change <? 0)%float then "down"
                               else "neutral";
                      percentage := JsStr (JsString.toFixed bigToString 2 (JsNumber.abs change)) |}
        | Abrupt e, _ => Abrupt e
        | _, Abrupt e => Abrupt e
        end.

End Host.

End App.

(** ** String to Number

    [StringToNumber] of ECMA-262 (7.1.4.1.1), which the comparison of a
    string with a number applies to the string.  The whole of the string,
    without the white space at its ends, must be a numeric literal.  White
    space is StrWhiteSpaceChar, as for [JsString.parseFloat]. *)

Module JsConvert.
Import Decimal.

  (** [TrimString(s, start+end)]. *)
Definition trim (s : string) : string :=
    JsString.trimEnd (JsString.trimStart s).

  (** The value of a digit in a radix up to 16. *)
Definition radixDigit (radix : Z) (c : ascii) : option Z :=
    let n := Z.of_nat (nat_of_ascii c) in
    let v :=
      if isDigit c then n - 48
      else if ((97 <=? n) && (n <=? 102))%Z%bool then n - 87
      else if ((65 <=? n) && (n <=? 70))%Z%bool then n - 55
      else radix in
    if (v <? radix)%Z then Some v else None.

Fixpoint radixValue (radix : Z) (s : string) (acc : Z) : option Z :=
    match s with
    | EmptyString => Some acc
    | String c s' =>
        match radixDigit radix c with
        | Some d => radixValue radix s' (radix * acc + d)
        | None => None
        end
    end.

  (** The radix that a prefix [0x], [0o] or [0b] announces. *)
Definition radixOf (c : ascii) : option Z :=
    if (Ascii.eqb c "x" || Ascii.eqb c "X")%bool then Some 16
    else if (Ascii.eqb c "o" || Ascii.eqb c "O")%bool then Some 8
    else if (Ascii.eqb c "b" || Ascii.eqb c "B")%bool then Some 2
    else None.

  (** An exponent part that is the whole of the string, [0] for the empty
      string. *)
Definition exponentOf (s : string) : option Z :=
    match s with
    | EmptyString => Some 0
    | String c s' =>
        if (Ascii.eqb c "e" || Ascii.eqb c "E")%bool then
          let '(neg, s'') :=
            match s' with
            | String "-" t => (true, t)
            | String "+" t => (false, t)
            | _ => (false, s')
            end in
          match spanDigits s'' 0 0 with
          | (v, S _, EmptyString) => Some (if neg then - v else v)
          | _ => None
          end
        else None
    end.

Definition decimalLiteral (t : string) : float :=
    let '(neg, u) :=
      match t with
      | String "-" r => (true, r)
      | String "+" r => (false, r)
      | _ => (false, t)
      end in
    if String.eqb u "Infinity" then (if neg then neg_infinity else infinity)
    else
      let '(ip, il, r1) := spanDigits u 0 0 in
      let '(fp, fl, r2) :=
        match r1 with
        | String "." r => spanDigits r ip 0
        | _ => (ip, O, r1)
        end in
      match (il + fl)%nat with
      | O => nan
      | S _ =>
          match exponentOf r2 with
          | Some x => JsString.ofDecimal neg fp (x - Z.of_nat fl)
          | None => nan
          end
      end.

Definition toNumber (s : string) : float :=
    match trim s with
    | EmptyString => zero
    | String "0" (String c rest) as t =>
        match radixOf c with
        | Some radix =>
            match rest with
            | EmptyString => nan
            | _ =>
                match radixValue radix rest 0 with
                | Some v => JsString.ofDecimal false v 0
                | None => nan
                end
            end
        | None => decimalLiteral t
        end
    | t => decimalLiteral t
    end.

End JsConvert.

(** ** The rest of the component: the currency table and the texts it shows

    Strings are sequences of bytes; a character outside ASCII is the bytes
    of its UTF-8 encoding, so that [===] on strings is equality and the
    empty string is the only falsy one. *)

Module Ui.
Import App.

Record Currency : Type := {
    code : string;
    name : string;
    symbol : string
  }.

Definition currencies : list Currency :=
    [ {| code := "USD"; name := "US Dollar"; symbol := "$" |};
      {| code := "EUR"; name := "Euro"; symbol := "€" |};
      {| code := "GBP"; name := "British Pound"; symbol := "£" |};
      {| code := "JPY"; name := "Japanese Yen"; symbol := "¥" |};
      {| code := "AUD"; name := "Australian Dollar"; symbol := "A$" |};
      {| code := "CAD"; name := "Canadian Dollar"; symbol := "C$" |};
      {| code := "CHF"; name := "Swiss Franc"; symbol := "Fr" |};
      {| code := "CNY"; name := "Chinese Yuan"; symbol := "¥" |};
      {| code := "INR"; name := "Indian Rupee"; symbol := "₹" |};
      {| code := "KRW"; name := "South Korean Won"; symbol := "₩" |} ].

(** [currencies.find(c => c.code === currencyCode)?.symbol || currencyCode]:
    the symbol of the first entry with that code, and the code itself when
    there is no such entry or its symbol is empty. *)
Definition getCurrentSymbol (currencyCode : string) : string :=
    match List.find (fun c => String.eqb (code c) currencyCode) currencies with
    | Some c => if String.eqb (symbol c) "" then currencyCode else symbol c
    | None => currencyCode
    end.

(** The amount field: [onChange={(e) => setAmount(parseFloat(e.target.value) || 0)}]. *)
Definition onAmountChange (value : string) (st : State) : State :=
    let x := JsString.parseFloat value in
    {| amount := if JsNumber.truthy x then x else 0;
       fromCurrency := fromCurrency st; toCurrency := toCurrency st;
       exchangeRate := exchangeRate st; convertedAmount := convertedAmount st;
       loading := loading st; historicalData := historicalData st;
       chartPeriod := chartPeriod st; lastUpdated := lastUpdated st |}.

Section Host.
    (** [Math.sin], the values [Math.random] returns in order, the host time
        zone and the host's Number::toString. *)
Variable sin : float -> float.
Variable rand : nat -> float.
Variable tz : JsDate.TimeZone.
Variable bigToString : float -> string.

    (** The effect on [fromCurrency, toCurrency, chartPeriod]:
        [fetchExchangeRate()] runs up to its [await], then
        [loadHistoricalData()] runs; the rest of [fetchExchangeRate] runs
        when the timer fires. *)
Definition pairPeriodEffect (now : Z) (st : State) : M State :=
      loadHistoricalData sin rand tz bigToString now (fetchExchangeRate_begin st).

    (** The line under the result, rendered when [exchangeRate] is truthy:
        [1 {fromCurrency} = {exchangeRate.toFixed(4)} {toCurrency}]. *)
Definition rateLine (st : State) : option string :=
      match exchangeRate st with
      | Some r =>
          if JsNumber.truthy r then
            Some ("1 " ++ fromCurrency st ++ " = " ++ JsString.toFixed bigToString 4 r
                    ++ " " ++ toCurrency st)
          else None
      | None => None
      end.

    (** The tooltip's [formatter={(value) => [value.toFixed(4), 'Exchange Rate']}]. *)
Definition formatter (value : float) : string * string :=
      (JsString.toFixed bigToString 4 value, "Exchange Rate").

    (** [trend.percentage > 0]: the condition under which the trend
        indicator is rendered.  A string is converted to a Number. *)
Definition trendShown (t : Trend) : bool :=
      match percentage t with
      | JsNum x => (0 <? x)%float
      | JsStr s => (0 <? JsConvert.toNumber s)%float
      end.

    (** [trend.trend === 'up' ? 'increase' : 'decrease']. *)
Definition trendWord (t : Trend) : string :=
      if String.eqb (trend t) "up" then "increase" else "decrease".

    (** The text of the indicator, when it is rendered:
        [{trend.percentage}% {...} from yesterday]. *)
Definition trendText (t : Trend) : option string :=
      if trendShown t then
        Some (match percentage t with JsNum x => bigToString x | JsStr s => s end
                ++ "% " ++ trendWord t ++ " from yesterday")
      else None.

End Host.

  (** The result text: [Loading...] while [loading], else the template
      [`${getCurrentSymbol(toCurrency)}${convertedAmount?.toLocaleString(undefined,
      {...})} ${toCurrency}`], in which a missing converted amount reads
      [undefined].  [format] is the host's [toLocaleString] with two fraction
      digits, in the host's locale. *)
Definition resultText (format : float -> string) (st : State) : string :=
    if loading st then "Loading..."
    else
      getCurrentSymbol (toCurrency st)
        ++ match convertedAmount st with
           | Some x => format x
           | None => "undefined"
           end
        ++ " " ++ toCurrency st.

End Ui.

(** * Binary64 arithmetic

    The operations of [SpecFloat] are related to exact integer arithmetic:
    every finite binary64 number is an integer multiple of [2^-1074], every
    product of two of them an integer multiple of [2^-2148], and addition,
    subtraction and multiplication round the exact result to the nearest
    number, ties to even.  Rounding is monotone, which gives interval
    bounds for the expressions of the component. *)

Module Rounding.

(** Values are counted in units of [2^-2148], so that every product of two
    binary64 numbers is an integer. *)
Definition scale : Z := 2148.

(** The exponent, in the same units, of the last place of the binary64
    numbers around [X]. *)
Definition rexp (X : Z) : Z := Z.max (Z.log2 X + 1 - 53) 1074.

Definition roundUp (P q r : Z) : bool :=
  (P <? 2 * r) || ((P =? 2 * r) && Z.odd q).

(** Round [X > 0] to the nearest multiple of [2 ^ rexp X], ties to even. *)
Definition RNZ (X : Z) : Z :=
  let P := 2 ^ rexp X in
  let q := X / P in
  let r := X mod P in
  (if roundUp P q r then q + 1 else q) * P.

Lemma rexp_pos (X : Z) : 1074 <= rexp X.
Proof. unfold rexp. lia. Qed.

Lemma rexp_mono (X Y : Z) : 0 < X <= Y -> rexp X <= rexp Y.
Proof.
  intros H. unfold rexp.
  pose proof (Z.log2_le_mono X Y). lia.
Qed.

Lemma pow2_pos (e : Z) : 0 <= e -> 0 < 2 ^ e.
Proof. intros. apply Z.pow_pos_nonneg; lia. Qed.

Lemma pow2_le (a b : Z) : 0 <= a <= b -> 2 ^ a <= 2 ^ b.
Proof. intros. apply Z.pow_le_mono_r; lia. Qed.

Lemma pow2_split (a b : Z) : 0 <= a <= b -> 2 ^ b = 2 ^ (b - a) * 2 ^ a.
Proof. intros. rewrite <- Z.pow_add_r by lia. f_equal. lia. Qed.

Lemma RNZ_lower (X : Z) : 0 < X -> X / 2 ^ rexp X * 2 ^ rexp X <= RNZ X.
Proof.
  intros HX. unfold RNZ. cbv zeta.
  pose proof (pow2_pos (rexp X)) as HP. pose proof (rexp_pos X).
  destruct (roundUp _ _ _); nia.
Qed.

Lemma RNZ_upper (X : Z) : 0 < X -> RNZ X <= (X / 2 ^ rexp X + 1) * 2 ^ rexp X.
Proof.
  intros HX. unfold RNZ. cbv zeta.
  pose proof (pow2_pos (rexp X)) as HP. pose proof (rexp_pos X).
  destruct (roundUp _ _ _); nia.
Qed.

Lemma roundUp_mono (P q r1 r2 : Z) :
  r1 <= r2 -> roundUp P q r1 = true -> roundUp P q r2 = true.
Proof.
  unfold roundUp. intros Hr.
  rewrite !orb_true_iff, !andb_true_iff, !Z.ltb_lt, !Z.eqb_eq.
  intros [H|[H Ho]]; [left; lia|].
  destruct (Z.eq_dec r1 r2) as [->|Hne]; [right; split; assumption | left; lia].
Qed.

(** A number below a power of two that the grid contains does not round
    above it. *)
Lemma RNZ_below_pow (X t : Z) : 0 < X -> X < 2 ^ t -> rexp X <= t -> RNZ X <= 2 ^ t.
Proof.
  intros HX Ht HE.
  pose proof (RNZ_upper X HX) as Hu.
  pose proof (rexp_pos X) as HE0.
  pose proof (pow2_pos (rexp X) ltac:(lia)) as HP.
  rewrite (pow2_split (rexp X) t) in * by lia.
  pose proof (pow2_pos (t - rexp X) ltac:(lia)) as HQ.
  assert (X / 2 ^ rexp X < 2 ^ (t - rexp X)) by (apply Z.div_lt_upper_bound; nia).
  nia.
Qed.

(** A number from a power of two that the grid contains on does not round
    below it. *)
Lemma RNZ_above_pow (X t : Z) : 0 < X -> 2 ^ t <= X -> rexp X <= t -> 2 ^ t <= RNZ X.
Proof.
  intros HX Ht HE.
  pose proof (RNZ_lower X HX) as Hl.
  pose proof (rexp_pos X) as HE0.
  pose proof (pow2_pos (rexp X) ltac:(lia)) as HP.
  rewrite (pow2_split (rexp X) t) in * by lia.
  pose proof (pow2_pos (t - rexp X) ltac:(lia)) as HQ.
  assert (2 ^ (t - rexp X) <= X / 2 ^ rexp X) by (apply Z.div_le_lower_bound; nia).
  nia.
Qed.

Lemma log2_digits (X : Z) : 0 < X -> 2 ^ Z.log2 X <= X < 2 ^ (Z.log2 X + 1).
Proof. intros H. pose proof (Z.log2_spec X H). rewrite <- Z.add_1_r in *. lia. Qed.

Theorem RNZ_mono (X Y : Z) : 0 < X <= Y -> RNZ X <= RNZ Y.
Proof.
  intros [HX HXY].
  pose proof (rexp_mono X Y ltac:(lia)) as HE.
  destruct (Z.eq_dec (rexp X) (rexp Y)) as [Heq|Hne].
  - unfold RNZ. cbv zeta. rewrite <- Heq.
    pose proof (rexp_pos X) as HE0.
    pose proof (pow2_pos (rexp X) ltac:(lia)) as HP.
    set (P := 2 ^ rexp X) in *.
    pose proof (Z.div_mod X P ltac:(lia)) as HdX.
    pose proof (Z.div_mod Y P ltac:(lia)) as HdY.
    pose proof (Z.mod_pos_bound X P HP) as HrX.
    pose proof (Z.mod_pos_bound Y P HP) as HrY.
    pose proof (Z.div_le_mono X Y P HP HXY) as Hq.
    destruct (Z.eq_dec (X / P) (Y / P)) as [Hqe|Hqn].
    + rewrite <- Hqe in *.
      destruct (roundUp P (X / P) (X mod P)) eqn:HuX.
      * rewrite (roundUp_mono P (X / P) (X mod P) (Y mod P)); [lia | nia | exact HuX].
      * destruct (roundUp P (X / P) (Y mod P)); nia.
    + destruct (roundUp P (X / P) (X mod P)), (roundUp P (Y / P) (Y mod P)); nia.
  - assert (rexp X < rexp Y) as Hlt by lia.
    pose proof (log2_digits X HX) as [_ HdX].
    pose proof (log2_digits Y ltac:(lia)) as [HdY _].
    pose proof (rexp_pos X) as HE0.
    assert (rexp Y = Z.log2 Y + 1 - 53) as HEY by (unfold rexp in *; lia).
    assert (Z.log2 X + 1 - 53 <= rexp X) as HEX by (unfold rexp; lia).
    pose proof (Z.log2_nonneg X) as HlX.
    set (t := Z.max (Z.log2 X + 1) (rexp X)).
    transitivity (2 ^ t).
    + apply RNZ_below_pow; [lia | | lia].
      eapply Z.lt_le_trans; [exact HdX|]. apply pow2_le. lia.
    + transitivity (2 ^ Z.log2 Y).
      * apply pow2_le. lia.
      * apply RNZ_above_pow; lia.
Qed.

(** Multiples of the grid step are left alone. *)
Lemma RNZ_exact (X : Z) : 0 < X -> X mod 2 ^ rexp X = 0 -> RNZ X = X.
Proof.
  intros HX Hr. unfold RNZ. cbv zeta. rewrite Hr.
  pose proof (rexp_pos X) as HE0.
  pose proof (pow2_pos (rexp X) ltac:(lia)) as HP.
  pose proof (Z.div_mod X (2 ^ rexp X) ltac:(lia)) as Hd.
  unfold roundUp. simpl.
  destruct (Z.ltb_spec (2 ^ rexp X) 0); [lia|].
  destruct (Z.eqb_spec (2 ^ rexp X) 0); [lia|]. simpl. lia.
Qed.

End Rounding.

Import Rounding.

Module ShiftFacts.

Lemma digits2_size (p : positive) : digits2_pos p = Pos.size p.
Proof. induction p; simpl; congruence. Qed.

Lemma Zdigits2_log2 (p : positive) : Zdigits2 (Zpos p) = Z.log2 (Zpos p) + 1.
Proof.
  unfold Zdigits2. rewrite digits2_size.
  destruct p; simpl; try rewrite Pos.add_1_r; try reflexivity; lia.
Qed.

Lemma iter_pos_nat {A : Type} (f : A -> A) (p : positive) :
  forall x, iter_pos f p x = Nat.iter (Pos.to_nat p) f x.
Proof.
  induction p as [p IH|p IH|]; intros x; cbn [iter_pos].
  - rewrite !IH, Pos2Nat.inj_xI.
    replace (S (2 * Pos.to_nat p)) with (Pos.to_nat p + S (Pos.to_nat p))%nat by lia.
    rewrite Nat.iter_add. f_equal. now rewrite Nat.iter_succ_r.
  - rewrite !IH, Pos2Nat.inj_xO.
    replace (2 * Pos.to_nat p)%nat with (Pos.to_nat p + Pos.to_nat p)%nat by lia.
    now rewrite Nat.iter_add.
  - reflexivity.
Qed.

Lemma shr_1_spec (q : Z) (r s : bool) :
  0 <= q ->
  shr_1 {| shr_m := q; shr_r := r; shr_s := s |}
  = {| shr_m := q / 2; shr_r := Z.odd q; shr_s := r || s |}.
Proof.
  intros Hq. rewrite <- Z.div2_div.
  destruct q as [|[p|p|]|p]; try reflexivity; lia.
Qed.

(** The record after [k] one-bit shifts of an exact mantissa. *)
Definition shifted (m : Z) (k : nat) : shr_record :=
  match k with
  | O => {| shr_m := m; shr_r := false; shr_s := false |}
  | S j => {| shr_m := m / 2 ^ Z.of_nat k;
              shr_r := Z.odd (m / 2 ^ Z.of_nat j);
              shr_s := negb (m mod 2 ^ Z.of_nat j =? 0) |}
  end.

Lemma mod_pow2_succ (m j : Z) :
  0 <= j ->
  m mod 2 ^ (j + 1) = m mod 2 ^ j + 2 ^ j * ((m / 2 ^ j) mod 2).
Proof.
  intros Hj. rewrite Z.pow_add_r, Z.pow_1_r by lia.
  rewrite Z.rem_mul_r by (try apply Z.pow_nonzero; lia). reflexivity.
Qed.

Lemma iter_shr_1 (m : Z) (k : nat) :
  0 <= m ->
  Nat.iter k shr_1 {| shr_m := m; shr_r := false; shr_s := false |} = shifted m k.
Proof.
  intros Hm. induction k as [|k IH]; [reflexivity|].
  simpl Nat.iter. rewrite IH. destruct k as [|j].
  - simpl shifted. rewrite shr_1_spec by lia. simpl.
    rewrite Z.mod_1_r. simpl. f_equal. now rewrite Z.div_1_r.
  - unfold shifted.
    assert (0 < 2 ^ Z.of_nat j) as Hp by (apply pow2_pos; lia).
    rewrite shr_1_spec by (apply Z.div_pos; [lia | apply pow2_pos; lia]).
    f_equal.
    + rewrite Z.div_div by (try apply pow2_pos; lia).
      f_equal. rewrite (Nat2Z.inj_succ (S j)), Z.pow_succ_r by lia. lia.
    + replace (Z.of_nat (S j)) with (Z.of_nat j + 1) by lia.
      rewrite (mod_pow2_succ m (Z.of_nat j)) by lia.
      rewrite Zmod_odd.
      destruct (Z.odd (m / 2 ^ Z.of_nat j)); simpl.
      * pose proof (Z.mod_pos_bound m (2 ^ Z.of_nat j) Hp).
        destruct (Z.eqb_spec (m mod 2 ^ Z.of_nat j + 2 ^ Z.of_nat j * 1) 0); [lia | reflexivity].
      * now rewrite Z.mul_0_r, Z.add_0_r.
Qed.

Lemma roundUp_spec (P q r : Z) :
  roundUp P q r = true <-> P < 2 * r \/ (P = 2 * r /\ Z.odd q = true).
Proof.
  unfold roundUp. rewrite orb_true_iff, andb_true_iff, Z.ltb_lt, Z.eqb_eq. reflexivity.
Qed.

Lemma roundUp_false (P q r : Z) :
  roundUp P q r = false <-> 2 * r < P \/ (P = 2 * r /\ Z.odd q = false).
Proof.
  destruct (roundUp P q r) eqn:E.
  - apply roundUp_spec in E. split; [discriminate|].
    intros [H|[H1 H2]]; [lia|]. destruct E as [E|[_ E]]; [lia | congruence].
  - split; [intros _ | reflexivity].
    destruct (Z.lt_trichotomy (2 * r) P) as [H|[H|H]]; [now left | | ].
    + right. split; [lia|]. destruct (Z.odd q) eqn:Ho; [|reflexivity].
      assert (roundUp P q r = true) by (apply roundUp_spec; right; split; [lia | exact Ho]).
      congruence.
    + assert (roundUp P q r = true) by (apply roundUp_spec; left; lia). congruence.
Qed.

(** Rounding the shifted record to nearest even is rounding the quotient by
    its remainder. *)
Lemma round_shifted (m : Z) (k : nat) :
  0 <= m ->
  round_nearest_even (shr_m (shifted m k)) (loc_of_shr_record (shifted m k))
  = if roundUp (2 ^ Z.of_nat k) (m / 2 ^ Z.of_nat k) (m mod 2 ^ Z.of_nat k)
    then m / 2 ^ Z.of_nat k + 1 else m / 2 ^ Z.of_nat k.
Proof.
  intros Hm. destruct k as [|j].
  - cbn [shifted shr_m loc_of_shr_record round_nearest_even].
    change (Z.of_nat 0) with 0. rewrite Z.pow_0_r, Z.mod_1_r, Z.div_1_r. reflexivity.
  - unfold shifted.
    replace (Z.of_nat (S j)) with (Z.of_nat j + 1) by lia.
    assert (0 < 2 ^ Z.of_nat j) as Hp by (apply pow2_pos; lia).
    pose proof (Z.mod_pos_bound m (2 ^ Z.of_nat j) Hp) as Hr.
    rewrite (mod_pow2_succ m (Z.of_nat j)) by lia.
    rewrite Zmod_odd.
    replace (m / 2 ^ (Z.of_nat j + 1)) with (m / 2 ^ Z.of_nat j / 2)
      by (rewrite Z.div_div, Z.pow_add_r by lia; reflexivity).
    rewrite Z.pow_add_r, Z.pow_1_r by lia.
    set (h := m / 2 ^ Z.of_nat j) in *.
    set (low := m mod 2 ^ Z.of_nat j) in *.
    set (P := 2 ^ Z.of_nat j) in *.
    cbn [shr_m].
    destruct (Z.odd h) eqn:Hh; destruct (Z.eqb_spec low 0) as [H0|H0];
      cbn [negb loc_of_shr_record round_nearest_even].
    + destruct (Z.even (h / 2)) eqn:He.
      * rewrite (proj2 (roundUp_false (P * 2) (h / 2) (low + P * 1))); [reflexivity|].
        right. split; [lia|]. rewrite <- Z.negb_even, He. reflexivity.
      * rewrite (proj2 (roundUp_spec (P * 2) (h / 2) (low + P * 1))); [reflexivity|].
        right. split; [lia|]. rewrite <- Z.negb_even, He. reflexivity.
    + rewrite (proj2 (roundUp_spec (P * 2) (h / 2) (low + P * 1))); [reflexivity|].
      left. lia.
    + rewrite (proj2 (roundUp_false (P * 2) (h / 2) (low + P * 0))); [reflexivity|].
      left. lia.
    + rewrite (proj2 (roundUp_false (P * 2) (h / 2) (low + P * 0))); [reflexivity|].
      left. lia.
Qed.

(** [shr] of an exact mantissa by [n >= 0] places. *)
Lemma shr_exact (m e n : Z) :
  0 <= m -> 0 <= n ->
  shr {| shr_m := m; shr_r := false; shr_s := false |} e n
  = (shifted m (Z.to_nat n), e + n).
Proof.
  intros Hm Hn. unfold shr. destruct n as [|p|p]; [| |lia].
  - simpl. now rewrite Z.add_0_r.
  - rewrite iter_pos_nat, iter_shr_1 by lia. reflexivity.
Qed.

End ShiftFacts.

Import Rounding ShiftFacts.

Module RoundFacts.

Definition INF : Z := 2 ^ (1024 + scale).

Definition signed (s : bool) (z : Z) : Z := if s then - z else z.

(** The value of a binary64 number in units of [2^-2148]; the infinities
    count as [+-2^1024]. *)
Definition V (x : spec_float) : Z :=
  match x with
  | S754_zero _ => 0
  | S754_nan => 0
  | S754_infinity s => signed s INF
  | S754_finite s m e => signed s (Zpos m * 2 ^ (e + scale))
  end.

(** Rounding of a signed value, overflowing to the infinities. *)
Definition RS (z : Z) : Z :=
  match z with
  | Z0 => 0
  | Zpos _ => Z.min (RNZ z) INF
  | Zneg p => - Z.min (RNZ (Zpos p)) INF
  end.

Definition fexp64 (x : Z) : Z := fexp prec emax x.

Lemma fexp64_eq (x : Z) : fexp64 x = Z.max (x - 53) (-1074).
Proof. reflexivity. Qed.

Lemma Zdigits2_nonneg (z : Z) : 0 <= Zdigits2 z.
Proof. destruct z; simpl; lia. Qed.

Lemma Zdigits2_bound (z k : Z) : 0 <= z < 2 ^ k -> 0 <= k -> Zdigits2 z <= k.
Proof.
  intros [H0 Hk] Hk0. destruct z as [|p|p]; [simpl; lia | | lia].
  rewrite Zdigits2_log2.
  assert (Z.log2 (Zpos p) < k); [|lia].
  apply Z.log2_lt_pow2; lia.
Qed.

Lemma Zdigits2_pow (k : Z) : 0 <= k -> Zdigits2 (2 ^ k) = k + 1.
Proof.
  intros Hk. pose proof (pow2_pos k Hk) as Hp.
  destruct (2 ^ k) as [|p|p] eqn:E; try lia.
  rewrite Zdigits2_log2, <- E, Z.log2_pow2 by lia. reflexivity.
Qed.

(** What [binary_round_aux] builds from the rounded mantissa [q] at exponent
    [E]: a carry into the 54th bit is renormalised, an exponent above the
    largest one overflows. *)
Definition finish (s : bool) (q E : Z) : spec_float :=
  match q with
  | Z0 => S754_zero s
  | Zpos p =>
      if q =? 2 ^ 53 then
        if E + 1 <=? 971 then S754_finite s (Z.to_pos (2 ^ 52)) (E + 1) else S754_infinity s
      else if E <=? 971 then S754_finite s p E else S754_infinity s
  | Zneg _ => S754_nan
  end.

Lemma second_shift (s : bool) (q E : Z) :
  0 <= q <= 2 ^ 53 -> -1074 <= E ->
  (let '(mrs, e') := shr_fexp prec emax q E loc_Exact in
   match shr_m mrs with
   | Z0 => S754_zero s
   | Zpos m => if e' <=? emax - prec then S754_finite s m e' else S754_infinity s
   | Zneg _ => S754_nan
   end) = finish s q E.
Proof.
  intros Hq HE. unfold shr_fexp. cbn [shr_record_of_loc].
  fold (fexp64 (Zdigits2 q + E)). rewrite fexp64_eq.
  destruct (Z.eq_dec q (2 ^ 53)) as [->|Hne].
  - rewrite Zdigits2_pow by lia.
    replace (Z.max (53 + 1 + E - 53) (-1074) - E) with 1 by lia.
    reflexivity.
  - assert (Zdigits2 q <= 53) as Hd by (apply Zdigits2_bound; lia).
    pose proof (Zdigits2_nonneg q) as Hd0.
    assert (Z.max (Zdigits2 q + E - 53) (-1074) - E <= 0) as Hn by lia.
    unfold shr.
    destruct (Z.max (Zdigits2 q + E - 53) (-1074) - E) as [|p|p] eqn:En; [| lia |].
    + cbn [shr_m]. unfold finish. destruct q as [|p|p]; [reflexivity | | lia].
      destruct (Z.eqb_spec (Zpos p) (2 ^ 53)); [contradiction | reflexivity].
    + cbn [shr_m]. unfold finish. destruct q as [|p'|p']; [reflexivity | | lia].
      destruct (Z.eqb_spec (Zpos p') (2 ^ 53)); [contradiction | reflexivity].
Qed.


(** The mantissa before rounding has at most 53 bits. *)
Lemma quotient_bound (m : positive) (n : Z) :
  0 <= n -> Zdigits2 (Zpos m) - 53 <= n -> 0 <= Zpos m / 2 ^ n < 2 ^ 53.
Proof.
  intros Hn Hd. rewrite Zdigits2_log2 in Hd.
  pose proof (log2_digits (Zpos m) ltac:(lia)) as [_ Hm].
  pose proof (pow2_pos n Hn) as Hp.
  split; [apply Z.div_pos; lia|].
  apply Z.div_lt_upper_bound; [lia|].
  rewrite <- Z.pow_add_r by lia.
  eapply Z.lt_le_trans; [exact Hm|]. apply pow2_le.
  pose proof (Z.log2_nonneg (Zpos m)). lia.
Qed.

(** With exactly 53 bits kept, the mantissa is normal. *)
Lemma quotient_normal (m : positive) (n : Z) :
  0 <= n -> n = Zdigits2 (Zpos m) - 53 -> 2 ^ 52 <= Zpos m / 2 ^ n.
Proof.
  intros Hn Hd. rewrite Zdigits2_log2 in Hd.
  pose proof (log2_digits (Zpos m) ltac:(lia)) as [Hm _].
  pose proof (pow2_pos n Hn) as Hp.
  apply Z.div_le_lower_bound; [lia|].
  rewrite Z.mul_comm, <- Z.pow_add_r by lia.
  eapply Z.le_trans; [|exact Hm]. apply pow2_le. lia.
Qed.

(** [binary_round_aux] on an exact mantissa that is long enough: shift,
    round to nearest even, renormalise. *)
Lemma round_aux_shape (s : bool) (m : positive) (e : Z) :
  let E := fexp64 (Zdigits2 (Zpos m) + e) in
  let n := E - e in
  let q := Zpos m / 2 ^ n in
  0 <= n ->
  binary_round_aux prec emax s (Zpos m) e loc_Exact
  = finish s (if roundUp (2 ^ n) q (Zpos m mod 2 ^ n) then q + 1 else q) E.
Proof.
  intros E n q Hn.
  unfold binary_round_aux, shr_fexp at 1. cbn [shr_record_of_loc].
  fold (fexp64 (Zdigits2 (Zpos m) + e)). fold E. fold n.
  rewrite shr_exact by lia.
  rewrite round_shifted by lia.
  rewrite Z2Nat.id by lia. fold q.
  replace (e + n) with E by (unfold n; lia).
  assert (-1074 <= E) as HE by (unfold E; rewrite fexp64_eq; lia).
  assert (0 <= q < 2 ^ 53) as Hq.
  { apply quotient_bound; [exact Hn|]. unfold n, E. rewrite fexp64_eq. lia. }
  apply second_shift; [|exact HE].
  destruct (roundUp _ _ _); lia.
Qed.


Lemma roundUp_scale (P q r T : Z) : 0 < T -> roundUp (P * T) q (r * T) = roundUp P q r.
Proof.
  intros HT. unfold roundUp. f_equal; [|f_equal].
  - destruct (Z.ltb_spec (P * T) (2 * (r * T))), (Z.ltb_spec P (2 * r)); try reflexivity; nia.
  - destruct (Z.eqb_spec (P * T) (2 * (r * T))), (Z.eqb_spec P (2 * r)); try reflexivity; nia.
Qed.

(** The integer rounding, read on a mantissa and an exponent. *)
Lemma RNZ_pair (m : positive) (e : Z) :
  let E := fexp64 (Zdigits2 (Zpos m) + e) in
  let n := E - e in
  let q := Zpos m / 2 ^ n in
  - scale <= e -> 0 <= n ->
  RNZ (Zpos m * 2 ^ (e + scale))
  = (if roundUp (2 ^ n) q (Zpos m mod 2 ^ n) then q + 1 else q) * 2 ^ (E + scale).
Proof.
  intros E n q He Hn.
  assert (0 < 2 ^ (e + scale)) as HT by (apply pow2_pos; lia).
  assert (0 < 2 ^ n) as HP by (apply pow2_pos; lia).
  assert (rexp (Zpos m * 2 ^ (e + scale)) = E + scale) as HE.
  { unfold rexp. rewrite Z.log2_mul_pow2 by lia.
    unfold E. rewrite fexp64_eq, Zdigits2_log2. unfold scale. lia. }
  unfold RNZ. cbv zeta. rewrite HE.
  replace (E + scale) with (n + (e + scale)) by (unfold n; lia).
  rewrite Z.pow_add_r by lia.
  rewrite Z.div_mul_cancel_r by lia.
  rewrite Z.mul_mod_distr_r by lia.
  rewrite roundUp_scale by lia. reflexivity.
Qed.

Lemma INF_eq : INF = 2 ^ 53 * 2 ^ (971 + scale).
Proof. reflexivity. Qed.

Lemma V_finish (s : bool) (q E : Z) :
  0 <= q <= 2 ^ 53 -> -1074 <= E -> (-1074 < E -> 2 ^ 52 <= q) ->
  V (finish s q E) = signed s (Z.min (q * 2 ^ (E + scale)) INF).
Proof.
  intros Hq HE Hn. rewrite INF_eq.
  assert (0 < 2 ^ (E + scale)) as HT by (apply pow2_pos; unfold scale; lia).
  unfold finish. destruct q as [|p|p]; [destruct s; simpl; lia | | lia].
  destruct (Z.eqb_spec (Zpos p) (2 ^ 53)) as [Hp|Hp].
  - rewrite Hp. destruct (Z.leb_spec (E + 1) 971) as [Hle|Hgt]; cbn [V].
    + rewrite Z2Pos.id by lia.
      replace (E + 1 + scale) with (1 + (E + scale)) by lia.
      rewrite Z.pow_add_r by (unfold scale; lia).
      f_equal. rewrite Z.min_l; [lia|].
      rewrite (pow2_split (E + scale) (971 + scale)) by (unfold scale; lia).
      pose proof (pow2_pos (971 + scale - (E + scale)) ltac:(lia)). nia.
    + f_equal. rewrite INF_eq, Z.min_r; [reflexivity|].
      rewrite (pow2_split (971 + scale) (E + scale)) by (unfold scale; lia).
      pose proof (pow2_pos (E + scale - (971 + scale)) ltac:(lia)).
      pose proof (pow2_pos (971 + scale) ltac:(unfold scale; lia)). nia.
  - destruct (Z.leb_spec E 971) as [Hle|Hgt]; cbn [V].
    + f_equal. rewrite Z.min_l; [reflexivity|].
      rewrite (pow2_split (E + scale) (971 + scale)) by (unfold scale; lia).
      pose proof (pow2_pos (971 + scale - (E + scale)) ltac:(lia)). nia.
    + f_equal. rewrite INF_eq, Z.min_r; [reflexivity|].
      specialize (Hn ltac:(lia)).
      replace (E + scale) with ((E - 972) + 1 + (971 + scale)) by lia.
      rewrite !Z.pow_add_r by (unfold scale; lia).
      pose proof (pow2_pos (E - 972) ltac:(lia)).
      pose proof (pow2_pos (971 + scale) ltac:(unfold scale; lia)).
      change (2 ^ 53) with (2 ^ 52 * 2). change (2 ^ 1) with 2.
      assert (2 ^ 52 * 1 <= Zpos p * 2 ^ (E - 972)) by (apply Z.mul_le_mono_nonneg; lia).
      nia.
Qed.

(** [binary_round_aux] rounds the exact value [m * 2^e] to nearest even. *)
Theorem round_aux_value (s : bool) (m : positive) (e : Z) :
  - scale <= e ->
  e <= fexp64 (Zdigits2 (Zpos m) + e) ->
  V (binary_round_aux prec emax s (Zpos m) e loc_Exact)
  = signed s (Z.min (RNZ (Zpos m * 2 ^ (e + scale))) INF).
Proof.
  intros He Hn.
  rewrite round_aux_shape by lia.
  rewrite RNZ_pair by lia.
  set (E := fexp64 (Zdigits2 (Zpos m) + e)) in *.
  set (n := E - e) in *.
  assert (-1074 <= E) as HE by (unfold E; rewrite fexp64_eq; lia).
  assert (0 <= Zpos m / 2 ^ n < 2 ^ 53) as Hq.
  { apply quotient_bound; [lia|]. unfold n, E. rewrite fexp64_eq. lia. }
  apply V_finish; [destruct (roundUp _ _ _); lia | exact HE |].
  intros HE'.
  assert (2 ^ 52 <= Zpos m / 2 ^ n).
  { apply quotient_normal; [lia|]. unfold n, E in *. rewrite fexp64_eq in *. lia. }
  destruct (roundUp _ _ _); lia.
Qed.

End RoundFacts.

Import Rounding ShiftFacts RoundFacts.

Module SpecFacts.

Definition valid (x : spec_float) : Prop := valid_binary x = true.

Definition notNaN (x : spec_float) : bool :=
  match x with S754_nan => false | _ => true end.

Definition finiteSF (x : spec_float) : bool :=
  match x with S754_finite _ _ _ | S754_zero _ => true | _ => false end.

(** A valid finite number is canonical: at most 53 bits, exactly 53 above
    the least exponent. *)
Lemma valid_finite (s : bool) (m : positive) (e : Z) :
  valid (S754_finite s m e) ->
  fexp64 (Zdigits2 (Zpos m) + e) = e /\ -1074 <= e <= 971 /\
  Zpos m < 2 ^ 53 /\ (-1074 < e -> 2 ^ 52 <= Zpos m).
Proof.
  unfold valid, valid_binary, bounded, canonical_mantissa.
  rewrite andb_true_iff, Z.eqb_eq, Z.leb_le.
  change (Zpos (digits2_pos m)) with (Zdigits2 (Zpos m)).
  fold (fexp64 (Zdigits2 (Zpos m) + e)). rewrite fexp64_eq.
  change (emax - prec) with 971.
  intros [Hc He]. rewrite Zdigits2_log2 in *.
  pose proof (log2_digits (Zpos m) ltac:(lia)) as [Hlo Hhi].
  pose proof (Z.log2_nonneg (Zpos m)) as Hl.
  repeat split; try lia.
  - eapply Z.lt_le_trans; [exact Hhi|]. apply pow2_le. lia.
  - intros Hgt. eapply Z.le_trans; [|exact Hlo]. apply pow2_le. lia.
Qed.

Lemma V_finite_pos (m : positive) (e : Z) :
  valid (S754_finite false m e) ->
  0 < Zpos m * 2 ^ (e + scale) < INF.
Proof.
  intros Hv. destruct (valid_finite _ _ _ Hv) as [_ [He [Hm _]]].
  pose proof (pow2_pos (e + scale) ltac:(unfold scale; lia)) as HT.
  split; [lia|]. rewrite INF_eq.
  rewrite (pow2_split (e + scale) (971 + scale)) by (unfold scale; lia).
  pose proof (pow2_pos (971 + scale - (e + scale)) ltac:(lia)). nia.
Qed.

(** Canonical numbers with a smaller exponent are smaller. *)
Lemma canonical_lt (m1 m2 : positive) (e1 e2 : Z) :
  valid (S754_finite false m1 e1) -> valid (S754_finite false m2 e2) ->
  e1 < e2 -> Zpos m1 * 2 ^ (e1 + scale) < Zpos m2 * 2 ^ (e2 + scale).
Proof.
  intros H1 H2 Hlt.
  destruct (valid_finite _ _ _ H1) as [_ [He1 [Hm1 _]]].
  destruct (valid_finite _ _ _ H2) as [_ [He2 [_ Hm2]]].
  specialize (Hm2 ltac:(lia)).
  replace (e2 + scale) with ((e2 - e1 - 1) + 1 + (e1 + scale)) by lia.
  rewrite (Z.pow_add_r 2 (e2 - e1 - 1 + 1) (e1 + scale)) by (unfold scale; lia).
  rewrite (Z.pow_add_r 2 (e2 - e1 - 1) 1) by lia.
  pose proof (pow2_pos (e1 + scale) ltac:(unfold scale; lia)).
  pose proof (pow2_pos (e2 - e1 - 1) ltac:(lia)).
  change (2 ^ 1) with 2.
  assert (2 ^ 52 * 1 <= Zpos m2 * 2 ^ (e2 - e1 - 1)) by (apply Z.mul_le_mono_nonneg; lia).
  change (2 ^ 53) with (2 ^ 52 * 2) in Hm1.
  apply Z.lt_le_trans with (2 ^ 52 * 2 * 2 ^ (e1 + scale)).
  - apply Z.mul_lt_mono_pos_r; assumption.
  - replace (Zpos m2 * (2 ^ (e2 - e1 - 1) * 2 * 2 ^ (e1 + scale)))
      with (Zpos m2 * 2 ^ (e2 - e1 - 1) * (2 * 2 ^ (e1 + scale))) by ring.
    replace (2 ^ 52 * 2 * 2 ^ (e1 + scale)) with (2 ^ 52 * 1 * (2 * 2 ^ (e1 + scale))) by ring.
    apply Z.mul_le_mono_nonneg_r; lia.
Qed.

Lemma compare_scaled (a b T : Z) : 0 < T -> (a * T ?= b * T) = (a ?= b).
Proof.
  intros HT. destruct (Z.compare_spec a b) as [H|H|H].
  - subst. apply Z.compare_refl.
  - apply Z.compare_lt_iff. nia.
  - apply Z.compare_gt_iff. nia.
Qed.

Lemma compare_pos_finite (m1 m2 : positive) (e1 e2 : Z) :
  valid (S754_finite false m1 e1) -> valid (S754_finite false m2 e2) ->
  match e1 ?= e2 with
  | Lt => Lt
  | Gt => Gt
  | Eq => Pos.compare_cont Eq m1 m2
  end = (Zpos m1 * 2 ^ (e1 + scale) ?= Zpos m2 * 2 ^ (e2 + scale)).
Proof.
  intros H1 H2. destruct (Z.compare_spec e1 e2) as [He|He|He].
  - subst e2. symmetry.
    destruct (valid_finite _ _ _ H1) as [_ [He1 _]].
    rewrite compare_scaled by (apply pow2_pos; unfold scale; lia). reflexivity.
  - symmetry. apply Z.compare_lt_iff. now apply canonical_lt.
  - symmetry. apply Z.compare_gt_iff. now apply canonical_lt.
Qed.

Lemma compare_opp (a b : Z) : CompOpp (a ?= b) = (- a ?= - b).
Proof. rewrite Z.compare_opp. symmetry. apply Z.compare_antisym. Qed.

(** On valid numbers other than NaN, the comparison of binary64 is the
    comparison of the values. *)
Theorem SFcompare_V (x y : spec_float) :
  valid x -> valid y -> notNaN x = true -> notNaN y = true ->
  SFcompare x y = Some (V x ?= V y).
Proof.
  intros Hx Hy Nx Ny.
  assert (0 < INF) as HI by reflexivity.
  destruct x as [sx|sx| |sx mx ex], y as [sy|sy| |sy my ey]; try discriminate;
    cbn [SFcompare V];
    try (pose proof (V_finite_pos mx ex Hx));
    try (pose proof (V_finite_pos my ey Hy)).
  9: {
    destruct sx, sy; unfold signed; f_equal.
    - rewrite <- compare_opp, <- (compare_pos_finite mx my ex ey Hx Hy).
      destruct (ex ?= ey); reflexivity.
    - symmetry. apply Z.compare_lt_iff. lia.
    - symmetry. apply Z.compare_gt_iff. lia.
    - apply (compare_pos_finite mx my ex ey Hx Hy). }
  all: try destruct sx; try destruct sy; unfold signed; f_equal; symmetry;
    first [ apply Z.compare_eq_iff; lia
          | apply Z.compare_lt_iff; lia
          | apply Z.compare_gt_iff; lia ].
Qed.

End SpecFacts.

Import Rounding ShiftFacts RoundFacts SpecFacts.

Module OpFacts.

Lemma RS_pos (z : Z) : 0 < z -> RS z = Z.min (RNZ z) INF.
Proof. intros H. destruct z; try lia. reflexivity. Qed.

Lemma RS_neg (z : Z) : z < 0 -> RS z = - Z.min (RNZ (- z)) INF.
Proof. intros H. destruct z; try lia. reflexivity. Qed.

Lemma RS_signed (s : bool) (z : Z) :
  0 < z -> RS (signed s z) = signed s (Z.min (RNZ z) INF).
Proof.
  intros Hz. destruct s; unfold signed.
  - rewrite RS_neg by lia. now rewrite Z.opp_involutive.
  - now apply RS_pos.
Qed.

Lemma RNZ_nonneg (X : Z) : 0 < X -> 0 <= RNZ X.
Proof.
  intros HX. pose proof (RNZ_lower X HX) as H.
  pose proof (rexp_pos X).
  pose proof (pow2_pos (rexp X) ltac:(lia)).
  assert (0 <= X / 2 ^ rexp X) by (apply Z.div_pos; lia). nia.
Qed.

(** Rounding is monotone. *)
Theorem RS_mono (a b : Z) : a <= b -> RS a <= RS b.
Proof.
  intros Hab. assert (0 < INF) as HI by reflexivity.
  destruct (Z.lt_trichotomy a 0) as [Ha|[Ha|Ha]].
  - rewrite (RS_neg a Ha).
    pose proof (RNZ_nonneg (- a) ltac:(lia)) as Hna.
    destruct (Z.lt_trichotomy b 0) as [Hb|[Hb|Hb]].
    + rewrite (RS_neg b Hb).
      pose proof (RNZ_mono (- b) (- a) ltac:(lia)). lia.
    + subst b. change (RS 0) with 0. lia.
    + rewrite (RS_pos b Hb). pose proof (RNZ_nonneg b Hb). lia.
  - subst a. change (RS 0) with 0.
    destruct (Z.eq_dec b 0) as [->|Hb]; [reflexivity|].
    rewrite (RS_pos b) by lia. pose proof (RNZ_nonneg b ltac:(lia)). lia.
  - rewrite (RS_pos a Ha), (RS_pos b) by lia.
    pose proof (RNZ_mono a b ltac:(lia)). lia.
Qed.

Lemma RNZ_INF : RNZ INF = INF.
Proof. vm_compute. reflexivity. Qed.

(** A binary64 value rounds to itself. *)
Lemma RS_V (x : spec_float) : valid x -> notNaN x = true -> RS (V x) = V x.
Proof.
  intros Hv Hn. destruct x as [s|s| |s m e]; try discriminate; cbn [V].
  - reflexivity.
  - assert (0 < INF) as HI by reflexivity.
    rewrite RS_signed by lia. rewrite RNZ_INF, Z.min_id. reflexivity.
  - pose proof (V_finite_pos m e Hv) as Hb.
    destruct (valid_finite _ _ _ Hv) as [Hc [He _]].
    rewrite RS_signed by lia. f_equal.
    assert (rexp (Zpos m * 2 ^ (e + scale)) = e + scale) as HE.
    { unfold rexp. rewrite Z.log2_mul_pow2 by (unfold scale; lia).
      rewrite fexp64_eq, Zdigits2_log2 in Hc. unfold scale. lia. }
    rewrite RNZ_exact; [lia | lia |].
    rewrite HE. apply Z.mod_mul. apply Z.pow_nonzero; unfold scale; lia.
Qed.

Lemma pos_iter_xO (m d : positive) : Zpos (Pos.iter xO m d) = Zpos m * 2 ^ Zpos d.
Proof.
  induction d as [|d IH] using Pos.peano_ind.
  - simpl. lia.
  - rewrite Pos.iter_succ, Pos2Z.inj_xO, IH, Pos2Z.inj_succ, Z.pow_succ_r by lia. lia.
Qed.

Lemma shl_align_down (m : positive) (e e' : Z) :
  e' <= e ->
  shl_align m e e' = (Z.to_pos (Zpos m * 2 ^ (e - e')), e') /\
  Zpos (fst (shl_align m e e')) = Zpos m * 2 ^ (e - e').
Proof.
  intros Hle. unfold shl_align.
  destruct (e' - e) as [|d|d] eqn:Hd; try lia.
  - replace (e - e') with 0 by lia. replace e' with e by lia.
    rewrite Z.pow_0_r, Z.mul_1_r. split; reflexivity.
  - replace (e - e') with (Zpos d) by lia. split.
    + rewrite <- pos_iter_xO. reflexivity.
    + cbn [fst]. apply pos_iter_xO.
Qed.

Lemma shl_align_up (m : positive) (e e' : Z) :
  e <= e' -> shl_align m e e' = (m, e).
Proof.
  intros Hle. unfold shl_align. destruct (e' - e) eqn:Hd; try reflexivity. lia.
Qed.

Lemma round_aux_notNaN (s : bool) (m : positive) (e : Z) :
  e <= fexp64 (Zdigits2 (Zpos m) + e) ->
  notNaN (binary_round_aux prec emax s (Zpos m) e loc_Exact) = true.
Proof.
  intros Hn. rewrite round_aux_shape by lia.
  set (n := fexp64 (Zdigits2 (Zpos m) + e) - e).
  assert (0 <= Zpos m / 2 ^ n) by (apply Z.div_pos; [lia | apply pow2_pos; unfold n; lia]).
  unfold finish.
  destruct (if roundUp _ _ _ then _ else _) as [|p|p] eqn:Eq; [reflexivity | | ].
  - repeat match goal with |- context [if ?c then _ else _] => destruct c end; reflexivity.
  - destruct (roundUp _ _ _); lia.
Qed.

(** [binary_round] rounds [m * 2^e] to nearest even, whatever the length
    of [m]. *)
Lemma round_value (s : bool) (m : positive) (e : Z) :
  - scale <= e ->
  V (binary_round prec emax s m e) = signed s (Z.min (RNZ (Zpos m * 2 ^ (e + scale))) INF)
  /\ notNaN (binary_round prec emax s m e) = true.
Proof.
  intros He. unfold binary_round.
  change (Zpos (digits2_pos m)) with (Zdigits2 (Zpos m)).
  fold (fexp64 (Zdigits2 (Zpos m) + e)).
  set (E := fexp64 (Zdigits2 (Zpos m) + e)).
  assert (-1074 <= E) as HE by (unfold E; rewrite fexp64_eq; lia).
  destruct (Z.le_gt_cases e E) as [Hle|Hgt].
  - rewrite shl_align_up by lia.
    split; [apply round_aux_value | apply round_aux_notNaN]; assumption.
  - destruct (shl_align_down m e E ltac:(lia)) as [-> _].
    assert (0 < 2 ^ (e - E)) as HP by (apply pow2_pos; lia).
    assert (Zpos (Z.to_pos (Zpos m * 2 ^ (e - E))) = Zpos m * 2 ^ (e - E)) as Hm'
      by (apply Z2Pos.id; lia).
    assert (fexp64 (Zdigits2 (Zpos (Z.to_pos (Zpos m * 2 ^ (e - E)))) + E) = E) as Hf.
    { assert (Zdigits2 (Zpos m * 2 ^ (e - E)) = Zdigits2 (Zpos m) + (e - E)) as Hd.
      { destruct (Zpos m * 2 ^ (e - E)) as [|p|p] eqn:Ep; try lia.
        rewrite Zdigits2_log2, <- Ep, Z.log2_mul_pow2, Zdigits2_log2 by lia. lia. }
      rewrite Hm', Hd.
      replace (Zdigits2 (Zpos m) + (e - E) + E) with (Zdigits2 (Zpos m) + e) by lia.
      reflexivity. }
    split.
    + rewrite round_aux_value by (unfold scale in *; lia).
      rewrite Hm'. rewrite <- Z.mul_assoc, <- Z.pow_add_r by (unfold scale in *; lia).
      replace (e - E + (E + scale)) with (e + scale) by lia. reflexivity.
    + apply round_aux_notNaN. lia.
Qed.

Lemma normalize_value (S e : Z) :
  - scale <= e ->
  V (binary_normalize prec emax S e false) = RS (S * 2 ^ (e + scale))
  /\ notNaN (binary_normalize prec emax S e false) = true.
Proof.
  intros He. assert (0 < 2 ^ (e + scale)) as HT by (apply pow2_pos; lia).
  destruct S as [|p|p]; cbn [binary_normalize].
  - split; reflexivity.
  - destruct (round_value false p e He) as [Hv Hn]. split; [|exact Hn].
    rewrite Hv. symmetry. apply (RS_signed false). lia.
  - destruct (round_value true p e He) as [Hv Hn]. split; [|exact Hn].
    rewrite Hv. symmetry.
    replace (Zneg p * 2 ^ (e + scale)) with (signed true (Zpos p * 2 ^ (e + scale)))
      by (unfold signed; lia).
    apply RS_signed. lia.
Qed.

End OpFacts.

Import Rounding ShiftFacts RoundFacts SpecFacts OpFacts.

Module ArithFacts.

Lemma aligned_value (s : bool) (m : positive) (e ez : Z) :
  ez <= e -> - scale <= ez ->
  cond_Zopp s (Zpos (fst (shl_align m e ez))) * 2 ^ (ez + scale)
  = signed s (Zpos m * 2 ^ (e + scale)).
Proof.
  intros Hle Hz. destruct (shl_align_down m e ez Hle) as [_ ->].
  replace (e + scale) with ((e - ez) + (ez + scale)) by lia.
  rewrite (Z.pow_add_r 2 (e - ez) (ez + scale)) by lia.
  destruct s; unfold cond_Zopp, signed; lia.
Qed.

Lemma zero_sum_notNaN (sx sy : bool) :
  notNaN match sx, sy with
         | true, true | false, false => S754_zero sx
         | _, _ => S754_zero false
         end = true.
Proof. destruct sx, sy; reflexivity. Qed.

(** Addition of finite numbers is the rounding of the exact sum. *)
Theorem SFadd_V (x y : spec_float) :
  valid x -> valid y -> finiteSF x = true -> finiteSF y = true ->
  V (SFadd prec emax x y) = RS (V x + V y) /\ notNaN (SFadd prec emax x y) = true.
Proof.
  intros Hx Hy Fx Fy.
  destruct x as [sx|sx| |sx mx ex], y as [sy|sy| |sy my ey]; try discriminate.
  - cbn [SFadd]. split; [destruct sx, sy; reflexivity | destruct sx, sy; reflexivity].
  - cbn [SFadd]. split; [|reflexivity].
    change (V (S754_zero sx)) with 0. rewrite Z.add_0_l. symmetry. now apply RS_V.
  - cbn [SFadd]. split; [|reflexivity].
    change (V (S754_zero sy)) with 0. rewrite Z.add_0_r. symmetry. now apply RS_V.
  - cbn [SFadd V].
    destruct (valid_finite _ _ _ Hx) as [_ [Hex _]].
    destruct (valid_finite _ _ _ Hy) as [_ [Hey _]].
    set (ez := Z.min ex ey).
    assert (- scale <= ez) as Hz by (unfold scale, ez; lia).
    destruct (normalize_value
                (cond_Zopp sx (Zpos (fst (shl_align mx ex ez)))
                 + cond_Zopp sy (Zpos (fst (shl_align my ey ez)))) ez Hz) as [Hv Hn].
    split; [|exact Hn]. rewrite Hv. f_equal.
    rewrite Z.mul_add_distr_r, !aligned_value by (unfold ez; lia). reflexivity.
Qed.

(** Subtraction of finite numbers is the rounding of the exact difference. *)
Theorem SFsub_V (x y : spec_float) :
  valid x -> valid y -> finiteSF x = true -> finiteSF y = true ->
  V (SFsub prec emax x y) = RS (V x - V y) /\ notNaN (SFsub prec emax x y) = true.
Proof.
  intros Hx Hy Fx Fy.
  destruct x as [sx|sx| |sx mx ex], y as [sy|sy| |sy my ey]; try discriminate.
  - cbn [SFsub]. split; [destruct sx, sy; reflexivity | destruct sx, sy; reflexivity].
  - cbn [SFsub]. split; [|reflexivity].
    change (V (S754_zero sx)) with 0. rewrite Z.sub_0_l.
    replace (- V (S754_finite sy my ey)) with (V (S754_finite (negb sy) my ey))
      by (destruct sy; cbn [V negb signed]; lia).
    symmetry. now apply RS_V.
  - cbn [SFsub]. split; [|reflexivity].
    change (V (S754_zero sy)) with 0. rewrite Z.sub_0_r. symmetry. now apply RS_V.
  - cbn [SFsub V].
    destruct (valid_finite _ _ _ Hx) as [_ [Hex _]].
    destruct (valid_finite _ _ _ Hy) as [_ [Hey _]].
    set (ez := Z.min ex ey).
    assert (- scale <= ez) as Hz by (unfold scale, ez; lia).
    destruct (normalize_value
                (cond_Zopp sx (Zpos (fst (shl_align mx ex ez)))
                 - cond_Zopp sy (Zpos (fst (shl_align my ey ez)))) ez Hz) as [Hv Hn].
    split; [|exact Hn]. rewrite Hv. f_equal.
    rewrite Z.mul_sub_distr_r, !aligned_value by (unfold ez; lia). reflexivity.
Qed.

Lemma product_digits (mx my : positive) (ex ey : Z) :
  valid (S754_finite false mx ex) -> valid (S754_finite false my ey) ->
  ex + ey <= fexp64 (Zdigits2 (Zpos (mx * my)) + (ex + ey)).
Proof.
  intros Hx Hy. rewrite fexp64_eq, Zdigits2_log2, Pos2Z.inj_mul.
  destruct (valid_finite _ _ _ Hx) as [_ [Hex [_ Hnx]]].
  destruct (valid_finite _ _ _ Hy) as [_ [Hey [_ Hny]]].
  pose proof (Z.log2_mul_below (Zpos mx) (Zpos my) ltac:(lia) ltac:(lia)) as Hl.
  pose proof (Z.log2_nonneg (Zpos mx)). pose proof (Z.log2_nonneg (Zpos my)).
  destruct (Z.eq_dec ex (-1074)) as [Hx0|Hx0], (Z.eq_dec ey (-1074)) as [Hy0|Hy0]; try lia.
  - specialize (Hny ltac:(lia)).
    assert (52 <= Z.log2 (Zpos my)) by (apply Z.log2_le_pow2; lia). lia.
  - specialize (Hnx ltac:(lia)).
    assert (52 <= Z.log2 (Zpos mx)) by (apply Z.log2_le_pow2; lia). lia.
  - specialize (Hnx ltac:(lia)).
    assert (52 <= Z.log2 (Zpos mx)) by (apply Z.log2_le_pow2; lia). lia.
Qed.

Lemma signed_mul (sx sy : bool) (a b : Z) :
  signed sx a * signed sy b = signed (xorb sx sy) (a * b).
Proof. destruct sx, sy; unfold signed; cbn [xorb]; lia. Qed.

Lemma signed_div (s : bool) (a T : Z) : 0 < T -> signed s (a * T) / T = signed s a.
Proof.
  intros HT. destruct s; unfold signed.
  - rewrite <- Z.mul_opp_l. apply Z.div_mul. lia.
  - apply Z.div_mul. lia.
Qed.

(** Multiplication of finite numbers is the rounding of the exact
    product. *)
Theorem SFmul_V (x y : spec_float) :
  valid x -> valid y -> finiteSF x = true -> finiteSF y = true ->
  V (SFmul prec emax x y) = RS (V x * V y / 2 ^ scale)
  /\ notNaN (SFmul prec emax x y) = true.
Proof.
  intros Hx Hy Fx Fy.
  destruct x as [sx|sx| |sx mx ex], y as [sy|sy| |sy my ey]; try discriminate.
  - cbn [SFmul V]. split; reflexivity.
  - cbn [SFmul V]. split; reflexivity.
  - cbn [SFmul V]. rewrite Z.mul_0_r. split; reflexivity.
  - cbn [SFmul V].
    destruct (valid_finite _ _ _ Hx) as [_ [Hex _]].
    destruct (valid_finite _ _ _ Hy) as [_ [Hey _]].
    pose proof (product_digits mx my ex ey Hx Hy) as Hn.
    split; [|apply round_aux_notNaN; exact Hn].
    rewrite round_aux_value by (unfold scale; lia || exact Hn).
    rewrite signed_mul.
    replace (Zpos mx * 2 ^ (ex + scale) * (Zpos my * 2 ^ (ey + scale)))
      with (Zpos (mx * my) * 2 ^ (ex + ey + scale) * 2 ^ scale).
    + rewrite signed_div by reflexivity.
      symmetry. apply RS_signed.
      pose proof (pow2_pos (ex + ey + scale) ltac:(unfold scale; lia)). lia.
    + rewrite Pos2Z.inj_mul.
      transitivity (Zpos mx * Zpos my * (2 ^ (ex + ey + scale) * 2 ^ scale)); [ring|].
      transitivity (Zpos mx * Zpos my * (2 ^ (ex + scale) * 2 ^ (ey + scale))); [|ring].
      rewrite <- !Z.pow_add_r by (unfold scale; lia).
      do 2 f_equal. lia.
Qed.

End ArithFacts.

Import Rounding ShiftFacts RoundFacts SpecFacts OpFacts ArithFacts.

Module FloatFacts.

(** The value of a Number, in units of [2^-2148]. *)
Definition Vf (x : float) : Z := V (Prim2SF x).

Definition finite (x : float) : bool := finiteSF (Prim2SF x).

Definition number (x : float) : bool := notNaN (Prim2SF x).

Lemma finite_number (x : float) : finite x = true -> number x = true.
Proof. unfold finite, number. destruct (Prim2SF x); simpl; congruence. Qed.

Lemma valid_Prim (x : float) : valid (Prim2SF x).
Proof. apply Prim2SF_valid. Qed.

Lemma leb_V (x y : float) :
  (x <=? y)%float = true <-> number x = true /\ number y = true /\ Vf x <= Vf y.
Proof.
  rewrite leb_spec. unfold SFleb, number, Vf.
  destruct (notNaN (Prim2SF x)) eqn:Nx; [destruct (notNaN (Prim2SF y)) eqn:Ny|].
  - rewrite (SFcompare_V _ _ (valid_Prim x) (valid_Prim y) Nx Ny).
    destruct (Z.compare_spec (V (Prim2SF x)) (V (Prim2SF y))); split; intros; try lia;
      try discriminate; try (repeat split; try reflexivity; lia).
  - destruct (Prim2SF y); try discriminate.
    destruct (Prim2SF x); simpl; split; try discriminate; intros [_ [? _]]; discriminate.
  - destruct (Prim2SF x); try discriminate.
    simpl; split; try discriminate. intros [? _]; discriminate.
Qed.

Lemma ltb_V (x y : float) :
  (x <? y)%float = true <-> number x = true /\ number y = true /\ Vf x < Vf y.
Proof.
  rewrite ltb_spec. unfold SFltb, number, Vf.
  destruct (notNaN (Prim2SF x)) eqn:Nx; [destruct (notNaN (Prim2SF y)) eqn:Ny|].
  - rewrite (SFcompare_V _ _ (valid_Prim x) (valid_Prim y) Nx Ny).
    destruct (Z.compare_spec (V (Prim2SF x)) (V (Prim2SF y))); split; intros; try lia;
      try discriminate; try (repeat split; try reflexivity; lia).
  - destruct (Prim2SF y); try discriminate.
    destruct (Prim2SF x); simpl; split; try discriminate; intros [_ [? _]]; discriminate.
  - destruct (Prim2SF x); try discriminate.
    simpl; split; try discriminate. intros [? _]; discriminate.
Qed.

(** Finite numbers are those strictly between the infinities. *)
Lemma finite_V (x : float) :
  finite x = true <-> number x = true /\ - INF < Vf x < INF.
Proof.
  unfold finite, number, Vf. pose proof (valid_Prim x) as Hv.
  assert (0 < INF) as HI by reflexivity.
  destruct (Prim2SF x) as [s|s| |s m e]; cbn [finiteSF notNaN V].
  - split; [intros _; repeat split; lia | reflexivity].
  - split; [discriminate|]. intros [_ H]. destruct s; unfold signed in H; lia.
  - split; [discriminate | intros [? _]; discriminate].
  - pose proof (V_finite_pos m e Hv).
    split; [intros _ | reflexivity]. destruct s; unfold signed; repeat split; lia.
Qed.

Lemma add_V (x y : float) :
  finite x = true -> finite y = true ->
  Vf (x + y) = RS (Vf x + Vf y) /\ number (x + y) = true.
Proof.
  intros Fx Fy. unfold Vf, number. rewrite add_spec.
  apply SFadd_V; auto using valid_Prim.
Qed.

Lemma sub_V (x y : float) :
  finite x = true -> finite y = true ->
  Vf (x - y) = RS (Vf x - Vf y) /\ number (x - y) = true.
Proof.
  intros Fx Fy. unfold Vf, number. rewrite sub_spec.
  apply SFsub_V; auto using valid_Prim.
Qed.

Lemma mul_V (x y : float) :
  finite x = true -> finite y = true ->
  Vf (x * y) = RS (Vf x * Vf y / 2 ^ scale) /\ number (x * y) = true.
Proof.
  intros Fx Fy. unfold Vf, number. rewrite mul_spec.
  apply SFmul_V; auto using valid_Prim.
Qed.

(** ** Intervals of Numbers *)

Definition within (lo hi x : float) : Prop :=
  (lo <=? x)%float = true /\ (x <=? hi)%float = true.

Lemma within_finite (lo hi x : float) :
  finite lo = true -> finite hi = true -> within lo hi x -> finite x = true.
Proof.
  intros Fl Fh [Hl Hh].
  apply finite_V in Fl, Fh. apply leb_V in Hl, Hh. apply finite_V.
  split; [tauto | lia].
Qed.

Lemma within_weaken (lo hi lo' hi' x : float) :
  (lo' <=? lo)%float = true -> (hi <=? hi')%float = true ->
  within lo hi x -> within lo' hi' x.
Proof.
  intros Hl Hh [H1 H2]. apply leb_V in Hl, Hh, H1, H2.
  split; apply leb_V; repeat split; try tauto; lia.
Qed.

Lemma within_add (lo1 hi1 lo2 hi2 x y : float) :
  finite lo1 = true -> finite hi1 = true -> finite lo2 = true -> finite hi2 = true ->
  within lo1 hi1 x -> within lo2 hi2 y ->
  within (lo1 + lo2) (hi1 + hi2) (x + y).
Proof.
  intros F1 F2 F3 F4 Hx Hy.
  pose proof (within_finite _ _ _ F1 F2 Hx) as Fx.
  pose proof (within_finite _ _ _ F3 F4 Hy) as Fy.
  destruct Hx as [Hx1 Hx2], Hy as [Hy1 Hy2].
  apply leb_V in Hx1, Hx2, Hy1, Hy2.
  destruct (add_V x y Fx Fy) as [Vxy Nxy].
  destruct (add_V lo1 lo2 F1 F3) as [Vlo Nlo].
  destruct (add_V hi1 hi2 F2 F4) as [Vhi Nhi].
  split; apply leb_V; repeat split; try assumption.
  - rewrite Vlo, Vxy. apply RS_mono. lia.
  - rewrite Vhi, Vxy. apply RS_mono. lia.
Qed.

Lemma within_sub (lo1 hi1 lo2 hi2 x y : float) :
  finite lo1 = true -> finite hi1 = true -> finite lo2 = true -> finite hi2 = true ->
  within lo1 hi1 x -> within lo2 hi2 y ->
  within (lo1 - hi2) (hi1 - lo2) (x - y).
Proof.
  intros F1 F2 F3 F4 Hx Hy.
  pose proof (within_finite _ _ _ F1 F2 Hx) as Fx.
  pose proof (within_finite _ _ _ F3 F4 Hy) as Fy.
  destruct Hx as [Hx1 Hx2], Hy as [Hy1 Hy2].
  apply leb_V in Hx1, Hx2, Hy1, Hy2.
  destruct (sub_V x y Fx Fy) as [Vxy Nxy].
  destruct (sub_V lo1 hi2 F1 F4) as [Vlo Nlo].
  destruct (sub_V hi1 lo2 F2 F3) as [Vhi Nhi].
  split; apply leb_V; repeat split; try assumption.
  - rewrite Vlo, Vxy. apply RS_mono. lia.
  - rewrite Vhi, Vxy. apply RS_mono. lia.
Qed.

(** Scaling by a non-negative constant keeps the order. *)
Lemma within_mul_r (lo hi c x : float) :
  finite lo = true -> finite hi = true -> finite c = true ->
  (0 <=? c)%float = true ->
  within lo hi x -> within (lo * c) (hi * c) (x * c).
Proof.
  intros F1 F2 Fc Hc Hx.
  pose proof (within_finite _ _ _ F1 F2 Hx) as Fx.
  destruct Hx as [Hx1 Hx2].
  apply leb_V in Hx1, Hx2, Hc. change (Vf 0) with 0 in Hc.
  destruct (mul_V x c Fx Fc) as [Vxc Nxc].
  destruct (mul_V lo c F1 Fc) as [Vlo Nlo].
  destruct (mul_V hi c F2 Fc) as [Vhi Nhi].
  assert (0 < 2 ^ scale) as HT by reflexivity.
  split; apply leb_V; repeat split; try assumption.
  - rewrite Vlo, Vxc. apply RS_mono. apply Z.div_le_mono; [lia | nia].
  - rewrite Vhi, Vxc. apply RS_mono. apply Z.div_le_mono; [lia | nia].
Qed.

Lemma leb_ltb_trans (x y z : float) :
  (x <=? y)%float = true -> (y <? z)%float = true -> (x <? z)%float = true.
Proof.
  intros H1 H2. apply leb_V in H1. apply ltb_V in H2. apply ltb_V.
  repeat split; try tauto; lia.
Qed.

Lemma leb_trans (x y z : float) :
  (x <=? y)%float = true -> (y <=? z)%float = true -> (x <=? z)%float = true.
Proof.
  intros H1 H2. apply leb_V in H1, H2. apply leb_V.
  repeat split; try tauto; lia.
Qed.

Lemma Vf_one : Vf 1 = 2 ^ scale.
Proof. vm_compute. reflexivity. Qed.

Lemma Vf_below_one : Vf 0x1.fffffffffffffp-1 = (2 ^ 53 - 1) * 2 ^ (scale - 53).
Proof. vm_compute. reflexivity. Qed.

(** The largest Number below [1] is [1 - 2^-53]. *)
Lemma below_one (u : float) :
  (u <? 1)%float = true -> (u <=? 0x1.fffffffffffffp-1)%float = true.
Proof.
  intros H. apply ltb_V in H. destruct H as [Nu [_ Hlt]].
  apply leb_V. split; [exact Nu | split; [reflexivity|]].
  rewrite Vf_one in Hlt. rewrite Vf_below_one.
  unfold Vf in *. pose proof (valid_Prim u) as Hv.
  assert (0 < INF) as HI by reflexivity.
  assert (2 ^ scale < INF) as HI' by reflexivity.
  assert (0 < 2 ^ scale) as HS by reflexivity.
  assert (0 < 2 ^ (scale - 53)) as HT by reflexivity.
  assert (0 < 2 ^ 53 - 1) as H53 by reflexivity.
  assert (0 <= (2 ^ 53 - 1) * 2 ^ (scale - 53)) as Hnn by (apply Z.mul_nonneg_nonneg; lia).
  set (bound := (2 ^ 53 - 1) * 2 ^ (scale - 53)) in *.
  set (one := 2 ^ scale) in *.
  destruct (Prim2SF u) as [s|s| |s m e]; cbn [V] in *.
  - exact Hnn.
  - destruct s; unfold signed in *; lia.
  - discriminate.
  - pose proof (V_finite_pos m e Hv) as Hp.
    destruct s; unfold signed in *; [lia|].
    destruct (valid_finite _ _ _ Hv) as [_ [He [Hm Hn]]].
    assert (e <= -53) as He'.
    { destruct (Z.le_gt_cases e (-53)) as [|Hgt]; [assumption|]. exfalso.
      specialize (Hn ltac:(lia)).
      assert (one <= Zpos m * 2 ^ (e + scale)); [|lia].
      replace (e + scale) with ((e + 52) + (scale - 52)) by lia.
      rewrite Z.pow_add_r by (unfold scale; lia).
      pose proof (pow2_pos (e + 52) ltac:(lia)).
      replace one with (2 ^ 52 * 1 * 2 ^ (scale - 52)) by reflexivity.
      rewrite Z.mul_assoc.
      apply Z.mul_le_mono_nonneg_r; [apply Z.pow_nonneg; lia|].
      apply Z.mul_le_mono_nonneg; lia. }
    apply Z.le_trans with ((2 ^ 53 - 1) * 2 ^ (e + scale)).
    + apply Z.mul_le_mono_nonneg_r; [apply Z.pow_nonneg; lia | lia].
    + unfold bound. apply Z.mul_le_mono_nonneg_l; [lia|]. apply pow2_le. unfold scale. lia.
Qed.

End FloatFacts.


(** * Properties *)

(** ** Calendar arithmetic *)

Module DateFacts.
Import JsDate.

Lemma MonthFromTime_range (t : Z) : 0 <= MonthFromTime t <= 11.
Proof.
    unfold MonthFromTime.
    repeat match goal with |- context [if ?c then _ else _] => destruct c end; lia.
Qed.

  (** Setting the day of the month to [DateFromTime t + k] lands [k] days
      away from the day of [t]. *)
Lemma MakeDay_shift (t k : Z) :
    MakeDay (YearFromTime t) (MonthFromTime t) (DateFromTime t + k) = Day t + k.
Proof.
    pose proof (MonthFromTime_range t) as Hm.
    unfold MakeDay.
    rewrite (Z.div_small (MonthFromTime t) 12), (Z.mod_small (MonthFromTime t) 12) by lia.
    rewrite Z.add_0_r.
    unfold DateFromTime, DayWithinYear, InLeapYear. lia.
Qed.

Lemma MakeDate_Day (t k : Z) :
    MakeDate (Day t + k) (TimeWithinDay t) = t + k * msPerDay.
Proof.
    unfold MakeDate, Day, TimeWithinDay.
    pose proof (Z.div_mod t msPerDay) as H.
    assert (msPerDay <> 0) as Hne by (unfold msPerDay; lia).
    specialize (H Hne). lia.
Qed.

  (** [date.setDate(date.getDate() - i)] moves the local time value back by
      [i] whole days and converts it to UTC again. *)
Lemma setDate_getDate (tz : TimeZone) (t i : Z) :
    setDate tz (Some t) (option_map (fun d => d - i) (getDate tz (Some t)))
    = TimeClip (UTC tz (LocalTime tz t - i * msPerDay)).
Proof.
    unfold setDate, getDate, option_map.
    replace (DateFromTime (LocalTime tz t) - i) with (DateFromTime (LocalTime tz t) + - i) by lia.
    rewrite MakeDay_shift, MakeDate_Day. do 2 f_equal. lia.
Qed.

Lemma TimeClip_Some (t : Z) : Z.abs t <= maxTime -> TimeClip t = Some t.
Proof.
    intros H. unfold TimeClip. destruct (Z.ltb_spec maxTime (Z.abs t)); [lia | reflexivity].
Qed.

Lemma TimeClip_None (t : Z) : maxTime < Z.abs t -> TimeClip t = None.
Proof.
    intros H. unfold TimeClip. destruct (Z.ltb_spec maxTime (Z.abs t)); [reflexivity | lia].
Qed.

  (** In a zone with a constant offset the round trip through local time
      cancels. *)
Lemma fixedZone_back (off t i : Z) :
    UTC (fixedZone off) (LocalTime (fixedZone off) t - i * msPerDay) = t - i * msPerDay.
Proof. unfold UTC, LocalTime. simpl. lia. Qed.

Lemma Day_shift (t k : Z) : Day (t + k * msPerDay) = Day t + k.
Proof. unfold Day. apply Z.div_add. unfold msPerDay. lia. Qed.

End DateFacts.

(** ** The history generator, iteration by iteration *)

Module HistoryFacts.
Import JsDate App DateFacts.

Section Host.
Variable sin : float -> float.
Variable rand : nat -> float.
Variable tz : TimeZone.
Variable bigToString : float -> string.

    (** The Date the loop body builds for offset [i]. *)
Definition dateAt (today : Date) (i : Z) : Date :=
      match today with
      | Some t => TimeClip (UTC tz (LocalTime tz t - i * msPerDay))
      | None => None
      end.

    (** The rate of the claim: the clamped sum, rounded to four decimals
        by [toFixed(4)] and read back by [parseFloat]. *)
Definition rateAt (baseRate : float) (i : Z) (u : float) : float :=
      JsString.parseFloat
        (JsString.toFixed bigToString 4
           (JsNumber.max 0.1 (baseRate + (sin (JsNumber.ofZ i * 0.1) + u - 0.5) * 0.05)%float)).

Definition pointAt (t : Z) (baseRate : float) (i : Z) (u : float) : RatePoint :=
      {| date := isoDate t;
         rate := rateAt baseRate i u;
         displayDate := toLocaleDateString_short tz (Some t) |}.

Lemma setDate_dateAt (today : Date) (i : Z) :
      setDate tz today (option_map (fun d => d - i) (getDate tz today)) = dateAt today i.
Proof.
      destruct today as [t|]; [apply setDate_getDate | reflexivity].
Qed.

Lemma historyPoint_ok (today : Date) (baseRate : float) (i t : Z) (k : nat) :
      dateAt today i = Some t ->
      historyPoint sin rand tz bigToString today baseRate i k
      = Normal (pointAt t baseRate i (rand k), S k).
Proof.
      intros H. unfold historyPoint, bind, random.
      rewrite setDate_dateAt, H. reflexivity.
Qed.

Lemma historyPoint_throws (today : Date) (baseRate : float) (i : Z) (k : nat) :
      dateAt today i = None ->
      historyPoint sin rand tz bigToString today baseRate i k = Abrupt RangeError.
Proof.
      intros H. unfold historyPoint, bind, random.
      rewrite setDate_dateAt, H. reflexivity.
Qed.

    (** The points the loop appends when [n] iterations are left and the
        random source stands at [k]; an invalid date ends it. *)
Fixpoint pointsFrom (today : Date) (baseRate : float) (n k : nat) : option (list RatePoint) :=
      match n with
      | O => Some []
      | S m =>
          match dateAt today (Z.of_nat m), pointsFrom today baseRate m (S k) with
          | Some t, Some l => Some (pointAt t baseRate (Z.of_nat m) (rand k) :: l)
          | _, _ => None
          end
      end.

Lemma historyLoop_spec (today : Date) (baseRate : float) (n : nat) :
      forall (data : list RatePoint) (k : nat),
        historyLoop sin rand tz bigToString today baseRate n data k
        = match pointsFrom today baseRate n k with
          | Some l => Normal ((data ++ l)%list, (k + n)%nat)
          | None => Abrupt RangeError
          end.
Proof.
      induction n as [|m IH]; intros data k; simpl.
      - unfold ret. now rewrite app_nil_r, Nat.add_0_r.
      - unfold bind. destruct (dateAt today (Z.of_nat m)) as [t|] eqn:Hd.
        + rewrite (historyPoint_ok _ _ _ t) by exact Hd.
          rewrite IH. destruct (pointsFrom today baseRate m (S k)) as [l|].
          * rewrite <- app_assoc. simpl. do 2 f_equal. lia.
          * reflexivity.
        + now rewrite historyPoint_throws.
Qed.

Lemma pointsFrom_length (today : Date) (baseRate : float) (n : nat) :
      forall (k : nat) (l : list RatePoint),
        pointsFrom today baseRate n k = Some l -> List.length l = n.
Proof.
      induction n as [|m IH]; intros k l; simpl.
      - intros [= <-]. reflexivity.
      - destruct (dateAt today (Z.of_nat m)); [|discriminate].
        destruct (pointsFrom today baseRate m (S k)) as [l'|] eqn:E; [|discriminate].
        intros [= <-]. simpl. f_equal. eauto.
Qed.

    (** When every date of the window is valid, all points are produced;
        the point at index [j] is the one for offset [n - 1 - j] and uses
        draw [k + j]. *)
Lemma pointsFrom_valid (today : Date) (baseRate : float) (n : nat) :
      forall k : nat,
        (forall m, (m < n)%nat -> dateAt today (Z.of_nat m) <> None) ->
        exists l, pointsFrom today baseRate n k = Some l.
Proof.
      induction n as [|m IH]; intros k Hv; simpl.
      - eauto.
      - destruct (dateAt today (Z.of_nat m)) eqn:E.
        + destruct (IH (S k)) as [l Hl]; [intros; apply Hv; lia|].
          rewrite Hl. eauto.
        + exfalso. apply (Hv m); [lia | exact E].
Qed.

Lemma pointsFrom_nth (today : Date) (baseRate : float) (n : nat) :
      forall (k : nat) (l : list RatePoint) (j : nat),
        pointsFrom today baseRate n k = Some l ->
        (j < n)%nat ->
        exists t,
          dateAt today (Z.of_nat (n - 1 - j)) = Some t /\
          nth_error l j = Some (pointAt t baseRate (Z.of_nat (n - 1 - j)) (rand (k + j))).
Proof.
      induction n as [|m IH]; intros k l j; simpl; [lia|].
      destruct (dateAt today (Z.of_nat m)) as [t|] eqn:Hd; [|discriminate].
      destruct (pointsFrom today baseRate m (S k)) as [l'|] eqn:E; [|discriminate].
      intros [= <-] Hj. destruct j as [|j].
      - exists t. rewrite Nat.sub_0_r, Nat.sub_0_r, Nat.add_0_r. split; [exact Hd | reflexivity].
      - destruct (IH (S k) l' j E) as [t' [Ht' Hn]]; [lia|].
        exists t'. replace (m - 0 - S j)%nat with (m - 1 - j)%nat by lia.
        split; [exact Ht'|]. simpl. rewrite Hn. do 3 f_equal. lia.
Qed.

Lemma pointsFrom_invalid (today : Date) (baseRate : float) (n : nat) :
      forall k m : nat,
        (m < n)%nat -> dateAt today (Z.of_nat m) = None ->
        pointsFrom today baseRate n k = None.
Proof.
      induction n as [|n' IH]; intros k m Hm Hd; simpl; [lia|].
      destruct (Nat.eq_dec m n') as [->|Hne].
      - now rewrite Hd.
      - destruct (dateAt today (Z.of_nat n')); [|reflexivity].
        rewrite (IH (S k) m); [reflexivity | lia | exact Hd].
Qed.

    (** The whole call: one draw for the base rate, then the loop. *)
Lemma generate_spec (now days : Z) (k : nat) :
      generateMockHistoricalData sin rand tz bigToString now days k
      = match pointsFrom (TimeClip now) (baseRate (rand k)) (Z.to_nat (days + 1)) (S k) with
        | Some l => Normal (l, (S k + Z.to_nat (days + 1))%nat)
        | None => Abrupt RangeError
        end.
Proof.
      unfold generateMockHistoricalData, bind, random.
      rewrite historyLoop_spec. reflexivity.
Qed.

End Host.

End HistoryFacts.

(** ** Windows inside the range of Date *)

Module WindowFacts.
Import JsDate App DateFacts HistoryFacts.

  (** Every date of the window [now - days .. now] is a valid Date. *)
Definition windowInRange (tz : TimeZone) (now days : Z) : Prop :=
    forall i, 0 <= i <= days -> dateAt tz (TimeClip now) i <> None.

  (** Offsets stay below one day, as ECMA-262 requires of a time zone. *)
Definition boundedZone (tz : TimeZone) : Prop :=
    forall t, Z.abs (offsetAtUTC tz t) < msPerDay /\ Z.abs (offsetAtLocal tz t) < msPerDay.

Lemma windowInRange_bounded (tz : TimeZone) (now days : Z) :
    boundedZone tz ->
    (days + 2) * msPerDay - maxTime <= now <= maxTime - 2 * msPerDay ->
    windowInRange tz now days.
Proof.
    intros Hz Hn i Hi. unfold dateAt.
    assert (0 < msPerDay) as Hd by (unfold msPerDay; lia).
    rewrite TimeClip_Some by nia.
    unfold UTC, LocalTime.
    destruct (Hz now) as [H1 _].
    destruct (Hz (now + offsetAtUTC tz now - i * msPerDay)) as [_ H2].
    rewrite TimeClip_Some; [discriminate|]. nia.
Qed.

Lemma boundedZone_fixed (off : Z) : Z.abs off < msPerDay -> boundedZone (fixedZone off).
Proof. intros H t. simpl. split; exact H. Qed.

Lemma boundedZone_london : boundedZone london2024.
Proof.
    intros t. unfold london2024, msPerDay. simpl.
    split; match goal with |- context [if ?c then _ else _] => destruct c end; lia.
Qed.

Section Host.
Variable sin : float -> float.
Variable rand : nat -> float.
Variable tz : TimeZone.
Variable bigToString : float -> string.

Local Abbreviation generate := (generateMockHistoricalData sin rand tz bigToString).

    (** A call on a window in range returns [days + 1] points and has drawn
        [days + 2] random numbers. *)
Lemma generate_in_range (now days : Z) (k : nat) :
      0 <= days -> windowInRange tz now days ->
      exists l,
        generate now days k = Normal (l, (k + Z.to_nat (days + 2))%nat) /\
        pointsFrom sin rand tz bigToString (TimeClip now) (baseRate (rand k))
          (Z.to_nat (days + 1)) (S k) = Some l /\
        Z.of_nat (List.length l) = days + 1.
Proof.
      intros Hd Hw. rewrite generate_spec.
      destruct (pointsFrom_valid sin rand tz bigToString (TimeClip now)
                  (baseRate (rand k)) (Z.to_nat (days + 1)) (S k)) as [l Hl].
      { intros m Hm. apply Hw. lia. }
      rewrite Hl. exists l. split; [|split].
      - do 2 f_equal. lia.
      - reflexivity.
      - rewrite (pointsFrom_length _ _ _ _ _ _ _ _ _ Hl). lia.
Qed.

    (** A negative [days] skips the loop. *)
Lemma generate_negative (now days : Z) (k : nat) :
      days < 0 -> generate now days k = Normal ([], S k).
Proof.
      intros Hd. rewrite generate_spec.
      replace (Z.to_nat (days + 1)) with O by lia. simpl.
      do 2 f_equal. lia.
Qed.

    (** The first iteration already throws when its date is invalid. *)
Lemma generate_first_invalid (now days : Z) (k : nat) :
      0 <= days -> dateAt tz (TimeClip now) days = None ->
      generate now days k = Abrupt RangeError.
Proof.
      intros Hd Hinv. rewrite generate_spec.
      rewrite (pointsFrom_invalid sin rand tz bigToString _ _ _ _ (Z.to_nat days)).
      - reflexivity.
      - lia.
      - now rewrite Z2Nat.id by lia.
Qed.

    (** A call never returns an empty list for [days >= 0], and the only
        exception it can throw is the RangeError of [toISOString]. *)
Lemma generate_outcomes (now days : Z) (k : nat) :
      0 <= days ->
      generate now days k = Abrupt RangeError \/
      exists l, generate now days k = Normal (l, (k + Z.to_nat (days + 2))%nat)
                /\ Z.of_nat (List.length l) = days + 1.
Proof.
      intros Hd. rewrite generate_spec.
      destruct (pointsFrom sin rand tz bigToString (TimeClip now)
                  (baseRate (rand k)) (Z.to_nat (days + 1)) (S k)) as [l|] eqn:Hl.
      - right. exists l. split.
        + do 2 f_equal. lia.
        + rewrite (pointsFrom_length _ _ _ _ _ _ _ _ _ Hl). lia.
      - now left.
Qed.

End Host.

End WindowFacts.

(** ** A sample host, for concrete runs *)

Module SampleHost.

  (** A cubic approximation of the sine, clamped to [[-1, 1]]. *)
Definition sampleSin (x : float) : float :=
    let y := (x - x * x * x / 6)%float in
    if (y <? -1)%float then (-1)%float
    else if (1 <? y)%float then 1%float
    else if PrimFloat.is_nan y then 0%float
    else y.

  (** A short cycle of draws from [[0, 1)]. *)
Definition sampleRand (k : nat) : float :=
    nth (k mod 4) [0.5; 0.25; 0.75; 0.125]%float 0.5%float.

Definition sampleBig (x : float) : string := "1e+21".

  (** 2024-03-31T23:30:00Z. *)
Definition sampleNow : Z := 1711927800000.

Definition utc : JsDate.TimeZone := JsDate.fixedZone 0.

End SampleHost.

(** ** Swapping the currencies *)

Module SwapFacts.
Import App.

  (** C9: [handleSwapCurrencies] exchanges [fromCurrency] and [toCurrency],
      leaves every other cell of the state as it was, and is an involution:
      swapping twice gives back the original state. *)
Theorem swap_exchanges_pair_involutive (st : State) :
    fromCurrency (handleSwapCurrencies st) = toCurrency st /\
    toCurrency (handleSwapCurrencies st) = fromCurrency st /\
    amount (handleSwapCurrencies st) = amount st /\
    exchangeRate (handleSwapCurrencies st) = exchangeRate st /\
    convertedAmount (handleSwapCurrencies st) = convertedAmount st /\
    loading (handleSwapCurrencies st) = loading st /\
    historicalData (handleSwapCurrencies st) = historicalData st /\
    chartPeriod (handleSwapCurrencies st) = chartPeriod st /\
    lastUpdated (handleSwapCurrencies st) = lastUpdated st /\
    handleSwapCurrencies (handleSwapCurrencies st) = st.
Proof.
    destruct st. cbn. repeat split; reflexivity.
Qed.

End SwapFacts.

(** ** The trend of a short history *)

Module TrendFacts.
Import App.

  (** C7: on a history of fewer than two points (empty or a single point)
      [calculateTrend] does not throw and returns the neutral trend with
      percentage [0]. *)
Theorem trend_short_history (bigToString : float -> string) (h : list RatePoint) :
    (List.length h < 2)%nat ->
    calculateTrend bigToString h = Normal {| trend := "neutral"; percentage := JsNum 0 |}.
Proof.
    intros H. unfold calculateTrend.
    destruct (Nat.ltb_spec (List.length h) 2); [reflexivity | lia].
Qed.

Lemma trend_short_history_witness :
    calculateTrend SampleHost.sampleBig []
    = Normal {| trend := "neutral"; percentage := JsNum 0 |} /\
    calculateTrend SampleHost.sampleBig
      [{| date := "2024-03-31"; rate := 1.0049; displayDate := "Mar 31" |}]
    = Normal {| trend := "neutral"; percentage := JsNum 0 |}.
Proof.
    split; apply trend_short_history; simpl; lia.
Defined.

End TrendFacts.

(** ** The converted amount *)

Module ConvertFacts.
Import App.

(** C6, as the code has it: the effect on [amount, exchangeRate] stores the
    product of the current amount and the current rate, when the rate is
    truthy, and [fetchExchangeRate], after its delay, stores the product of
    the rate it has just drawn and the [amount] of its closure, which is the
    amount at the time of the call.  That is the product of the amount and
    the rate of the new state when the amount has not changed since the
    call, as in a fetch that nothing interrupts.  The product is the
    binary64 product, and for the amount [100] and the rate [0.9] it is
    exactly [90]. *)
Theorem converted_amount_is_product (rand : nat -> float) (now : Z) (amt : float)
    (st : State) (k : nat) :
  (exists st' r,
      fetchExchangeRate_resume rand now amt st k = Normal (st', S k) /\
      exchangeRate st' = Some r /\
      amount st' = amount st /\
      convertedAmount st' = Some (amt * r)%float /\
      (amt = amount st -> convertedAmount st' = Some (amount st' * r)%float)) /\
  (exists st' r,
      fetchExchangeRate rand now st k = Normal (st', S k) /\
      exchangeRate st' = Some r /\
      amount st' = amount st /\
      convertedAmount st' = Some (amount st' * r)%float) /\
  (forall r, exchangeRate st = Some r -> JsNumber.truthy r = true ->
      let st' := recomputeConverted st in
      amount st' = amount st /\
      exchangeRate st' = Some r /\
      convertedAmount st' = Some (amount st' * r)%float) /\
  (amount st = 100%float -> exchangeRate st = Some 0.9%float ->
      convertedAmount (recomputeConverted st) = Some 90%float).
Proof.
  split; [|split; [|split]].
  - unfold fetchExchangeRate_resume, bind, random, ret.
    eexists. eexists. split; [reflexivity|]. cbn.
    repeat split. intros ->. reflexivity.
  - unfold fetchExchangeRate, fetchExchangeRate_resume, fetchExchangeRate_begin, bind, random, ret.
    eexists. eexists. split; [reflexivity|]. cbn. repeat split; reflexivity.
  - intros r Hr Ht. unfold recomputeConverted. rewrite Hr, Ht. cbn.
    repeat split; assumption || reflexivity.
  - intros Ha Hr. unfold recomputeConverted. rewrite Hr, Ha. reflexivity.
Qed.

Definition sampleState : State :=
  {| amount := 100; fromCurrency := "USD"; toCurrency := "EUR";
     exchangeRate := Some 0.9%float; convertedAmount := None; loading := false;
     historicalData := []; chartPeriod := "30d"; lastUpdated := None |}.

Lemma converted_amount_is_product_witness :
  convertedAmount (recomputeConverted sampleState) = Some (100 * 0.9)%float /\
  convertedAmount (recomputeConverted sampleState) = Some 90%float.
Proof.
  destruct (converted_amount_is_product SampleHost.sampleRand SampleHost.sampleNow 100%float
              sampleState 0) as [_ [_ [H1 H2]]].
  split.
  - apply (H1 0.9%float); reflexivity.
  - apply H2; reflexivity.
Defined.

(** C6 as the specification has it, the converted amount being the product
    of the amount and the rate whenever it is recomputed, fails on a fetch
    that the amount field overtakes: the fetch starts on the amount [100],
    [250] is typed during the delay, and the fetch then draws the rate
    [1.25] and stores [100 * 1.25 = 125], next to the amount [250], whose
    product with the rate is [312.5]. *)
Lemma stale_closure_amount :
  exists st',
    fetchExchangeRate_resume SampleHost.sampleRand SampleHost.sampleNow (amount initialState)
      (Ui.onAmountChange "250" (fetchExchangeRate_begin initialState)) 0%nat
    = Normal (st', 1%nat) /\
    amount st' = 250%float /\
    exchangeRate st' = Some 1.25%float /\
    convertedAmount st' = Some 125%float /\
    (amount st' * 1.25)%float = 312.5%float /\
    (125 =? 312.5)%float = false.
Proof.
  eexists. split; [reflexivity|]. vm_compute. repeat split.
Qed.

End ConvertFacts.

(** ** The chart period *)

Module PeriodFacts.
Import JsDate App HistoryFacts WindowFacts.

Lemma windowInRange_shorter (tz : TimeZone) (now d d' : Z) :
  d' <= d -> windowInRange tz now d -> windowInRange tz now d'.
Proof. intros Hle H i Hi. apply H. lia. Qed.

Lemma periodDays_cases (p : string) :
  periodDays p = 7 \/ periodDays p = 30 \/ periodDays p = 90.
Proof.
  unfold periodDays. destruct (String.eqb p "7d"); [auto|].
  destruct (String.eqb p "30d"); auto.
Qed.

(** C10: the period ['7d'] selects 7 days, ['30d'] selects 30 days and every
    other value, ['90d'] included, selects 90 days; so, on a clock whose
    last 90 days are valid dates, [loadHistoricalData] stores a history of
    8, 31 or 91 points. *)
Theorem period_selects_window
    (sin : float -> float) (rand : nat -> float) (tz : TimeZone)
    (bigToString : float -> string) (now : Z) (st : State) (k : nat) :
  periodDays "7d" = 7 /\ periodDays "30d" = 30 /\ periodDays "90d" = 90 /\
  (forall p, p <> "7d" -> p <> "30d" -> periodDays p = 90) /\
  (windowInRange tz now 90 ->
   exists st' k',
     loadHistoricalData sin rand tz bigToString now st k = Normal (st', k') /\
     Z.of_nat (List.length (historicalData st')) = periodDays (chartPeriod st) + 1 /\
     (List.length (historicalData st') = 8 \/
      List.length (historicalData st') = 31 \/
      List.length (historicalData st') = 91)%nat).
Proof.
  repeat split; try reflexivity.
  - intros p H7 H30. unfold periodDays.
    destruct (String.eqb_spec p "7d"); [contradiction|].
    destruct (String.eqb_spec p "30d"); [contradiction | reflexivity].
  - intros Hw. unfold loadHistoricalData, bind.
    assert (0 <= periodDays (chartPeriod st) <= 90) as Hd
      by (destruct (periodDays_cases (chartPeriod st)) as [H|[H|H]]; rewrite H; lia).
    destruct (generate_in_range sin rand tz bigToString now (periodDays (chartPeriod st)) k)
      as [l [Hg [_ Hlen]]]; [lia | apply (windowInRange_shorter tz now 90); [lia | exact Hw] |].
    rewrite Hg. eexists. eexists. split; [reflexivity|]. cbn.
    split; [exact Hlen|].
    destruct (periodDays_cases (chartPeriod st)) as [H|[H|H]]; rewrite H in Hlen; lia.
Qed.

Lemma sample_window (days : Z) :
  0 <= days <= 1000 -> windowInRange SampleHost.utc SampleHost.sampleNow days.
Proof.
  intros H. apply windowInRange_bounded.
  - apply boundedZone_fixed. unfold msPerDay. lia.
  - unfold msPerDay, maxTime, SampleHost.sampleNow. lia.
Qed.

Lemma period_selects_window_witness :
  exists st' k',
    loadHistoricalData SampleHost.sampleSin SampleHost.sampleRand SampleHost.utc
      SampleHost.sampleBig SampleHost.sampleNow initialState 0%nat = Normal (st', k') /\
    Z.of_nat (List.length (historicalData st')) = periodDays (chartPeriod initialState) + 1 /\
    (List.length (historicalData st') = 8 \/
     List.length (historicalData st') = 31 \/
     List.length (historicalData st') = 91)%nat.
Proof.
  apply (period_selects_window SampleHost.sampleSin SampleHost.sampleRand SampleHost.utc
           SampleHost.sampleBig SampleHost.sampleNow initialState 0).
  apply sample_window. lia.
Defined.

End PeriodFacts.

(** ** Errors of the history generator *)

Module ErrorFacts.
Import JsDate App HistoryFacts WindowFacts.

(** C8, as the code has it: [generateMockHistoricalData] returns the empty
    list exactly when [days] is negative; for [days >= 0] it returns a
    non-empty list when every date of the window is within the range of
    Date, and it throws the RangeError of [toISOString] when the oldest date
    of the window is not. *)
Theorem generate_empty_iff_negative
    (sin : float -> float) (rand : nat -> float) (tz : TimeZone)
    (bigToString : float -> string) (now days : Z) (k : nat) :
  (forall k', generateMockHistoricalData sin rand tz bigToString now days k = Normal ([], k')
              -> days < 0) /\
  (days < 0 ->
   generateMockHistoricalData sin rand tz bigToString now days k = Normal ([], S k)) /\
  (0 <= days -> windowInRange tz now days ->
   exists l k',
     generateMockHistoricalData sin rand tz bigToString now days k = Normal (l, k') /\
     l <> []) /\
  (0 <= days -> dateAt tz (TimeClip now) days = None ->
   generateMockHistoricalData sin rand tz bigToString now days k = Abrupt RangeError).
Proof.
  split; [|split; [|split]].
  - intros k' H. destruct (Z.lt_ge_cases days 0) as [Hn|Hp]; [exact Hn|].
    destruct (generate_outcomes sin rand tz bigToString now days k Hp) as [He|[l [Hl Hlen]]].
    + rewrite He in H. discriminate.
    + rewrite Hl in H. injection H as Hnil _. subst l. simpl in Hlen. lia.
  - apply generate_negative.
  - intros Hd Hw.
    destruct (generate_in_range sin rand tz bigToString now days k Hd Hw) as [l [Hg [_ Hlen]]].
    exists l. eexists. split; [exact Hg|].
    intros ->. simpl in Hlen. lia.
  - apply generate_first_invalid.
Qed.

Lemma generate_empty_iff_negative_witness :
  generateMockHistoricalData SampleHost.sampleSin SampleHost.sampleRand SampleHost.utc
    SampleHost.sampleBig SampleHost.sampleNow (-1) 0%nat = Normal ([], 1%nat) /\
  (exists l k',
     generateMockHistoricalData SampleHost.sampleSin SampleHost.sampleRand SampleHost.utc
       SampleHost.sampleBig SampleHost.sampleNow 7 0%nat = Normal (l, k') /\ l <> []) /\
  generateMockHistoricalData SampleHost.sampleSin SampleHost.sampleRand SampleHost.utc
    SampleHost.sampleBig SampleHost.sampleNow 200000000 0%nat = Abrupt RangeError.
Proof.
  split; [|split].
  - apply (generate_empty_iff_negative SampleHost.sampleSin SampleHost.sampleRand SampleHost.utc
             SampleHost.sampleBig SampleHost.sampleNow (-1) 0%nat). lia.
  - apply (generate_empty_iff_negative SampleHost.sampleSin SampleHost.sampleRand SampleHost.utc
             SampleHost.sampleBig SampleHost.sampleNow 7 0%nat); [lia|].
    apply PeriodFacts.sample_window. lia.
  - apply (generate_empty_iff_negative SampleHost.sampleSin SampleHost.sampleRand SampleHost.utc
             SampleHost.sampleBig SampleHost.sampleNow 200000000 0%nat); [lia | reflexivity].
Defined.

(** C8 as stated fails: asked for a window of 200,000,000 days, the oldest
    date falls outside the range of Date, [toISOString] throws, and so does
    the generator. *)
Lemma generate_throws_on_huge_window :
  generateMockHistoricalData SampleHost.sampleSin SampleHost.sampleRand SampleHost.utc
    SampleHost.sampleBig SampleHost.sampleNow 200000000 0%nat = Abrupt RangeError.
Proof.
  apply generate_first_invalid; [lia | reflexivity].
Qed.

End ErrorFacts.

(** ** Host numbers, through their values *)

Module NumberFacts.
Import FloatFacts.

Lemma isNaN_number (x : float) : JsNumber.isNaN x = negb (number x).
Proof.
  unfold JsNumber.isNaN, number, Prim2SF.
  destruct (PrimFloat.is_nan x); [reflexivity|].
  destruct (PrimFloat.is_zero x); [reflexivity|].
  destruct (PrimFloat.is_infinity x); [reflexivity|].
  destruct (FloatOps.Z.frexp x) as [r ex].
  destruct (shr_fexp prec emax (Uint63Axioms.to_Z (normfr_mantissa r)) (ex - prec) loc_Exact)
    as [mrs e'].
  destruct (shr_m mrs); reflexivity.
Qed.

Lemma leb_number_l (x y : float) : (x <=? y)%float = true -> number x = true.
Proof. intros H. apply leb_V in H. tauto. Qed.

Lemma leb_number_r (x y : float) : (x <=? y)%float = true -> number y = true.
Proof. intros H. apply leb_V in H. tauto. Qed.

Lemma leb_refl (x : float) : number x = true -> (x <=? x)%float = true.
Proof. intros H. apply leb_V. repeat split; try assumption. lia. Qed.

Lemma ltb_leb (x y : float) : (x <? y)%float = true -> (x <=? y)%float = true.
Proof.
  intros H. apply ltb_V in H. apply leb_V. repeat split; try tauto. lia.
Qed.

(** [Math.max(c, x)] for a positive constant [c] and a Number [x] up to
    [hi] lies between [c] and [hi]. *)
Lemma max_within (c x hi : float) :
  PrimFloat.get_sign c = false ->
  (c <=? hi)%float = true -> (x <=? hi)%float = true ->
  within c hi (JsNumber.max c x).
Proof.
  intros Hs Hc Hx. unfold JsNumber.max.
  rewrite !isNaN_number, (leb_number_l _ _ Hc), (leb_number_l _ _ Hx). cbn [negb orb].
  destruct (c <? x)%float eqn:E1.
  - split; [now apply ltb_leb | exact Hx].
  - destruct (x <? c)%float eqn:E2; [|rewrite Hs];
      (split; [apply leb_refl; exact (leb_number_l _ _ Hc) | exact Hc]).
Qed.

(** The interval of a draw of [Math.random]. *)
Lemma draw_within (u : float) :
  (0 <=? u)%float = true -> (u <? 1)%float = true ->
  within 0 0x1.fffffffffffffp-1 u.
Proof. intros H0 H1. split; [exact H0 | now apply below_one]. Qed.

End NumberFacts.

(** ** The mock exchange rate *)

Module RateFacts.
Import App FloatFacts NumberFacts.

(** The rate drawn from [u] in [[0, 1)] lies between [0.5] and the largest
    Number below [2]. *)
Lemma mockRate_within (u : float) :
  (0 <=? u)%float = true -> (u <? 1)%float = true ->
  within 0.5 0x1.fffffffffffffp+0 (mockRate u).
Proof.
  intros H0 H1. unfold mockRate.
  apply (within_add 0.5 0.5 (0 * 1.5) (0x1.fffffffffffffp-1 * 1.5)); try reflexivity.
  - split; reflexivity.
  - apply within_mul_r; try reflexivity. now apply draw_within.
Qed.

(** C5: whatever the draw of [Math.random] in [[0, 1)], the rate that
    [fetchExchangeRate] stores is at least [0.5] and strictly below [2.0]. *)
Theorem mock_rate_in_range (rand : nat -> float) (now : Z) (st : State) (k : nat) :
  (0 <=? rand k)%float = true -> (rand k <? 1)%float = true ->
  exists st' r,
    fetchExchangeRate rand now st k = Normal (st', S k) /\
    exchangeRate st' = Some r /\
    (0.5 <=? r)%float = true /\ (r <? 2)%float = true.
Proof.
  intros H0 H1.
  destruct (mockRate_within (rand k) H0 H1) as [Hlo Hhi].
  unfold fetchExchangeRate, fetchExchangeRate_resume, fetchExchangeRate_begin, bind, random, ret.
  eexists. exists (mockRate (rand k)). split; [reflexivity|]. cbn [exchangeRate].
  split; [reflexivity|]. split; [exact Hlo|].
  apply (leb_ltb_trans _ _ _ Hhi). reflexivity.
Qed.

Lemma sampleRand_range (k : nat) :
  (0 <=? SampleHost.sampleRand k)%float = true /\ (SampleHost.sampleRand k <? 1)%float = true.
Proof.
  unfold SampleHost.sampleRand.
  assert (k mod 4 < 4)%nat as H by (apply Nat.mod_upper_bound; lia).
  destruct (k mod 4)%nat as [|[|[|[|n]]]]; try lia; split; reflexivity.
Qed.

Lemma mock_rate_in_range_witness :
  exists st' r,
    fetchExchangeRate SampleHost.sampleRand SampleHost.sampleNow initialState 0%nat
    = Normal (st', 1%nat) /\
    exchangeRate st' = Some r /\
    (0.5 <=? r)%float = true /\ (r <? 2)%float = true.
Proof.
  apply (mock_rate_in_range SampleHost.sampleRand SampleHost.sampleNow initialState 0%nat);
    reflexivity.
Defined.

End RateFacts.

(** ** Rounding to four decimals *)

Module FixedFacts.
Import Rounding RoundFacts SpecFacts FloatFacts NumberFacts.

(** The integer nearest to [X * 10^f / 2^2148], the larger one on a tie. *)
Definition scaledOf (f : nat) (X : Z) : Z :=
  (2 * 10 ^ Z.of_nat f * X + 2 ^ scale) / 2 ^ (scale + 1).

Lemma scaledOf_mono (f : nat) (X Y : Z) : X <= Y -> scaledOf f X <= scaledOf f Y.
Proof.
  intros H. unfold scaledOf. apply Z.div_le_mono; [reflexivity|].
  assert (0 < 10 ^ Z.of_nat f) by (apply Z.pow_pos_nonneg; lia). nia.
Qed.

Lemma scaledHalfUp_scaledOf (f : nat) (m : positive) (e : Z) :
  -1074 <= e ->
  JsNumber.scaledHalfUp f m e = scaledOf f (Zpos m * 2 ^ (e + scale)).
Proof.
  intros He. unfold JsNumber.scaledHalfUp, scaledOf.
  set (n := Zpos m * 10 ^ Z.of_nat f).
  assert (0 < 10 ^ Z.of_nat f) as H10 by (apply Z.pow_pos_nonneg; lia).
  replace (2 * 10 ^ Z.of_nat f * (Zpos m * 2 ^ (e + scale))) with (2 * n * 2 ^ (e + scale))
    by (unfold n; ring).
  destruct e as [|k|k].
  - change (0 + scale) with scale. rewrite Z.pow_0_r, Z.mul_1_r.
    replace (2 * n * 2 ^ scale + 2 ^ scale) with (1 * 2 ^ scale + n * (2 * 2 ^ scale)) by ring.
    change (2 ^ (scale + 1)) with (2 * 2 ^ scale).
    rewrite Z.div_add by now vm_compute.
    rewrite Z.div_mul_cancel_r by (try lia; now vm_compute).
    change (1 / 2) with 0. lia.
  - replace (Zpos k + scale) with (scale + Zpos k) by lia.
    rewrite Z.pow_add_r by (unfold scale; lia).
    replace (2 * n * (2 ^ scale * 2 ^ Zpos k) + 2 ^ scale)
      with (1 * 2 ^ scale + n * 2 ^ Zpos k * (2 * 2 ^ scale)) by ring.
    change (2 ^ (scale + 1)) with (2 * 2 ^ scale).
    rewrite Z.div_add by now vm_compute.
    rewrite Z.div_mul_cancel_r by (try lia; now vm_compute).
    change (1 / 2) with 0. lia.
  - assert (Zpos k <= 1074) as Hk by lia.
    replace (scale + 1) with ((Zpos k + 1) + (scale - Zpos k)) by lia.
    rewrite (Z.pow_add_r 2 (Zpos k + 1) (scale - Zpos k)) by (unfold scale; lia).
    replace (Zneg k + scale) with (scale - Zpos k) by lia.
    replace (2 * n * 2 ^ (scale - Zpos k) + 2 ^ scale)
      with ((2 * n + 2 ^ Zpos k) * 2 ^ (scale - Zpos k)).
    + rewrite Z.div_mul_cancel_r; [reflexivity | apply Z.pow_nonzero; lia |
        apply Z.pow_nonzero; unfold scale; lia].
    + rewrite Z.mul_add_distr_r, <- Z.pow_add_r by (unfold scale; lia).
      do 2 f_equal. lia.
Qed.

Lemma atLeast1e21_false (m : positive) (e : Z) :
  -1074 <= e ->
  Zpos m * 2 ^ (e + scale) < 10 ^ 21 * 2 ^ scale ->
  JsNumber.atLeast1e21 m e = false.
Proof.
  intros He Hlt. unfold JsNumber.atLeast1e21.
  destruct e as [|k|k].
  - change (0 + scale) with scale in Hlt. rewrite Z.pow_0_r, Z.mul_1_r.
    apply Z.leb_gt. assert (0 < 2 ^ scale) by reflexivity. nia.
  - apply Z.leb_gt.
    replace (Zpos k + scale) with (Zpos k + scale)%Z in Hlt by reflexivity.
    rewrite Z.pow_add_r in Hlt by (unfold scale; lia).
    assert (0 < 2 ^ scale) by reflexivity. nia.
  - apply Z.leb_gt.
    assert (Zpos k <= 1074) as Hk by lia.
    replace scale with (Zpos k + (scale - Zpos k)) in Hlt at 2 by lia.
    rewrite (Z.pow_add_r 2 (Zpos k) (scale - Zpos k)) in Hlt by (unfold scale; lia).
    replace (Zneg k + scale) with (scale - Zpos k) in Hlt by lia.
    assert (0 < 2 ^ (scale - Zpos k)) by (apply pow2_pos; unfold scale; lia). nia.
Qed.

(** [toFixed] on a positive Number below [10^21]: the digits of the scaled
    and rounded value. *)
Lemma toFixed_positive (bigToString : float -> string) (f : nat) (v : float) :
  (0 <? v)%float = true -> (v <? 1e21)%float = true ->
  JsString.toFixed bigToString f v = Decimal.fixedString f (scaledOf f (Vf v)).
Proof.
  intros H0 H1. apply ltb_V in H0, H1.
  destruct H0 as [_ [Nv Hpos]], H1 as [_ [_ Hlt]].
  change (Vf 0) with 0 in Hpos.
  assert (Vf 1e21 = 10 ^ 21 * 2 ^ scale) as E21 by (vm_compute; reflexivity).
  rewrite E21 in Hlt. clear E21.
  unfold JsString.toFixed, Vf, number in *.
  pose proof (valid_Prim v) as Hv.
  assert (0 < INF) as HI by reflexivity.
  destruct (Prim2SF v) as [s|s| |s m e]; cbn [V] in *; try lia; try discriminate.
  - destruct s; unfold signed in *; [lia|].
    exfalso. revert Hlt. apply Z.le_ngt. now vm_compute.
  - pose proof (V_finite_pos m e Hv).
    destruct (valid_finite _ _ _ Hv) as [_ [He _]].
    destruct s; unfold signed in *; [lia|].
    rewrite atLeast1e21_false by (lia || assumption).
    rewrite scaledHalfUp_scaledOf by lia. reflexivity.
Qed.


(** The Number that [n / 10^4] reads as. *)
Definition decimal4 (n : Z) : float := JsString.ofDecimal false n (-4).

Definition readsBack (lo : float) (n : Z) : bool :=
  let r := JsString.parseFloat (Decimal.fixedString 4 n) in
  (lo <=? r)%float && PrimFloat.Leibniz.eqb r (decimal4 n).

Fixpoint zrange (lo : Z) (len : nat) : list Z :=
  match len with
  | O => []
  | S k => lo :: zrange (lo + 1) k
  end.

Lemma zrange_In (n : Z) (len : nat) :
  forall lo, lo <= n < lo + Z.of_nat len -> In n (zrange lo len).
Proof.
  induction len as [|k IH]; intros lo H; [lia|].
  destruct (Z.eq_dec lo n) as [->|Hne]; [now left|].
  right. apply IH. lia.
Qed.

(** Every four-decimal string from ["0.1000"] to ["1.2251"] reads back as
    the Number nearest to its value, which is at least [0.1]. *)
Lemma fixed4_table : forallb (readsBack 0.1) (zrange 1000 (Z.to_nat 11252)) = true.
Proof. vm_compute. reflexivity. Qed.

Lemma fixed4_reads_back (n : Z) :
  1000 <= n <= 12251 ->
  (0.1 <=? JsString.parseFloat (Decimal.fixedString 4 n))%float = true /\
  JsString.parseFloat (Decimal.fixedString 4 n) = decimal4 n.
Proof.
  intros Hn.
  pose proof (proj1 (forallb_forall _ _) fixed4_table n) as H.
  assert (In n (zrange 1000 (Z.to_nat 11252))) as Hin by (apply zrange_In; lia).
  specialize (H Hin). unfold readsBack in H.
  apply andb_true_iff in H. destruct H as [H1 H2].
  split; [exact H1 | now apply FloatAxioms.Leibniz.eqb_spec].
Qed.

(** The largest value of the clamped rate before rounding. *)
Definition rateCeiling : float := (1.15 + (1 + 0x1.fffffffffffffp-1 - 0.5) * 0.05)%float.

(** Rounding a Number between [0.1] and the ceiling to four decimals gives a
    Number that is at least [0.1] and is nearest to [n / 10^4] for an
    integer [n]. *)
Lemma round4_within (bigToString : float -> string) (v : float) :
  within 0.1 rateCeiling v ->
  (0.1 <=? JsString.parseFloat (JsString.toFixed bigToString 4 v))%float = true /\
  exists n, 1000 <= n <= 12251 /\
            JsString.parseFloat (JsString.toFixed bigToString 4 v) = decimal4 n.
Proof.
  intros [Hlo Hhi].
  rewrite toFixed_positive.
  - apply leb_V in Hlo, Hhi.
    assert (1000 <= scaledOf 4 (Vf v) <= 12251) as Hn.
    { split.
      - apply Z.le_trans with (scaledOf 4 (Vf 0.1)); [now vm_compute|].
        apply scaledOf_mono. tauto.
      - apply Z.le_trans with (scaledOf 4 (Vf rateCeiling)); [|now vm_compute].
        apply scaledOf_mono. tauto. }
    destruct (fixed4_reads_back _ Hn) as [H1 H2].
    split; [exact H1|]. exists (scaledOf 4 (Vf v)). split; [exact Hn | exact H2].
  - apply ltb_V. apply leb_V in Hlo. destruct Hlo as [_ [Nv Hlo]].
    split; [reflexivity | split; [exact Nv|]].
    eapply Z.lt_le_trans; [|exact Hlo]. now vm_compute.
  - apply (leb_ltb_trans _ _ _ Hhi). reflexivity.
Qed.

(** The clamped rate before rounding. *)
Lemma clamped_within (s base u : float) :
  within (-1) 1 s -> within 0.85 1.15 base -> within 0 0x1.fffffffffffffp-1 u ->
  within 0.1 rateCeiling (JsNumber.max 0.1 (base + (s + u - 0.5) * 0.05)%float).
Proof.
  intros Hs Hb Hu.
  assert (within (-1 + 0) (1 + 0x1.fffffffffffffp-1) (s + u)) as H1
    by (apply within_add; try reflexivity; assumption).
  assert (within (-1 + 0 - 0.5) (1 + 0x1.fffffffffffffp-1 - 0.5) (s + u - 0.5)) as H2.
  { apply (within_sub _ _ 0.5 0.5); try reflexivity; [exact H1 | split; reflexivity]. }
  assert (within ((-1 + 0 - 0.5) * 0.05) ((1 + 0x1.fffffffffffffp-1 - 0.5) * 0.05)
            ((s + u - 0.5) * 0.05)) as H3
    by (apply within_mul_r; try reflexivity; exact H2).
  assert (within (0.85 + (-1 + 0 - 0.5) * 0.05) rateCeiling
            (base + (s + u - 0.5) * 0.05)) as H4
    by (apply within_add; try reflexivity; assumption).
  apply max_within; [reflexivity | reflexivity | apply H4].
Qed.

End FixedFacts.

(** ** The argument of the sine *)

Module ArgumentFacts.
Import Rounding RoundFacts SpecFacts OpFacts FloatFacts NumberFacts JsDate HistoryFacts WindowFacts.

(** Small non-negative integers convert to finite Numbers. *)
Lemma ofZ_within (z : Z) :
  0 <= z <= 2 ^ 53 -> within 0 9007199254740992 (JsNumber.ofZ z).
Proof.
  intros Hz. unfold JsNumber.ofZ.
  destruct (Z.leb_spec 0 z); [|lia].
  destruct (Z.ltb_spec z (2 ^ 63)); [|lia]. cbn [andb].
  assert (Prim2SF (of_uint63 (Uint63.of_Z z)) = binary_normalize prec emax z 0 false) as Hs.
  { rewrite of_uint63_spec, Uint63.of_Z_spec, Z.mod_small; [reflexivity|].
    split; [lia|]. exact H0. }
  destruct (normalize_value z 0 ltac:(unfold scale; lia)) as [Hv Hn].
  rewrite <- Hs in Hv, Hn.
  split; apply leb_V.
  - split; [reflexivity | split; [exact Hn|]].
    fold (Vf (of_uint63 (Uint63.of_Z z))) in Hv. rewrite Hv.
    change (Vf 0) with (RS 0). apply RS_mono.
    assert (0 < 2 ^ (0 + scale)) by reflexivity. nia.
  - split; [exact Hn | split; [reflexivity|]].
    fold (Vf (of_uint63 (Uint63.of_Z z))) in Hv. rewrite Hv.
    assert (Vf 9007199254740992 = RS (2 ^ 53 * 2 ^ (0 + scale))) as -> by (vm_compute; reflexivity).
    apply RS_mono.
    assert (0 < 2 ^ (0 + scale)) by reflexivity. nia.
Qed.

Lemma sine_argument_finite (z : Z) :
  0 <= z <= 2 ^ 53 -> finite (JsNumber.ofZ z * 0.1)%float = true.
Proof.
  intros Hz.
  apply (within_finite (0 * 0.1) (9007199254740992 * 0.1)); try reflexivity.
  apply within_mul_r; try reflexivity. now apply ofZ_within.
Qed.

(** In a zone whose offsets stay below a day, only offsets up to about
    200 million days give a valid date. *)
Lemma valid_offset_bound (tz : TimeZone) (now i t : Z) :
  boundedZone tz -> 0 <= i ->
  dateAt tz (TimeClip now) i = Some t -> i <= 2 ^ 53.
Proof.
  intros Hz Hi Hd. unfold dateAt in Hd.
  destruct (TimeClip now) as [t0|] eqn:Hn; [|discriminate].
  unfold TimeClip in Hn, Hd.
  destruct (Z.ltb_spec maxTime (Z.abs now)) as [|Hnow]; [discriminate|].
  injection Hn as <-.
  destruct (Z.ltb_spec maxTime (Z.abs (UTC tz (LocalTime tz now - i * msPerDay))))
    as [|Hu]; [discriminate|].
  unfold UTC, LocalTime in Hu.
  destruct (Hz now) as [H1 _].
  destruct (Hz (now + offsetAtUTC tz now - i * msPerDay)) as [_ H2].
  unfold msPerDay, maxTime in *. lia.
Qed.

End ArgumentFacts.

(** ** What the host guarantees *)

Module HostFacts.
Import FloatFacts NumberFacts.

(** [Math.random] returns Numbers in [[0, 1)]. *)
Definition unitSource (rand : nat -> float) : Prop :=
  forall k, (0 <=? rand k)%float = true /\ (rand k <? 1)%float = true.

(** [Math.sin] maps finite Numbers into [[-1, 1]]. *)
Definition sineLike (sin : float -> float) : Prop :=
  forall x, finite x = true -> within (-1) 1 (sin x).

Lemma ltb_false_leb (x y : float) :
  number x = true -> number y = true -> (x <? y)%float = false -> (y <=? x)%float = true.
Proof.
  intros Nx Ny H. apply leb_V. split; [exact Ny | split; [exact Nx|]].
  destruct (Z.le_gt_cases (Vf y) (Vf x)) as [|Hgt]; [assumption|].
  assert ((x <? y)%float = true) by (apply ltb_V; auto). congruence.
Qed.

Lemma sampleRand_unit : unitSource SampleHost.sampleRand.
Proof. exact RateFacts.sampleRand_range. Qed.

Lemma sampleSin_sine : sineLike SampleHost.sampleSin.
Proof.
  intros x _. unfold SampleHost.sampleSin.
  set (y := (x - x * x * x / 6)%float).
  destruct (y <? -1)%float eqn:E1; [split; reflexivity|].
  destruct (1 <? y)%float eqn:E2; [split; reflexivity|].
  destruct (PrimFloat.is_nan y) eqn:E3; [split; reflexivity|].
  assert (number y = true) as Ny.
  { pose proof (isNaN_number y) as H. unfold JsNumber.isNaN in H. rewrite E3 in H.
    destruct (number y); [reflexivity | discriminate]. }
  split; apply ltb_false_leb; try assumption; reflexivity.
Qed.

End HostFacts.

(** ** The rates of the generated points *)

Module HistoryRates.
Import JsDate App FloatFacts NumberFacts HistoryFacts WindowFacts ArgumentFacts HostFacts FixedFacts.

Lemma pointsFrom_In (sin : float -> float) (rand : nat -> float) (tz : TimeZone)
    (bigToString : float -> string) (today : Date) (base : float) (n k : nat)
    (l : list RatePoint) (p : RatePoint) :
  pointsFrom sin rand tz bigToString today base n k = Some l -> In p l ->
  exists (m j : nat) (t : Z),
    (m < n)%nat /\ dateAt tz today (Z.of_nat m) = Some t /\
    p = pointAt sin tz bigToString t base (Z.of_nat m) (rand j).
Proof.
  intros Hp Hin.
  destruct (In_nth_error _ _ Hin) as [j Hj].
  assert (j < n)%nat as Hlt.
  { rewrite <- (pointsFrom_length _ _ _ _ _ _ _ _ _ Hp). apply nth_error_Some. congruence. }
  destruct (pointsFrom_nth _ _ _ _ _ _ _ _ _ j Hp Hlt) as [t [Ht Hn]].
  exists (n - 1 - j)%nat, (k + j)%nat, t.
  split; [lia | split; [exact Ht | congruence]].
Qed.

Lemma leb_pos (x : float) : (0.1 <=? x)%float = true -> (0 <? x)%float = true.
Proof.
  intros H. apply leb_V in H. apply ltb_V.
  split; [reflexivity | split; [tauto|]].
  eapply Z.lt_le_trans; [|apply H]. now vm_compute.
Qed.

(** The rate of a point, from a valid offset and a draw. *)
Lemma rateAt_floor (sin : float -> float) (bigToString : float -> string)
    (r u : float) (i : Z) :
  sineLike sin -> 0 <= i <= 2 ^ 53 ->
  (0 <=? r)%float = true -> (r <? 1)%float = true ->
  (0 <=? u)%float = true -> (u <? 1)%float = true ->
  (0.1 <=? rateAt sin bigToString (baseRate r) i u)%float = true /\
  exists n, 1000 <= n <= 12251 /\ rateAt sin bigToString (baseRate r) i u = decimal4 n.
Proof.
  intros Hs Hi Hr0 Hr1 Hu0 Hu1. unfold rateAt.
  apply round4_within. apply clamped_within.
  - apply Hs. now apply sine_argument_finite.
  - unfold baseRate.
    apply (within_add 0.85 0.85 (0 * 0.3) (0x1.fffffffffffffp-1 * 0.3)); try reflexivity.
    + split; reflexivity.
    + apply within_mul_r; try reflexivity. now apply draw_within.
  - now apply draw_within.
Qed.


(** C4: every rate the component produces is positive.  Given a sine with
    values in [[-1, 1]], draws in [[0, 1)] and a time zone with offsets below
    a day, every point that [generateMockHistoricalData] returns has a rate of
    at least [0.1], the clamp floor, which is the Number nearest to [n / 10^4]
    for an integer [n] (at most four decimals); and the rate that
    [fetchExchangeRate] stores is greater than [0]. *)
Theorem rates_positive
    (sin : float -> float) (rand : nat -> float) (tz : TimeZone)
    (bigToString : float -> string) (now days : Z) (k : nat) :
  sineLike sin -> unitSource rand -> boundedZone tz ->
  (forall l k',
      generateMockHistoricalData sin rand tz bigToString now days k = Normal (l, k') ->
      forall p, In p l ->
        (0.1 <=? rate p)%float = true /\ (0 <? rate p)%float = true /\
        exists n, 0 <= n /\ rate p = decimal4 n) /\
  (forall st, exists st' r,
      fetchExchangeRate rand now st k = Normal (st', S k) /\
      exchangeRate st' = Some r /\ (0 <? r)%float = true).
Proof.
  intros Hs Hr Hz. split.
  - intros l k' Hg p Hin. rewrite generate_spec in Hg.
    destruct (pointsFrom sin rand tz bigToString (TimeClip now) (baseRate (rand k))
                (Z.to_nat (days + 1)) (S k)) as [l'|] eqn:Hp; [|discriminate].
    injection Hg as <- _.
    destruct (pointsFrom_In _ _ _ _ _ _ _ _ _ _ Hp Hin) as [m [j [t [Hm [Hd ->]]]]].
    cbn [rate pointAt].
    pose proof (valid_offset_bound tz now (Z.of_nat m) t Hz ltac:(lia) Hd) as Hi.
    destruct (Hr k) as [Hr0 Hr1]. destruct (Hr j) as [Hu0 Hu1].
    destruct (rateAt_floor sin bigToString (rand k) (rand j) (Z.of_nat m) Hs ltac:(lia)
                Hr0 Hr1 Hu0 Hu1) as [Hlo [n [Hn He]]].
    split; [exact Hlo | split; [now apply leb_pos|]].
    exists n. split; [lia | exact He].
  - intros st. destruct (Hr k) as [H0 H1].
    destruct (RateFacts.mockRate_within (rand k) H0 H1) as [Hlo _].
    unfold fetchExchangeRate, fetchExchangeRate_resume, fetchExchangeRate_begin, bind, random, ret.
    eexists. exists (mockRate (rand k)). split; [reflexivity|]. cbn [exchangeRate].
    split; [reflexivity|].
    apply ltb_V. apply leb_V in Hlo.
    split; [reflexivity | split; [tauto|]].
    eapply Z.lt_le_trans; [|apply Hlo]. now vm_compute.
Qed.

Lemma rates_positive_witness :
  exists l k',
    generateMockHistoricalData SampleHost.sampleSin SampleHost.sampleRand SampleHost.utc
      SampleHost.sampleBig SampleHost.sampleNow 7 0%nat = Normal (l, k') /\
    l <> [] /\
    forall p, In p l ->
      (0.1 <=? rate p)%float = true /\ (0 <? rate p)%float = true /\
      exists n, 0 <= n /\ rate p = decimal4 n.
Proof.
  destruct (generate_in_range SampleHost.sampleSin SampleHost.sampleRand SampleHost.utc
              SampleHost.sampleBig SampleHost.sampleNow 7 0%nat ltac:(lia)
              (PeriodFacts.sample_window 7 ltac:(lia))) as [l [Hg [_ Hlen]]].
  exists l, (0 + Z.to_nat (7 + 2))%nat.
  split; [exact Hg | split; [intros ->; simpl in Hlen; lia|]].
  apply (proj1 (rates_positive SampleHost.sampleSin SampleHost.sampleRand SampleHost.utc
                  SampleHost.sampleBig SampleHost.sampleNow 7 0%nat
                  sampleSin_sine sampleRand_unit
                  (boundedZone_fixed 0 ltac:(reflexivity))) l _ Hg).
Defined.

(** C2 as stated fails: the largest draw below [1] gives a base rate that is
    equal to [1.15], not below it. *)
Lemma base_rate_reaches_upper_end :
  (0 <=? 0x1.fffffffffffffp-1)%float = true /\
  (0x1.fffffffffffffp-1 <? 1)%float = true /\
  (baseRate 0x1.fffffffffffffp-1 <? 1.15)%float = false /\
  baseRate 0x1.fffffffffffffp-1 = 1.15%float.
Proof. repeat split. Qed.

(** C2, as the code has it: a call makes one draw [r] for the base rate
    [0.85 + r * 0.3], which lies in the closed interval from [0.85] to [1.15];
    then, for each offset [i] from [days] down to [0], the point at index
    [days - i] has the rate [max(0.1, baseRate + (sin(i * 0.1) + u - 0.5) *
    0.05)] rounded to four decimals by [toFixed(4)], where [u] is the next
    draw, used for this point only.  No other draw is made. *)
Theorem rates_follow_formula
    (sin : float -> float) (rand : nat -> float) (tz : TimeZone)
    (bigToString : float -> string) (now days : Z) (k : nat) :
  unitSource rand -> 0 <= days -> windowInRange tz now days ->
  exists l,
    generateMockHistoricalData sin rand tz bigToString now days k
    = Normal (l, (k + Z.to_nat (days + 2))%nat) /\
    within 0.85 1.15 (baseRate (rand k)) /\
    forall i, 0 <= i <= days ->
      exists p,
        nth_error l (Z.to_nat (days - i)) = Some p /\
        rate p = rateAt sin bigToString (baseRate (rand k)) i
                   (rand (k + 1 + Z.to_nat (days - i))%nat) /\
        (0 <=? rand (k + 1 + Z.to_nat (days - i))%nat)%float = true /\
        (rand (k + 1 + Z.to_nat (days - i))%nat <? 1)%float = true.
Proof.
  intros Hr Hd Hw.
  destruct (generate_in_range sin rand tz bigToString now days k Hd Hw) as [l [Hg [Hp _]]].
  exists l. split; [exact Hg|]. split.
  - destruct (Hr k) as [H0 H1]. unfold baseRate.
    apply (within_add 0.85 0.85 (0 * 0.3) (0x1.fffffffffffffp-1 * 0.3)); try reflexivity.
    + split; reflexivity.
    + apply within_mul_r; try reflexivity. now apply draw_within.
  - intros i Hi.
    destruct (pointsFrom_nth _ _ _ _ _ _ _ _ _ (Z.to_nat (days - i)) Hp ltac:(lia))
      as [t [Ht Hn]].
    replace (Z.of_nat (Z.to_nat (days + 1) - 1 - Z.to_nat (days - i))) with i in Hn by lia.
    eexists. split; [exact Hn|]. cbn [rate pointAt].
    replace (S k + Z.to_nat (days - i))%nat with (k + 1 + Z.to_nat (days - i))%nat by lia.
    split; [reflexivity|]. apply Hr.
Qed.

Lemma rates_follow_formula_witness :
  exists l,
    generateMockHistoricalData SampleHost.sampleSin SampleHost.sampleRand SampleHost.utc
      SampleHost.sampleBig SampleHost.sampleNow 7 0%nat
    = Normal (l, (0 + Z.to_nat (7 + 2))%nat) /\
    within 0.85 1.15 (baseRate (SampleHost.sampleRand 0)) /\
    forall i, 0 <= i <= 7 ->
      exists p,
        nth_error l (Z.to_nat (7 - i)) = Some p /\
        rate p = rateAt SampleHost.sampleSin SampleHost.sampleBig
                   (baseRate (SampleHost.sampleRand 0)) i
                   (SampleHost.sampleRand (0 + 1 + Z.to_nat (7 - i))%nat) /\
        (0 <=? SampleHost.sampleRand (0 + 1 + Z.to_nat (7 - i))%nat)%float = true /\
        (SampleHost.sampleRand (0 + 1 + Z.to_nat (7 - i))%nat <? 1)%float = true.
Proof.
  apply (rates_follow_formula SampleHost.sampleSin SampleHost.sampleRand SampleHost.utc
           SampleHost.sampleBig SampleHost.sampleNow 7 0%nat sampleRand_unit ltac:(lia)
           (PeriodFacts.sample_window 7 ltac:(lia))).
Defined.

End HistoryRates.

(** ** Decimal strings determine their numbers *)

Module DecimalFacts.
Import Decimal.

Lemma length_app (a b : string) :
  String.length (a ++ b) = (String.length a + String.length b)%nat.
Proof. induction a as [|c a IH]; simpl; [reflexivity | now rewrite IH]. Qed.

Lemma app_inj_length (a c b d : string) :
  String.length a = String.length c -> a ++ b = c ++ d -> a = c /\ b = d.
Proof.
  revert c. induction a as [|x a IH]; intros [|y c] Hl H; simpl in *; try discriminate.
  - auto.
  - injection H as -> H. destruct (IH c ltac:(lia) H) as [-> ->]. auto.
Qed.

Lemma app_assoc (a b c : string) : (a ++ b) ++ c = a ++ (b ++ c).
Proof. induction a as [|x a IH]; simpl; [reflexivity | now rewrite IH]. Qed.

(** The number a string of digits reads as, after [acc]. *)
Fixpoint strVal (s : string) (acc : Z) : Z :=
  match s with
  | EmptyString => acc
  | String c s' => strVal s' (10 * acc + digitValue c)
  end.

Lemma strVal_app (a b : string) : forall acc, strVal (a ++ b) acc = strVal b (strVal a acc).
Proof. induction a as [|c a IH]; intros acc; simpl; [reflexivity | apply IH]. Qed.

Lemma strVal_zeros (k : nat) : strVal (zeros k) 0 = 0.
Proof. induction k as [|k IH]; simpl; [reflexivity | exact IH]. Qed.

Lemma digitValue_digitChar (d : Z) : 0 <= d <= 9 -> digitValue (digitChar d) = d.
Proof.
  intros H. unfold digitValue, digitChar.
  rewrite nat_ascii_embedding by lia. lia.
Qed.

(** The digits written by [digitsFuel] read back as the number. *)
Lemma digitsFuel_spec (fuel : nat) :
  forall n acc, 0 <= n < 10 ^ Z.of_nat fuel -> (0 < fuel)%nat ->
    exists pre, digitsFuel fuel n acc = pre ++ acc /\
                pre <> "" /\
                forall a, strVal pre a = a * 10 ^ Z.of_nat (String.length pre) + n.
Proof.
  induction fuel as [|f IH]; intros n acc Hn Hf.
  - lia.
  - cbn [digitsFuel].
    pose proof (Z.mod_pos_bound n 10 ltac:(lia)) as Hm.
    destruct (Z.ltb_spec n 10) as [Hlt|Hge].
    + exists (String (digitChar (n mod 10)) ""). split; [reflexivity|]. split; [discriminate|].
      intros a. cbn [strVal String.length].
      rewrite digitValue_digitChar, Z.mod_small by lia. change (10 ^ Z.of_nat 1) with 10. lia.
    + assert (0 <= n / 10 < 10 ^ Z.of_nat f) as Hq.
      { split; [apply Z.div_pos; lia|]. apply Z.div_lt_upper_bound; [lia|].
        rewrite Nat2Z.inj_succ, Z.pow_succ_r in Hn by lia. lia. }
      assert (0 < f)%nat as Hf'.
      { destruct f; [|lia]. change (10 ^ Z.of_nat 0) with 1 in Hq.
        assert (1 <= n / 10) by (apply Z.div_le_lower_bound; lia). lia. }
      destruct (IH (n / 10) (String (digitChar (n mod 10)) acc) Hq Hf') as [pre [Hp [Hne Hv]]].
      exists (pre ++ String (digitChar (n mod 10)) ""). split; [|split].
      * rewrite Hp, app_assoc. reflexivity.
      * destruct pre; [contradiction | discriminate].
      * intros a. rewrite strVal_app, Hv. cbn [strVal].
        rewrite digitValue_digitChar by lia.
        rewrite length_app. cbn [String.length].
        replace (Z.of_nat (String.length pre + 1)) with (Z.of_nat (String.length pre) + 1) by lia.
        rewrite Z.pow_add_r, Z.pow_1_r by lia.
        pose proof (Z.div_mod n 10 ltac:(lia)). lia.
Qed.

Lemma digits_value (n : Z) : 0 <= n -> strVal (digits n) 0 = n.
Proof.
  intros Hn. unfold digits.
  destruct (digitsFuel_spec (S (Z.to_nat (Z.log2 n))) n "") as [pre [Hp [_ Hv]]].
  - split; [exact Hn|].
    destruct (Z.eq_dec n 0) as [->|Hne]; [reflexivity|].
    pose proof (Z.log2_spec n ltac:(lia)) as [_ Hl].
    pose proof (Z.log2_nonneg n).
    rewrite Nat2Z.inj_succ, Z2Nat.id by lia.
    eapply Z.lt_le_trans; [exact Hl|].
    apply Z.pow_le_mono_l. lia.
  - lia.
  - rewrite Hp.
    replace (pre ++ "") with pre by (clear; induction pre; simpl; congruence).
    rewrite Hv. lia.
Qed.

Lemma pad_value (w : nat) (n : Z) : 0 <= n -> strVal (padLeft w (digits n)) 0 = n.
Proof.
  intros Hn. unfold padLeft. rewrite strVal_app, strVal_zeros. now apply digits_value.
Qed.

Lemma pad_inj (w : nat) (a b : Z) :
  0 <= a -> 0 <= b -> padLeft w (digits a) = padLeft w (digits b) -> a = b.
Proof.
  intros Ha Hb H. rewrite <- (pad_value w a Ha), <- (pad_value w b Hb). now rewrite H.
Qed.

Lemma length_zeros (k : nat) : String.length (zeros k) = k.
Proof. induction k; simpl; congruence. Qed.

Lemma pad_length_ge (w : nat) (s : string) : (w <= String.length (padLeft w s))%nat.
Proof. unfold padLeft. rewrite length_app, length_zeros. lia. Qed.

Lemma pad2_length (x : Z) : 0 <= x <= 99 -> String.length (padLeft 2 (digits x)) = 2%nat.
Proof.
  intros Hx.
  assert (forallb (fun x => Nat.eqb (String.length (padLeft 2 (digits x))) 2)
            (FixedFacts.zrange 0 100) = true) as H by (vm_compute; reflexivity).
  apply Nat.eqb_eq.
  apply (proj1 (forallb_forall _ _) H x). apply FixedFacts.zrange_In. lia.
Qed.

Lemma pad4_length (x : Z) : 0 <= x <= 9999 -> String.length (padLeft 4 (digits x)) = 4%nat.
Proof.
  intros Hx.
  assert (forallb (fun x => Nat.eqb (String.length (padLeft 4 (digits x))) 4)
            (FixedFacts.zrange 0 (Z.to_nat 10000)) = true) as H by (vm_compute; reflexivity).
  apply Nat.eqb_eq.
  apply (proj1 (forallb_forall _ _) H x). apply FixedFacts.zrange_In. lia.
Qed.

End DecimalFacts.

(** ** ISO dates determine their days *)

Module IsoFacts.
Import JsDate Decimal DecimalFacts.

Lemma YearFromTime_spec (t : Z) :
  DayFromYear (YearFromTime t) <= Day t < DayFromYear (YearFromTime t + 1).
Proof.
  unfold YearFromTime. set (d := Day t).
  set (y0 := 1970 + 400 * d / 146097).
  assert (400 * d - 146096 <= 146097 * (y0 - 1970) <= 400 * d) as Hy.
  { unfold y0. pose proof (Z.div_mod (400 * d) 146097 ltac:(lia)).
    pose proof (Z.mod_pos_bound (400 * d) 146097 ltac:(lia)). lia. }
  clearbody y0.
  destruct (Z.leb_spec (DayFromYear (y0 + 1)) d) as [H1|H1].
  - split; [exact H1|]. unfold DayFromYear in *.
    replace (y0 + 1 + 1 - 1969) with (y0 + 2 - 1969) by lia.
    Z.div_mod_to_equations; lia.
  - destruct (Z.leb_spec (DayFromYear y0) d) as [H2|H2].
    + split; assumption.
    + replace (y0 - 1 + 1) with y0 by lia. split; [|exact H2].
      unfold DayFromYear in *. Z.div_mod_to_equations; lia.
Qed.

Lemma InLeapYear_range (t : Z) : 0 <= InLeapYear t <= 1.
Proof.
  unfold InLeapYear, DayFromYear. Z.div_mod_to_equations; lia.
Qed.

Lemma DayWithinYear_range (t : Z) : 0 <= DayWithinYear t <= 364 + InLeapYear t.
Proof.
  pose proof (YearFromTime_spec t). unfold DayWithinYear, InLeapYear. lia.
Qed.

Lemma DateFromTime_range (t : Z) : 1 <= DateFromTime t <= 31.
Proof.
  pose proof (DayWithinYear_range t) as Hd. pose proof (InLeapYear_range t) as Hl.
  unfold DateFromTime, MonthFromTime.
  repeat match goal with |- context [if (?a <? ?b) then _ else _] =>
    destruct (Z.ltb_spec a b) end;
    cbn [monthStart]; lia.
Qed.

(** The day number, from the year, the month and the day of the month. *)
Lemma Day_from_parts (t : Z) :
  Day t = DayFromYear (YearFromTime t)
          + monthStart (DayFromYear (YearFromTime t + 1) - DayFromYear (YearFromTime t) - 365)
              (MonthFromTime t)
          + DateFromTime t - 1.
Proof. unfold DateFromTime, DayWithinYear, InLeapYear. lia. Qed.

Lemma isoYear_length (y : Z) :
  (0 <= y <= 9999 /\ String.length (isoYear y) = 4%nat) \/
  (~ 0 <= y <= 9999 /\ (7 <= String.length (isoYear y))%nat).
Proof.
  unfold isoYear, pad.
  destruct (Z.leb_spec 0 y), (Z.leb_spec y 9999); cbn [andb].
  1: left; split; [lia | apply pad4_length; lia].
  all: right; split; [lia|]; rewrite length_app;
    pose proof (pad_length_ge 6 (digits (Z.abs y)));
    destruct (y <? 0); cbn [String.length]; lia.
Qed.

Lemma isoYear_inj (a b : Z) : isoYear a = isoYear b -> a = b.
Proof.
  intros H.
  destruct (isoYear_length a) as [[Ha La]|[Ha La]],
           (isoYear_length b) as [[Hb Lb]|[Hb Lb]];
    try (rewrite H in La; lia).
  - unfold isoYear, pad in H.
    destruct (Z.leb_spec 0 a), (Z.leb_spec a 9999); try lia.
    destruct (Z.leb_spec 0 b), (Z.leb_spec b 9999); try lia.
    cbn [andb] in H. apply (pad_inj 4); lia || assumption.
  - unfold isoYear, pad in H.
    assert ((0 <=? a) && (a <=? 9999) = false) as Ea
      by (destruct (Z.leb_spec 0 a), (Z.leb_spec a 9999); try reflexivity; lia).
    assert ((0 <=? b) && (b <=? 9999) = false) as Eb
      by (destruct (Z.leb_spec 0 b), (Z.leb_spec b 9999); try reflexivity; lia).
    rewrite Ea, Eb in H.
    destruct (Z.ltb_spec a 0), (Z.ltb_spec b 0); cbn [append] in H; try discriminate;
      injection H as H; apply (pad_inj 6) in H; lia.
Qed.

(** Two instants with the same ISO date lie on the same day. *)
Theorem isoDate_inj (t1 t2 : Z) : isoDate t1 = isoDate t2 -> Day t1 = Day t2.
Proof.
  intros H. unfold isoDate, pad in H.
  pose proof (DateFacts.MonthFromTime_range t1) as Hm1. pose proof (DateFacts.MonthFromTime_range t2) as Hm2.
  pose proof (DateFromTime_range t1) as Hd1. pose proof (DateFromTime_range t2) as Hd2.
  assert (String.length (isoYear (YearFromTime t1)) = String.length (isoYear (YearFromTime t2)))
    as Hlen.
  { apply (f_equal String.length) in H.
    repeat rewrite length_app in H. cbn [String.length] in H.
    rewrite !pad2_length in H by lia. lia. }
  destruct (app_inj_length _ _ _ _ Hlen H) as [Hy Ht].
  apply isoYear_inj in Hy.
  cbn [append] in Ht. injection Ht as Ht.
  assert (String.length (padLeft 2 (digits (MonthFromTime t1 + 1)))
          = String.length (padLeft 2 (digits (MonthFromTime t2 + 1)))) as Hl2
    by (rewrite !pad2_length by lia; reflexivity).
  destruct (app_inj_length _ _ _ _ Hl2 Ht) as [Hm Hd].
  apply (pad_inj 2) in Hm; [|lia|lia].
  cbn [append] in Hd. injection Hd as Hd.
  apply (pad_inj 2) in Hd; [|lia|lia].
  rewrite (Day_from_parts t1), (Day_from_parts t2).
  replace (MonthFromTime t1) with (MonthFromTime t2) by lia.
  rewrite Hy, Hd. reflexivity.
Qed.

(** The ISO date of a day number. *)
Definition isoDateOfDay (d : Z) : string := isoDate (d * msPerDay).

Lemma Day_of_day (d : Z) : Day (d * msPerDay) = d.
Proof. unfold Day. apply Z.div_mul. unfold msPerDay. lia. Qed.

Lemma isoDate_of_Day (t : Z) : isoDate t = isoDateOfDay (Day t).
Proof.
  unfold isoDateOfDay, isoDate, DateFromTime, MonthFromTime, DayWithinYear, InLeapYear,
    YearFromTime.
  rewrite Day_of_day. reflexivity.
Qed.

Lemma isoDateOfDay_inj (a b : Z) : isoDateOfDay a = isoDateOfDay b -> a = b.
Proof.
  intros H. unfold isoDateOfDay in H.
  pose proof (isoDate_inj (a * msPerDay) (b * msPerDay) H) as Hd.
  now rewrite !Day_of_day in Hd.
Qed.

End IsoFacts.

(** ** The dates of the generated points *)

Module DateClaims.
Import JsDate App DateFacts HistoryFacts WindowFacts IsoFacts.

Lemma fixedZone_window (off now days : Z) :
  days * msPerDay - maxTime <= now <= maxTime -> 0 <= days ->
  windowInRange (fixedZone off) now days.
Proof.
  intros Hn Hd i Hi. unfold dateAt.
  assert (0 < msPerDay) by (unfold msPerDay; lia).
  rewrite TimeClip_Some by nia.
  rewrite fixedZone_back, TimeClip_Some; [discriminate | nia].
Qed.

Lemma fixedZone_dateAt (off now i t : Z) :
  dateAt (fixedZone off) (TimeClip now) i = Some t -> t = now - i * msPerDay.
Proof.
  unfold dateAt. destruct (TimeClip now) as [t0|] eqn:Hn; [|discriminate].
  unfold TimeClip in Hn. destruct (maxTime <? Z.abs now); [discriminate|].
  injection Hn as <-. rewrite fixedZone_back.
  unfold TimeClip. destruct (maxTime <? _); [discriminate|]. now intros [= <-].
Qed.

(** C1, as the code has it: in a time zone with a constant offset from UTC,
    and for a window of [days >= 0] days that lies within the range of Date,
    [generateMockHistoricalData] returns [days + 1] points; the point at
    index [j] carries the ISO date of the day [days - j] days before the day
    of the clock reading, so the first point is dated [days] days back, the
    last one today, and no date occurs twice. *)
Theorem history_dates_fixed_offset
    (sin : float -> float) (rand : nat -> float) (off : Z)
    (bigToString : float -> string) (now days : Z) (k : nat) :
  0 <= days -> days * msPerDay - maxTime <= now <= maxTime ->
  exists l,
    generateMockHistoricalData sin rand (fixedZone off) bigToString now days k
    = Normal (l, (k + Z.to_nat (days + 2))%nat) /\
    Z.of_nat (List.length l) = days + 1 /\
    (forall j, 0 <= j <= days ->
       exists p, nth_error l (Z.to_nat j) = Some p /\
                 date p = isoDateOfDay (Day now - (days - j))) /\
    NoDup (map date l).
Proof.
  intros Hd Hn.
  pose proof (fixedZone_window off now days Hn Hd) as Hw.
  destruct (generate_in_range sin rand (fixedZone off) bigToString now days k Hd Hw)
    as [l [Hg [Hp Hlen]]].
  assert (forall j, 0 <= j <= days ->
            exists p, nth_error l (Z.to_nat j) = Some p /\
                      date p = isoDateOfDay (Day now - (days - j))) as Hnth.
  { intros j Hj.
    destruct (pointsFrom_nth _ _ _ _ _ _ _ _ _ (Z.to_nat j) Hp ltac:(lia)) as [t [Ht Hq]].
    eexists. split; [exact Hq|]. cbn [date pointAt].
    apply fixedZone_dateAt in Ht. subst t.
    rewrite isoDate_of_Day. f_equal.
    replace (now - Z.of_nat (Z.to_nat (days + 1) - 1 - Z.to_nat j) * msPerDay)
      with (now + (j - days) * msPerDay) by (unfold msPerDay; lia).
    rewrite Day_shift. lia. }
  exists l. repeat split; try assumption.
  apply NoDup_nth_error. intros i j Hi Heq.
  rewrite length_map in Hi. rewrite !nth_error_map in Heq.
  destruct (Hnth (Z.of_nat i) ltac:(lia)) as [p [Hp1 Hp2]].
  rewrite Nat2Z.id in Hp1. rewrite Hp1 in Heq. cbn [option_map] in Heq.
  destruct (nth_error l j) as [q|] eqn:Hq; [|discriminate].
  assert (j < List.length l)%nat as Hj by (apply nth_error_Some; congruence).
  destruct (Hnth (Z.of_nat j) ltac:(lia)) as [q' [Hq1 Hq2]].
  rewrite Nat2Z.id, Hq in Hq1. injection Hq1 as <-.
  cbn [option_map] in Heq. injection Heq as Heq.
  rewrite Hp2, Hq2 in Heq. apply isoDateOfDay_inj in Heq. lia.
Qed.

Lemma history_dates_fixed_offset_witness :
  exists l,
    generateMockHistoricalData SampleHost.sampleSin SampleHost.sampleRand (fixedZone 0)
      SampleHost.sampleBig SampleHost.sampleNow 30 0%nat
    = Normal (l, (0 + Z.to_nat (30 + 2))%nat) /\
    Z.of_nat (List.length l) = 30 + 1 /\
    (forall j, 0 <= j <= 30 ->
       exists p, nth_error l (Z.to_nat j) = Some p /\
                 date p = isoDateOfDay (Day SampleHost.sampleNow - (30 - j))) /\
    NoDup (map date l).
Proof.
  apply (history_dates_fixed_offset SampleHost.sampleSin SampleHost.sampleRand 0
           SampleHost.sampleBig SampleHost.sampleNow 30 0%nat);
    unfold msPerDay, maxTime, SampleHost.sampleNow; lia.
Defined.

(** C1 as stated fails twice.  In London, half an hour after midnight on the
    day after the clocks went forward, a window of one day gives the same
    date for both points; and a window of 200,000,000 days gives no points
    at all, because [toISOString] throws on its oldest date. *)
Lemma history_dates_repeat_or_throw :
  (exists p0 p1 k',
      generateMockHistoricalData SampleHost.sampleSin SampleHost.sampleRand london2024
        SampleHost.sampleBig SampleHost.sampleNow 1 0%nat = Normal ([p0; p1], k') /\
      date p0 = "2024-03-31" /\ date p1 = "2024-03-31" /\
      displayDate p0 = "Mar 31" /\ displayDate p1 = "Apr 1") /\
  generateMockHistoricalData SampleHost.sampleSin SampleHost.sampleRand (fixedZone 0)
    SampleHost.sampleBig SampleHost.sampleNow 200000000 0%nat = Abrupt RangeError.
Proof.
  split.
  - eexists. eexists. eexists. split; [vm_compute; reflexivity|].
    repeat split.
  - apply generate_first_invalid; [lia | reflexivity].
Qed.

End DateClaims.

(** ** The sign of a quotient *)

Module DivFacts.
Import Rounding ShiftFacts RoundFacts SpecFacts OpFacts ArithFacts.

Lemma round_even_range (m : Z) (l : location) :
  m <= round_nearest_even m l <= m + 1.
Proof.
  destruct l as [|[| |]]; cbn [round_nearest_even]; try lia.
  destruct (Z.even m); lia.
Qed.

Lemma shr_m_of_loc (m : Z) (l : location) : shr_m (shr_record_of_loc m l) = m.
Proof. destruct l as [|[| |]]; reflexivity. Qed.

Lemma shr_1_m (mrs : shr_record) : 0 <= shr_m mrs -> shr_m (shr_1 mrs) = shr_m mrs / 2.
Proof.
  destruct mrs as [m r s]. cbn [shr_m]. intros Hm.
  now rewrite shr_1_spec.
Qed.

Lemma Zdigits2_53_54 (q : Z) :
  2 ^ 52 <= q < 2 ^ 54 ->
  (Zdigits2 q = 53 /\ q < 2 ^ 53) \/ (Zdigits2 q = 54 /\ 2 ^ 53 <= q).
Proof.
  intros Hq. destruct q as [|p|p]; try lia.
  rewrite Zdigits2_log2.
  destruct (Z.lt_ge_cases (Zpos p) (2 ^ 53)) as [Hlt|Hge].
  - left. split; [|exact Hlt].
    assert (Z.log2 (Zpos p) = 52); [|lia].
    apply Z.log2_unique; lia.
  - right. split; [|exact Hge].
    assert (Z.log2 (Zpos p) = 53); [|lia].
    apply Z.log2_unique; lia.
Qed.

(** Rounding a mantissa of 53 or 54 bits, whatever lies beyond it, gives a
    non-zero number of the given sign. *)
Lemma round_aux_long (s : bool) (q e : Z) (l : location) :
  2 ^ 52 <= q < 2 ^ 54 -> -1074 <= e ->
  exists q' E,
    binary_round_aux prec emax s q e l = finish s q' E /\
    2 ^ 52 <= q' <= 2 ^ 53 /\ -1074 <= E.
Proof.
  intros Hq He. unfold binary_round_aux, shr_fexp at 1.
  fold (fexp64 (Zdigits2 q + e)). rewrite fexp64_eq.
  destruct (Zdigits2_53_54 q Hq) as [[Hd Hlt]|[Hd Hge]]; rewrite Hd.
  - replace (Z.max (53 + e - 53) (-1074) - e) with 0 by lia.
    cbn [shr]. rewrite shr_m_of_loc.
    pose proof (round_even_range q (loc_of_shr_record (shr_record_of_loc q l))) as Hr.
    eexists. exists e. split; [apply second_shift|]. all: lia.
  - replace (Z.max (54 + e - 53) (-1074) - e) with 1 by lia.
    cbn [shr iter_pos].
    pose proof (shr_1_m (shr_record_of_loc q l)) as Hm. rewrite shr_m_of_loc in Hm.
    specialize (Hm ltac:(lia)).
    pose proof (round_even_range (shr_m (shr_1 (shr_record_of_loc q l)))
                  (loc_of_shr_record (shr_1 (shr_record_of_loc q l)))) as Hr.
    rewrite Hm in Hr.
    assert (2 ^ 52 <= q / 2 < 2 ^ 53) as Hh.
    { split; [apply Z.div_le_lower_bound; lia | apply Z.div_lt_upper_bound; lia]. }
    rewrite Hm.
    eexists. exists (e + 1). split; [apply second_shift|]. all: lia.
Qed.

Lemma finish_positive (s : bool) (q E : Z) :
  2 ^ 52 <= q <= 2 ^ 53 -> -1074 <= E ->
  notNaN (finish s q E) = true /\
  exists W, 0 < W /\ V (finish s q E) = signed s W.
Proof.
  intros Hq HE. split.
  - unfold finish. destruct q as [|p|p]; try lia.
    repeat match goal with |- context [if ?c then _ else _] => destruct c end; reflexivity.
  - rewrite V_finish by lia.
    eexists. split; [|reflexivity].
    assert (0 < INF) by reflexivity.
    pose proof (pow2_pos (E + scale) ltac:(unfold scale; lia)).
    apply Z.min_glb_lt; [nia | assumption].
Qed.

(** The quotient of two mantissas, with enough bits. *)
Lemma div_core_long (m1 m2 : positive) (e1 e2 : Z) :
  let d1 := Zdigits2 (Zpos m1) in
  let d2 := Zdigits2 (Zpos m2) in
  d1 <= 53 -> -1074 <= d1 + e1 - (d2 + e2) - 53 ->
  exists q l,
    SFdiv_core_binary prec emax (Zpos m1) e1 (Zpos m2) e2
    = (q, d1 + e1 - (d2 + e2) - 53, l) /\
    2 ^ 52 <= q < 2 ^ 54.
Proof.
  intros d1 d2 Hd1 Hn. unfold SFdiv_core_binary.
  fold d1. fold d2. fold (fexp64 (d1 + e1 - (d2 + e2))). rewrite fexp64_eq.
  assert (1 <= d2) as Hd2 by (unfold d2; rewrite Zdigits2_log2; pose proof (Z.log2_nonneg (Zpos m2)); lia).
  replace (Z.min (Z.max (d1 + e1 - (d2 + e2) - 53) (-1074)) (e1 - e2))
    with (d1 + e1 - (d2 + e2) - 53) by lia.
  replace (e1 - e2 - (d1 + e1 - (d2 + e2) - 53)) with (d2 - d1 + 53) by lia.
  destruct (d2 - d1 + 53) as [|sp|sp] eqn:Es; try lia.
  rewrite Z.shiftl_mul_pow2 by lia. rewrite <- Es.
  pose proof (log2_digits (Zpos m1) ltac:(lia)) as [L1 U1].
  pose proof (log2_digits (Zpos m2) ltac:(lia)) as [L2 U2].
  unfold d1, d2 in *. rewrite !Zdigits2_log2 in *.
  set (a := Z.log2 (Zpos m1)) in *. set (b := Z.log2 (Zpos m2)) in *.
  pose proof (Z.log2_nonneg (Zpos m1)). pose proof (Z.log2_nonneg (Zpos m2)).
  pose proof (Z_div_mod (Zpos m1 * 2 ^ (b + 1 - (a + 1) + 53)) (Zpos m2) ltac:(lia)) as Hdm.
  unfold Z.div_eucl at 1.
  fold (Z.div_eucl (Zpos m1 * 2 ^ (b + 1 - (a + 1) + 53)) (Zpos m2)).
  destruct (Z.div_eucl (Zpos m1 * 2 ^ (b + 1 - (a + 1) + 53)) (Zpos m2)) as [q r].
  destruct Hdm as [Hdm Hr].
  eexists. eexists. split; [reflexivity|].
  assert (0 < 2 ^ (b + 1 - (a + 1) + 53)) as HP by (apply pow2_pos; lia).
  assert (2 ^ a * 2 ^ (b + 1 - (a + 1) + 53) = 2 ^ 52 * 2 ^ (b + 1)) as E1.
  { rewrite <- !Z.pow_add_r by lia. f_equal. lia. }
  assert (2 ^ (a + 1) * 2 ^ (b + 1 - (a + 1) + 53) = 2 ^ 54 * 2 ^ b) as E2.
  { rewrite <- !Z.pow_add_r by lia. f_equal. lia. }
  assert (0 < 2 ^ b) by (apply pow2_pos; lia).
  assert (0 < 2 ^ (b + 1)) by (apply pow2_pos; lia).
  split.
  - assert (2 ^ 52 * 2 ^ (b + 1) <= Zpos m1 * 2 ^ (b + 1 - (a + 1) + 53)) by nia.
    assert (2 ^ 52 * Zpos m2 < Zpos m2 * q + Zpos m2) by nia.
    nia.
  - assert (Zpos m1 * 2 ^ (b + 1 - (a + 1) + 53) < 2 ^ 54 * 2 ^ b) by nia.
    assert (Zpos m2 * q < 2 ^ 54 * Zpos m2) by nia.
    nia.
Qed.


Lemma valid_digits (s : bool) (m : positive) (e : Z) :
  valid (S754_finite s m e) -> 1 <= Zdigits2 (Zpos m) <= 53.
Proof.
  intros Hv. destruct (valid_finite _ _ _ Hv) as [_ [_ [Hm _]]].
  split.
  - rewrite Zdigits2_log2. pose proof (Z.log2_nonneg (Zpos m)). lia.
  - apply Zdigits2_bound; lia.
Qed.

(** Dividing a finite non-zero number by a positive one that is not more
    than [2^1021] times larger gives a non-zero number of the same sign. *)
Lemma SFdiv_sign (sx : bool) (mx my : positive) (ex ey : Z) :
  valid (S754_finite sx mx ex) -> valid (S754_finite false my ey) ->
  -1021 <= Zdigits2 (Zpos mx) + ex - (Zdigits2 (Zpos my) + ey) ->
  notNaN (SFdiv prec emax (S754_finite sx mx ex) (S754_finite false my ey)) = true /\
  exists W, 0 < W /\
    V (SFdiv prec emax (S754_finite sx mx ex) (S754_finite false my ey)) = signed sx W.
Proof.
  intros Hx Hy Hn. cbn [SFdiv].
  pose proof (valid_digits _ _ _ Hx) as Hdx.
  destruct (div_core_long mx my ex ey ltac:(lia) ltac:(lia)) as [q [l [Hc Hq]]].
  rewrite Hc. replace (xorb sx false) with sx by (destruct sx; reflexivity).
  destruct (round_aux_long sx q (Zdigits2 (Zpos mx) + ex - (Zdigits2 (Zpos my) + ey) - 53)
              l Hq ltac:(lia)) as [q' [E [Hr [Hq' HE]]]].
  rewrite Hr. now apply finish_positive.
Qed.

Lemma RS_pow2 (t : Z) : 1074 <= t <= scale + 1023 -> RS (2 ^ t) = 2 ^ t.
Proof.
  intros Ht. pose proof (pow2_pos t ltac:(lia)) as Hp.
  rewrite RS_pos by lia.
  assert (rexp (2 ^ t) <= t) as Hr by (unfold rexp; rewrite Z.log2_pow2 by lia; lia).
  pose proof (rexp_pos (2 ^ t)) as Hr0.
  rewrite RNZ_exact; [| lia |].
  - apply Z.min_l. unfold INF. apply pow2_le. unfold scale in *. lia.
  - remember (rexp (2 ^ t)) as r eqn:Er. rewrite (pow2_split r t) by lia.
    apply Z.mod_mul. apply Z.pow_nonzero; lia.
Qed.

Lemma RS_opp (z : Z) : RS (- z) = - RS z.
Proof. destruct z; reflexivity || (cbn [Z.opp RS]; lia). Qed.

(** Different positive numbers differ by at least half a unit in the last
    place of the second. *)
Lemma positive_gap (mx my : positive) (ex ey : Z) :
  valid (S754_finite false mx ex) -> valid (S754_finite false my ey) ->
  Zpos mx * 2 ^ (ex + scale) <> Zpos my * 2 ^ (ey + scale) ->
  2 ^ (Z.max (ey - 1) (-1074) + scale)
  <= Z.abs (Zpos mx * 2 ^ (ex + scale) - Zpos my * 2 ^ (ey + scale)).
Proof.
  intros Hx Hy Hne.
  destruct (valid_finite _ _ _ Hx) as [_ [Hex [Hmx _]]].
  destruct (valid_finite _ _ _ Hy) as [_ [Hey [_ Hny]]].
  destruct (Z.le_gt_cases ey ex) as [Hle|Hgt].
  - replace (ex + scale) with ((ex - ey) + (ey + scale)) in * by lia.
    rewrite (Z.pow_add_r 2 (ex - ey) (ey + scale)) in * by (unfold scale; lia).
    pose proof (pow2_pos (ex - ey) ltac:(lia)) as H1.
    pose proof (pow2_pos (ey + scale) ltac:(unfold scale; lia)) as H2.
    apply Z.le_trans with (2 ^ (ey + scale)); [apply pow2_le; unfold scale; lia|].
    set (T := 2 ^ (ey + scale)) in *. set (A := Zpos mx * 2 ^ (ex - ey)).
    replace (Zpos mx * (2 ^ (ex - ey) * T)) with (A * T) in * by (unfold A; ring).
    assert (A <> Zpos my) by (intros HA; apply Hne; now rewrite HA).
    nia.
  - specialize (Hny ltac:(lia)).
    replace (Z.max (ey - 1) (-1074)) with (ey - 1) by lia.
    pose proof (pow2_pos (ey - 1 + scale) ltac:(unfold scale; lia)) as H2.
    assert (Zpos mx * 2 ^ (ex + scale) <= (2 ^ 53 - 1) * 2 ^ (ey - 1 + scale)) as Hux.
    { apply Z.le_trans with ((2 ^ 53 - 1) * 2 ^ (ex + scale)).
      - apply Z.mul_le_mono_nonneg_r; [apply Z.pow_nonneg; lia | lia].
      - apply Z.mul_le_mono_nonneg_l; [lia|]. apply pow2_le. unfold scale. lia. }
    assert (2 ^ 52 * (2 * 2 ^ (ey - 1 + scale)) <= Zpos my * 2 ^ (ey + scale)) as Hly.
    { replace (ey + scale) with (1 + (ey - 1 + scale)) by lia.
      rewrite (Z.pow_add_r 2 1 (ey - 1 + scale)) by (unfold scale; lia).
      change (2 ^ 1) with 2. apply Z.mul_le_mono_nonneg_r; lia. }
    change (2 ^ 53) with (2 ^ 52 * 2) in Hux. lia.
Qed.

(** The difference of two different positive finite numbers is finite, not
    zero, has the sign of the exact difference, and is not too small for
    the division by the second. *)
Lemma SFsub_shape (mx my : positive) (ex ey : Z) :
  valid (S754_finite false mx ex) -> valid (S754_finite false my ey) ->
  valid (SFsub prec emax (S754_finite false mx ex) (S754_finite false my ey)) ->
  V (S754_finite false mx ex) <> V (S754_finite false my ey) ->
  exists md ed,
    SFsub prec emax (S754_finite false mx ex) (S754_finite false my ey)
    = S754_finite (V (S754_finite false mx ex) <? V (S754_finite false my ey)) md ed /\
    -1021 <= Zdigits2 (Zpos md) + ed - (Zdigits2 (Zpos my) + ey).
Proof.
  intros Hx Hy Hd Hne.
  destruct (SFsub_V _ _ Hx Hy eq_refl eq_refl) as [Hv Hn].
  set (d := SFsub prec emax (S754_finite false mx ex) (S754_finite false my ey)) in *.
  cbn [V signed] in Hv, Hne |- *.
  set (X := Zpos mx * 2 ^ (ex + scale)) in *. set (Y := Zpos my * 2 ^ (ey + scale)) in *.
  pose proof (V_finite_pos mx ex Hx) as HX. pose proof (V_finite_pos my ey Hy) as HY.
  fold X in HX. fold Y in HY.
  pose proof (positive_gap mx my ex ey Hx Hy Hne) as Hgap. fold X Y in Hgap.
  destruct (valid_finite _ _ _ Hy) as [_ [Hey _]].
  set (g := Z.max (ey - 1) (-1074) + scale) in *.
  assert (RS (2 ^ g) = 2 ^ g) as Hg by (apply RS_pow2; unfold g, scale; lia).
  pose proof (pow2_pos g ltac:(unfold g, scale; lia)) as Hgp.
  assert (RS X = X) as HRX by (apply (RS_V (S754_finite false mx ex)); [exact Hx | reflexivity]).
  assert (RS (- Y) = - Y) as HRY.
  { rewrite RS_opp. f_equal. apply (RS_V (S754_finite false my ey)); [exact Hy | reflexivity]. }
  assert (- Y <= V d <= X) as Hbd.
  { rewrite Hv. split.
    - apply Z.le_trans with (RS (- Y)); [rewrite HRY; lia | apply RS_mono; lia].
    - apply Z.le_trans with (RS X); [apply RS_mono; lia | rewrite HRX; lia]. }
  assert ((X < Y /\ V d <= - 2 ^ g) \/ (Y < X /\ 2 ^ g <= V d)) as Hs.
  { destruct (Z.lt_trichotomy X Y) as [H|[H|H]]; [left | contradiction | right].
    - split; [exact H|]. rewrite Hv.
      apply Z.le_trans with (RS (- 2 ^ g)); [apply RS_mono; lia|].
      rewrite RS_opp, Hg. lia.
    - split; [exact H|]. rewrite Hv.
      apply Z.le_trans with (RS (2 ^ g)); [rewrite Hg; lia | apply RS_mono; lia]. }
  assert (0 < INF) as HI by reflexivity.
  destruct d as [sd|sd| |sd md ed] eqn:Ed; try discriminate; cbn [V] in *.
  - lia.
  - destruct sd; unfold signed in *; lia.
  - pose proof (V_finite_pos md ed Hd) as HD.
    exists md, ed. split.
    + f_equal. destruct sd; unfold signed in *.
      * symmetry. apply Z.ltb_lt. lia.
      * symmetry. apply Z.ltb_ge. lia.
    + assert (2 ^ g <= Zpos md * 2 ^ (ed + scale)) as Hlow
        by (destruct sd; unfold signed in *; lia).
      destruct (valid_finite _ _ _ Hd) as [_ [Hed _]].
      pose proof (valid_digits _ _ _ Hy) as Hdy.
      pose proof (log2_digits (Zpos md) ltac:(lia)) as [_ Hu].
      rewrite Zdigits2_log2 at 1.
      assert (2 ^ g < 2 ^ (Z.log2 (Zpos md) + 1 + (ed + scale))) as Hlt.
      { rewrite Z.pow_add_r by (pose proof (Z.log2_nonneg (Zpos md)); unfold scale; lia).
        pose proof (pow2_pos (ed + scale) ltac:(unfold scale; lia)). nia. }
      apply Z.pow_lt_mono_r_iff in Hlt;
        [| lia | pose proof (Z.log2_nonneg (Zpos md)); unfold scale; lia].
      unfold g in Hlt. lia.
Qed.

End DivFacts.

(** ** The direction of the trend *)

Module TrendSign.
Import Rounding RoundFacts SpecFacts OpFacts ArithFacts FloatFacts NumberFacts DivFacts.

Lemma positive_shape (x : float) :
  finite x = true -> (0 <? x)%float = true ->
  exists m e, Prim2SF x = S754_finite false m e.
Proof.
  intros Hf Hp. apply ltb_V in Hp. destruct Hp as [_ [_ Hp]].
  change (Vf 0) with 0 in Hp. unfold finite, Vf in *.
  pose proof (valid_Prim x) as Hv.
  destruct (Prim2SF x) as [s|s| |s m e]; try discriminate; cbn [V] in Hp; try lia.
  pose proof (V_finite_pos m e Hv).
  destruct s; unfold signed in Hp; [lia|]. eauto.
Qed.

Lemma RS_sgn (z : Z) : 2 ^ 1074 <= Z.abs z -> Z.sgn (RS z) = Z.sgn z.
Proof.
  intros Hz. pose proof (RS_pow2 1074 ltac:(unfold scale; lia)) as Hm.
  assert (0 < 2 ^ 1074) as Hp by reflexivity.
  destruct (Z.lt_trichotomy z 0) as [H|[H|H]]; [| lia |].
  - assert (RS z <= - 2 ^ 1074).
    { apply Z.le_trans with (RS (- 2 ^ 1074)); [apply RS_mono; lia|].
      rewrite RS_opp, Hm. lia. }
    rewrite !Z.sgn_neg; lia.
  - assert (2 ^ 1074 <= RS z).
    { apply Z.le_trans with (RS (2 ^ 1074)); [rewrite Hm; lia | apply RS_mono; lia]. }
    rewrite !Z.sgn_pos; lia.
Qed.

Lemma Vf_hundred : Vf 100 = 100 * 2 ^ scale.
Proof. vm_compute. reflexivity. Qed.

(** The sign of [(l - p) / p * 100], for positive finite [l] and [p], is
    the sign of the exact difference [l - p]. *)
Theorem change_sign (l p : float) :
  finite l = true -> (0 <? l)%float = true ->
  finite p = true -> (0 <? p)%float = true ->
  number ((l - p) / p * 100)%float = true /\
  Z.sgn (Vf ((l - p) / p * 100)%float) = Z.sgn (Vf l - Vf p).
Proof.
  intros Fl Pl Fp Pp.
  destruct (positive_shape l Fl Pl) as [ml [el El]].
  destruct (positive_shape p Fp Pp) as [mp [ep Ep]].
  pose proof (valid_Prim l) as Vl. pose proof (valid_Prim p) as Vp.
  pose proof (valid_Prim (l - p)) as Vd.
  pose proof (valid_Prim ((l - p) / p)) as Vc.
  unfold number, Vf.
  rewrite mul_spec, div_spec, sub_spec.
  rewrite div_spec, sub_spec in Vc. rewrite sub_spec in Vd.
  rewrite El, Ep in *.
  assert (Prim2SF 100 = S754_finite false 7036874417766400 (-46)) as E100 by reflexivity.
  rewrite E100.
  unfold SF64mul, SF64div, SF64sub in *.
  destruct (Z.eq_dec (V (S754_finite false ml el)) (V (S754_finite false mp ep))) as [Heq|Hne].
  - (* equal rates: the difference is a zero *)
    destruct (SFsub_V _ _ Vl Vp eq_refl eq_refl) as [Hv Hn].
    rewrite Heq, Z.sub_diag in Hv |- *. change (RS 0) with 0 in Hv.
    assert (0 < INF) as HI by reflexivity.
    destruct (SFsub prec emax (S754_finite false ml el) (S754_finite false mp ep))
      as [sd|sd| |sd md ed]; try discriminate; cbn [V] in Hv.
    + cbn [SFdiv SFmul]. split; reflexivity.
    + destruct sd; unfold signed in Hv; lia.
    + pose proof (V_finite_pos md ed Vd). destruct sd; unfold signed in Hv; lia.
  - destruct (SFsub_shape ml mp el ep Vl Vp Vd Hne) as [md [ed [Ed Hdig]]].
    rewrite Ed in *.
    set (sd := (V (S754_finite false ml el) <? V (S754_finite false mp ep))) in *.
    assert (Z.sgn (V (S754_finite false ml el) - V (S754_finite false mp ep))
            = signed sd 1) as Hsg.
    { unfold sd. destruct (Z.ltb_spec (V (S754_finite false ml el)) (V (S754_finite false mp ep)));
        unfold signed; [rewrite Z.sgn_neg | rewrite Z.sgn_pos]; lia. }
    rewrite Hsg.
    destruct (SFdiv_sign sd md mp ed ep Vd Vp Hdig) as [Nc [W [HW Hc]]].
    assert (0 < INF) as HI by reflexivity.
    destruct (SFdiv prec emax (S754_finite sd md ed) (S754_finite false mp ep))
      as [sc|sc| |sc mc ec] eqn:Ec; try discriminate; cbn [V] in Hc.
    + destruct sd; unfold signed in Hc; lia.
    + (* the quotient overflowed *)
      assert (sc = sd) as -> by (destruct sc, sd; unfold signed in Hc; lia || reflexivity).
      cbn [SFmul V]. split; [reflexivity|].
      destruct sd; unfold signed; cbn [xorb]; [rewrite Z.sgn_neg | rewrite Z.sgn_pos]; lia.
    + pose proof (V_finite_pos mc ec Vc) as Hmc.
      assert (sc = sd) as -> by (destruct sc, sd; unfold signed in Hc; lia || reflexivity).
      destruct (SFmul_V (S754_finite sd mc ec) (S754_finite false 7036874417766400 (-46))
                  Vc ltac:(reflexivity) eq_refl eq_refl) as [Hv Hn].
      split; [exact Hn|]. rewrite Hv.
      change (V (S754_finite false 7036874417766400 (-46))) with (100 * 2 ^ scale).
      rewrite Z.mul_assoc, Z.div_mul by (apply Z.pow_nonzero; unfold scale; lia).
      destruct (valid_finite _ _ _ Vc) as [_ [Hec _]].
      assert (2 ^ 1074 <= Zpos mc * 2 ^ (ec + scale)) as Hlow.
      { apply Z.le_trans with (1 * 2 ^ (ec + scale)).
        - rewrite Z.mul_1_l. apply pow2_le. unfold scale. lia.
        - apply Z.mul_le_mono_nonneg_r; [apply Z.pow_nonneg; lia | lia]. }
      rewrite RS_sgn.
      * cbn [V]. destruct sd; unfold signed; [rewrite Z.sgn_neg | rewrite Z.sgn_pos]; lia.
      * cbn [V]. destruct sd; unfold signed; lia.
Qed.

End TrendSign.

(** ** The trend of the last two points *)

Module TrendClaims.
Import App Rounding RoundFacts SpecFacts OpFacts ArithFacts FloatFacts NumberFacts DivFacts TrendSign.

Lemma SFabs_round_aux (s : bool) (m e : Z) (l : location) :
  SFabs (binary_round_aux prec emax s m e l) = binary_round_aux prec emax false m e l.
Proof.
  unfold binary_round_aux.
  destruct (shr_fexp prec emax m e l) as [mrs' e'].
  destruct (shr_fexp prec emax _ e' loc_Exact) as [mrs'' e''].
  destruct (shr_m mrs''); try reflexivity.
  destruct (e'' <=? emax - prec); reflexivity.
Qed.

(** [Math.abs] commutes with the scaling to a percentage. *)
Lemma abs_times_hundred (x : float) :
  JsNumber.abs (x * 100)%float = (JsNumber.abs x * 100)%float.
Proof.
  unfold JsNumber.abs. apply Prim2SF_inj.
  rewrite abs_spec, !mul_spec, abs_spec.
  assert (Prim2SF 100 = S754_finite false 7036874417766400 (-46)) as -> by reflexivity.
  unfold SF64mul.
  destruct (Prim2SF x) as [s|s| |s m e]; try reflexivity.
  cbn [SFmul SFabs]. rewrite SFabs_round_aux. reflexivity.
Qed.

Lemma eqb_V (x y : float) :
  (x =? y)%float = true <-> number x = true /\ number y = true /\ Vf x = Vf y.
Proof.
  rewrite eqb_spec. unfold SFeqb, number, Vf.
  destruct (notNaN (Prim2SF x)) eqn:Nx; [destruct (notNaN (Prim2SF y)) eqn:Ny|].
  - rewrite (SFcompare_V _ _ (valid_Prim x) (valid_Prim y) Nx Ny).
    destruct (Z.compare_spec (V (Prim2SF x)) (V (Prim2SF y))); split; intros; try lia;
      try discriminate; try (repeat split; try reflexivity; lia).
  - destruct (Prim2SF y); try discriminate.
    destruct (Prim2SF x); simpl; split; try discriminate; intros [_ [? _]]; discriminate.
  - destruct (Prim2SF x); try discriminate.
    simpl; split; try discriminate. intros [? _]; discriminate.
Qed.

Lemma last_two (pre : list RatePoint) (pp pl : RatePoint) :
  (List.length (pre ++ [pp; pl]) <? 2)%nat = false /\
  rateAt (pre ++ [pp; pl]) (List.length (pre ++ [pp; pl]) - 1) = Normal (rate pl) /\
  rateAt (pre ++ [pp; pl]) (List.length (pre ++ [pp; pl]) - 2) = Normal (rate pp).
Proof.
  rewrite length_app. cbn [List.length]. unfold rateAt.
  split; [apply Nat.ltb_ge; lia|]. split.
  - rewrite nth_error_app2 by lia.
    replace (List.length pre + 2 - 1 - List.length pre)%nat with 1%nat by lia. reflexivity.
  - rewrite nth_error_app2 by lia.
    replace (List.length pre + 2 - 2 - List.length pre)%nat with 0%nat by lia. reflexivity.
Qed.

(** C3: for a history whose last two rates are positive (and finite),
    [calculateTrend] returns ["up"] exactly when the last rate exceeds the
    one before, ["down"] exactly when it is less and ["neutral"] exactly
    when they are equal; its percentage is [abs((last - prev) / prev) * 100]
    written with two decimals by [toFixed(2)].  For the rates [1.0] then
    [1.1] that is up and ["10.00"], for [1.0] then [0.9] down and ["10.00"]. *)
Theorem trend_of_last_two (bigToString : float -> string)
    (pre : list RatePoint) (pp pl : RatePoint) :
  (finite (rate pp) = true -> (0 <? rate pp)%float = true ->
   finite (rate pl) = true -> (0 <? rate pl)%float = true ->
   exists t,
     calculateTrend bigToString (pre ++ [pp; pl]) = Normal t /\
     (trend t = "up" <-> (rate pp <? rate pl)%float = true) /\
     (trend t = "down" <-> (rate pl <? rate pp)%float = true) /\
     (trend t = "neutral" <-> (rate pl =? rate pp)%float = true) /\
     percentage t
     = JsStr (JsString.toFixed bigToString 2
                (JsNumber.abs ((rate pl - rate pp) / rate pp) * 100)%float)) /\
  (forall d1 l1 d2 l2,
     calculateTrend bigToString
       [{| date := d1; rate := 1.0; displayDate := l1 |};
        {| date := d2; rate := 1.1; displayDate := l2 |}]
     = Normal {| trend := "up"; percentage := JsStr "10.00" |}) /\
  (forall d1 l1 d2 l2,
     calculateTrend bigToString
       [{| date := d1; rate := 1.0; displayDate := l1 |};
        {| date := d2; rate := 0.9; displayDate := l2 |}]
     = Normal {| trend := "down"; percentage := JsStr "10.00" |}).
Proof.
  split; [|split; intros; reflexivity].
  intros Fp Pp Fl Pl.
  destruct (last_two pre pp pl) as [H2 [Hl Hp]].
  unfold calculateTrend. rewrite H2, Hl, Hp.
  eexists. split; [reflexivity|]. cbn [trend percentage].
  rewrite abs_times_hundred.
  destruct (change_sign (rate pl) (rate pp) Fl Pl Fp Pp) as [Nc Hs].
  set (change := ((rate pl - rate pp) / rate pp * 100)%float) in *.
  pose proof (finite_number _ Fl) as Nl. pose proof (finite_number _ Fp) as Np.
  assert ((0 <? change)%float = true <-> Vf (rate pp) < Vf (rate pl)) as Hup.
  { rewrite ltb_V. change (Vf 0) with 0. split.
    - intros [_ [_ H]]. rewrite <- Z.sgn_pos_iff in H. rewrite Hs in H.
      apply Z.sgn_pos_iff in H. lia.
    - intros H. split; [reflexivity | split; [exact Nc|]].
      apply Z.sgn_pos_iff. rewrite Hs. apply Z.sgn_pos_iff. lia. }
  assert ((change <? 0)%float = true <-> Vf (rate pl) < Vf (rate pp)) as Hdown.
  { rewrite ltb_V. change (Vf 0) with 0. split.
    - intros [_ [_ H]]. rewrite <- Z.sgn_neg_iff in H. rewrite Hs in H.
      apply Z.sgn_neg_iff in H. lia.
    - intros H. split; [exact Nc | split; [reflexivity|]].
      apply Z.sgn_neg_iff. rewrite Hs. apply Z.sgn_neg_iff. lia. }
  rewrite !ltb_V, eqb_V.
  assert (forall (A : Prop) (u v : string), u <> v -> ~ A -> (u = v <-> A)) as Hno
    by (intros A u v Hne Hn; split; [intros; contradiction | intros; contradiction]).
  assert (forall (A : Prop) (u : string), A -> (u = u <-> A)) as Hyes
    by (intros A u HA; split; [intros _; exact HA | reflexivity]).
  destruct (0 <? change)%float eqn:E1; [|destruct (change <? 0)%float eqn:E2].
  - pose proof (proj1 Hup eq_refl) as H.
    split; [apply Hyes; auto|].
    split; [apply Hno; [discriminate | intros [_ [_ ?]]; lia]|].
    split; [apply Hno; [discriminate | intros [_ [_ ?]]; lia]|]. reflexivity.
  - pose proof (proj1 Hdown eq_refl) as H.
    split; [apply Hno; [discriminate | intros [_ [_ ?]]; lia]|].
    split; [apply Hyes; auto|].
    split; [apply Hno; [discriminate | intros [_ [_ ?]]; lia]|]. reflexivity.
  - assert (Vf (rate pl) = Vf (rate pp)) as He.
    { destruct (Z.lt_trichotomy (Vf (rate pl)) (Vf (rate pp))) as [H|[H|H]]; [|exact H|].
      - apply Hdown in H. discriminate.
      - apply Hup in H. discriminate. }
    split; [apply Hno; [discriminate | intros [_ [_ ?]]; lia]|].
    split; [apply Hno; [discriminate | intros [_ [_ ?]]; lia]|].
    split; [apply Hyes; auto|]. reflexivity.
Qed.

Definition samplePoint (d : string) (r : float) : RatePoint :=
  {| date := d; rate := r; displayDate := d |}.

Lemma trend_of_last_two_witness :
  exists t,
    calculateTrend SampleHost.sampleBig
      ([samplePoint "2024-03-29" 1.2] ++ [samplePoint "2024-03-30" 1.0; samplePoint "2024-03-31" 1.1])
    = Normal t /\
    (trend t = "up" <-> (1.0 <? 1.1)%float = true) /\
    (trend t = "down" <-> (1.1 <? 1.0)%float = true) /\
    (trend t = "neutral" <-> (1.1 =? 1.0)%float = true) /\
    percentage t
    = JsStr (JsString.toFixed SampleHost.sampleBig 2
               (JsNumber.abs ((1.1 - 1.0) / 1.0) * 100)%float).
Proof.
  apply (proj1 (trend_of_last_two SampleHost.sampleBig [samplePoint "2024-03-29" 1.2]
                  (samplePoint "2024-03-30" 1.0) (samplePoint "2024-03-31" 1.1)));
    reflexivity.
Defined.

End TrendClaims.

(** * The rest of the component

    Properties of the currency table, the amount field, the effects and the
    texts that the component shows. *)

(** ** The currency symbols *)

Module SymbolFacts.
Import Ui.

Lemma find_code (s : string) (l : list Currency) :
  NoDup (map code l) ->
  forall c, In c l -> code c = s ->
  List.find (fun c => String.eqb (code c) s) l = Some c.
Proof.
  induction l as [|x l IH]; intros Hnd c Hin Hc; [contradiction|].
  cbn [List.find]. cbn [map] in Hnd. inversion Hnd as [|? ? Hx Hl]; subst.
  destruct Hin as [->|Hin].
  - rewrite String.eqb_refl. reflexivity.
  - destruct (String.eqb_spec (code x) (code c)) as [E|_].
    + exfalso. apply Hx. rewrite E. now apply in_map.
    + now apply IH.
Qed.

Lemma find_none (s : string) (l : list Currency) :
  (forall c, In c l -> code c <> s) ->
  List.find (fun c => String.eqb (code c) s) l = None.
Proof.
  induction l as [|x l IH]; intros H; [reflexivity|].
  cbn [List.find]. destruct (String.eqb_spec (code x) s) as [E|_].
  - exfalso. apply (H x); [now left | exact E].
  - apply IH. intros c Hc. apply H. now right.
Qed.

Lemma codes_NoDup : NoDup (map code currencies).
Proof.
  cbn. repeat (constructor; [cbn; intuition discriminate|]). constructor.
Qed.

Lemma symbols_not_empty (c : Currency) : In c currencies -> symbol c <> "".
Proof.
  cbn. intros H. repeat (destruct H as [<-|H]; [discriminate|]). contradiction.
Qed.

(** X1: the symbol of a listed currency is the one the table gives it, and
    a code that is not in the table is its own symbol.  The codes of the
    table, which are the keys and the values of the options, are pairwise
    distinct, so the first entry with a code is the only one. *)
Theorem symbol_lookup (s : string) :
  (forall c, In c currencies -> code c = s -> getCurrentSymbol s = symbol c) /\
  ((forall c, In c currencies -> code c <> s) -> getCurrentSymbol s = s) /\
  NoDup (map code currencies).
Proof.
  split; [|split].
  - intros c Hin Hc. unfold getCurrentSymbol.
    rewrite (find_code s currencies codes_NoDup c Hin Hc).
    destruct (String.eqb_spec (symbol c) "") as [E|_]; [|reflexivity].
    now apply symbols_not_empty in E.
  - intros H. unfold getCurrentSymbol. now rewrite find_none.
  - exact codes_NoDup.
Qed.

Lemma symbol_lookup_witness :
  getCurrentSymbol "EUR" = "€" /\ getCurrentSymbol "SEK" = "SEK".
Proof.
  split.
  - apply (proj1 (symbol_lookup "EUR") {| code := "EUR"; name := "Euro"; symbol := "€" |});
      [cbn; tauto | reflexivity].
  - apply (proj1 (proj2 (symbol_lookup "SEK"))).
    cbn. intros c H. repeat (destruct H as [<-|H]; [discriminate|]). contradiction.
Defined.

Lemma symbol_cases (s : string) :
  getCurrentSymbol s = s \/
  exists c, In c currencies /\ code c = s /\ getCurrentSymbol s = symbol c.
Proof.
  unfold getCurrentSymbol.
  destruct (List.find (fun c => String.eqb (code c) s) currencies) as [c|] eqn:E; [|now left].
  apply find_some in E. destruct E as [Hin Hc]. apply String.eqb_eq in Hc.
  destruct (String.eqb (symbol c) ""); [now left|].
  right. exists c. auto.
Qed.

(** X2: the symbol shown for a non-empty code is never empty; a symbol is not
    itself a code, so looking a symbol up gives it back; and the symbol does
    not tell the currency: the yen and the yuan share theirs. *)
Theorem symbol_never_blank (s : string) :
  (s <> "" -> getCurrentSymbol s <> "") /\
  getCurrentSymbol (getCurrentSymbol s) = getCurrentSymbol s /\
  getCurrentSymbol "JPY" = getCurrentSymbol "CNY".
Proof.
  split; [|split; [|reflexivity]].
  - intros Hs. destruct (symbol_cases s) as [->|[c [Hin [_ ->]]]]; [exact Hs|].
    now apply symbols_not_empty.
  - destruct (symbol_cases s) as [E|[c [Hin [_ E]]]]; rewrite E; [exact E|].
    revert Hin. cbn. intros H.
    repeat (destruct H as [<-|H]; [reflexivity|]). contradiction.
Qed.

Lemma symbol_never_blank_witness :
  "XAU" <> "" /\ getCurrentSymbol "XAU" <> "".
Proof.
  split; [discriminate|]. apply (proj1 (symbol_never_blank "XAU")). discriminate.
Defined.

End SymbolFacts.

(** ** The band of the generated rates *)

Module BandFacts.
Import JsDate App Rounding RoundFacts SpecFacts FloatFacts NumberFacts HistoryFacts WindowFacts
  ArgumentFacts HostFacts FixedFacts HistoryRates.

(** The smallest value of the sum before the clamp. *)
Definition rateBottom : float := (0.85 + (-1 + 0 - 0.5) * 0.05)%float.

(** The rate before the clamp and the rounding. *)
Definition rawRate (sin : float -> float) (base : float) (i : Z) (u : float) : float :=
  (base + (sin (JsNumber.ofZ i * 0.1) + u - 0.5) * 0.05)%float.

Lemma raw_within (s base u : float) :
  within (-1) 1 s -> within 0.85 1.15 base -> within 0 0x1.fffffffffffffp-1 u ->
  within rateBottom rateCeiling (base + (s + u - 0.5) * 0.05)%float.
Proof.
  intros Hs Hb Hu.
  assert (within (-1 + 0) (1 + 0x1.fffffffffffffp-1) (s + u)) as H1
    by (apply within_add; try reflexivity; assumption).
  assert (within (-1 + 0 - 0.5) (1 + 0x1.fffffffffffffp-1 - 0.5) (s + u - 0.5)) as H2.
  { apply (within_sub _ _ 0.5 0.5); try reflexivity; [exact H1 | split; reflexivity]. }
  assert (within ((-1 + 0 - 0.5) * 0.05) ((1 + 0x1.fffffffffffffp-1 - 0.5) * 0.05)
            ((s + u - 0.5) * 0.05)) as H3
    by (apply within_mul_r; try reflexivity; exact H2).
  apply within_add; try reflexivity; assumption.
Qed.

Lemma baseRate_within (r : float) :
  (0 <=? r)%float = true -> (r <? 1)%float = true -> within 0.85 1.15 (baseRate r).
Proof.
  intros H0 H1. unfold baseRate.
  apply (within_add 0.85 0.85 (0 * 0.3) (0x1.fffffffffffffp-1 * 0.3)); try reflexivity.
  - split; reflexivity.
  - apply within_mul_r; try reflexivity. now apply draw_within.
Qed.

(** [Math.max(0.1, x)] is [x] from [rateBottom] on. *)
Lemma max_above (x : float) :
  (rateBottom <=? x)%float = true -> JsNumber.max 0.1 x = x.
Proof.
  intros H. unfold JsNumber.max.
  rewrite !isNaN_number, (leb_number_r _ _ H). cbn [negb orb].
  assert ((0.1 <? x)%float = true) as ->; [|reflexivity].
  apply ltb_V. apply leb_V in H. destruct H as [_ [Nx H]].
  split; [reflexivity | split; [exact Nx|]].
  eapply Z.lt_le_trans; [|exact H]. now vm_compute.
Qed.

(** The integer whose digits [toFixed(f)] writes for a positive Number
    below [10^21]. *)
Definition fixedDigits (f : nat) (x : float) : option Z :=
  match Prim2SF x with
  | S754_finite false m e =>
      if JsNumber.atLeast1e21 m e then None else Some (JsNumber.scaledHalfUp f m e)
  | _ => None
  end.

Lemma toFixed_digits (bigToString : float -> string) (f : nat) (x : float) (n : Z) :
  fixedDigits f x = Some n -> JsString.toFixed bigToString f x = Decimal.fixedString f n.
Proof.
  unfold fixedDigits, JsString.toFixed.
  destruct (Prim2SF x) as [s|s| |s m e]; try discriminate.
  destruct s; [discriminate|].
  destruct (JsNumber.atLeast1e21 m e); [discriminate|].
  now intros [= <-].
Qed.

Definition inBand (n : Z) : bool :=
  let r := decimal4 n in
  (0.775 <=? r)%float && (r <=? 1.2251)%float &&
  match fixedDigits 4 r with Some k => (k =? n)%Z | None => false end.

Lemma band_table : forallb inBand (zrange 7750 (Z.to_nat 4502)) = true.
Proof. vm_compute. reflexivity. Qed.

Lemma band_spec (n : Z) :
  7750 <= n <= 12251 ->
  (0.775 <=? decimal4 n)%float = true /\ (decimal4 n <=? 1.2251)%float = true /\
  fixedDigits 4 (decimal4 n) = Some n.
Proof.
  intros Hn.
  pose proof (proj1 (forallb_forall _ _) band_table n) as H.
  assert (In n (zrange 7750 (Z.to_nat 4502))) as Hin by (apply zrange_In; lia).
  specialize (H Hin). unfold inBand in H.
  apply andb_true_iff in H. destruct H as [H H3].
  apply andb_true_iff in H. destruct H as [H1 H2].
  repeat split; try assumption.
  destruct (fixedDigits 4 (decimal4 n)) as [k'|]; [|discriminate].
  apply Z.eqb_eq in H3. now subst.
Qed.

(** Rounding a Number of the band to four decimals. *)
Lemma round4_band (bigToString : float -> string) (v : float) :
  within rateBottom rateCeiling v ->
  exists n, 7750 <= n <= 12251 /\
            JsString.parseFloat (JsString.toFixed bigToString 4 v) = decimal4 n.
Proof.
  intros [Hlo Hhi].
  rewrite toFixed_positive.
  - apply leb_V in Hlo, Hhi.
    assert (7750 <= scaledOf 4 (Vf v) <= 12251) as Hn.
    { split.
      - apply Z.le_trans with (scaledOf 4 (Vf rateBottom)); [now vm_compute|].
        apply scaledOf_mono. tauto.
      - apply Z.le_trans with (scaledOf 4 (Vf rateCeiling)); [|now vm_compute].
        apply scaledOf_mono. tauto. }
    exists (scaledOf 4 (Vf v)). split; [exact Hn|].
    apply fixed4_reads_back. lia.
  - apply ltb_V. apply leb_V in Hlo. destruct Hlo as [_ [Nv Hlo]].
    split; [reflexivity | split; [exact Nv|]].
    eapply Z.lt_le_trans; [|exact Hlo]. now vm_compute.
  - apply (leb_ltb_trans _ _ _ Hhi). reflexivity.
Qed.

Lemma generate_points (sin : float -> float) (rand : nat -> float) (tz : TimeZone)
    (bigToString : float -> string) (now days : Z) (k : nat) (l : list RatePoint) (k' : nat) :
  generateMockHistoricalData sin rand tz bigToString now days k = Normal (l, k') ->
  pointsFrom sin rand tz bigToString (TimeClip now) (baseRate (rand k))
    (Z.to_nat (days + 1)) (S k) = Some l.
Proof.
  rewrite generate_spec.
  destruct (pointsFrom _ _ _ _ _ _ _ _) as [l'|]; [|discriminate].
  now intros [= <- _].
Qed.

Lemma raw_in_band (sin : float -> float) (rand : nat -> float) (k : nat) (i : Z) (j : nat) :
  sineLike sin -> unitSource rand -> 0 <= i <= 2 ^ 53 ->
  within rateBottom rateCeiling (rawRate sin (baseRate (rand k)) i (rand j)).
Proof.
  intros Hsin Hrand Hi. unfold rawRate.
  destruct (Hrand k) as [Hr0 Hr1]. destruct (Hrand j) as [Hu0 Hu1].
  apply raw_within.
  - apply Hsin. now apply sine_argument_finite.
  - now apply baseRate_within.
  - now apply draw_within.
Qed.

(** The rate of the point for a valid offset [i]. *)
Lemma rateAt_band (sin : float -> float) (rand : nat -> float) (bigToString : float -> string)
    (k : nat) (i : Z) (j : nat) :
  sineLike sin -> unitSource rand -> 0 <= i <= 2 ^ 53 ->
  HistoryFacts.rateAt sin bigToString (baseRate (rand k)) i (rand j)
  = JsString.parseFloat (JsString.toFixed bigToString 4 (rawRate sin (baseRate (rand k)) i (rand j)))
  /\ exists n, 7750 <= n <= 12251 /\
       HistoryFacts.rateAt sin bigToString (baseRate (rand k)) i (rand j) = decimal4 n.
Proof.
  intros Hs Hr Hi. pose proof (raw_in_band sin rand k i j Hs Hr Hi) as Hw.
  unfold HistoryFacts.rateAt. fold (rawRate sin (baseRate (rand k)) i (rand j)).
  rewrite max_above by apply Hw. split; [reflexivity|].
  now apply round4_band.
Qed.

(** X10: every rate of a generated history lies between [0.775] and [1.2251]:
    the base rate is at least [0.85] and the fluctuation at least [-0.075],
    so the floor of [0.1] is far below every rate. *)
Theorem rates_within_band
    (sin : float -> float) (rand : nat -> float) (tz : TimeZone)
    (bigToString : float -> string) (now days : Z) (k : nat) :
  sineLike sin -> unitSource rand -> boundedZone tz ->
  forall l k',
    generateMockHistoricalData sin rand tz bigToString now days k = Normal (l, k') ->
    forall p, In p l ->
      (0.775 <=? rate p)%float = true /\ (rate p <=? 1.2251)%float = true.
Proof.
  intros Hs Hr Hz l k' Hg p Hin.
  apply generate_points in Hg.
  destruct (pointsFrom_In _ _ _ _ _ _ _ _ _ _ Hg Hin) as [m [j [t [Hm [Hd ->]]]]].
  cbn [rate pointAt].
  pose proof (valid_offset_bound tz now (Z.of_nat m) t Hz ltac:(lia) Hd) as Hb.
  destruct (rateAt_band sin rand bigToString k (Z.of_nat m) j Hs Hr ltac:(lia)) as [_ [n [Hn ->]]].
  destruct (band_spec n Hn) as [H1 [H2 _]]. split; assumption.
Qed.

Lemma rates_within_band_witness :
  exists l k',
    generateMockHistoricalData SampleHost.sampleSin SampleHost.sampleRand SampleHost.utc
      SampleHost.sampleBig SampleHost.sampleNow 7 0%nat = Normal (l, k') /\
    l <> [] /\
    forall p, In p l ->
      (0.775 <=? rate p)%float = true /\ (rate p <=? 1.2251)%float = true.
Proof.
  destruct (generate_in_range SampleHost.sampleSin SampleHost.sampleRand SampleHost.utc
              SampleHost.sampleBig SampleHost.sampleNow 7 0%nat ltac:(lia)
              (PeriodFacts.sample_window 7 ltac:(lia))) as [l [Hg [_ Hlen]]].
  exists l, (0 + Z.to_nat (7 + 2))%nat.
  split; [exact Hg | split; [intros ->; simpl in Hlen; lia|]].
  apply (rates_within_band SampleHost.sampleSin SampleHost.sampleRand SampleHost.utc
           SampleHost.sampleBig SampleHost.sampleNow 7 0%nat
           sampleSin_sine sampleRand_unit (boundedZone_fixed 0 ltac:(reflexivity)) l _ Hg).
Defined.

(** X11: the clamp [Math.max(0.1, .)] never changes a rate: the point at index
    [j] of a generated history, built for the offset [i = days - j] with the
    draw that follows the one for the base rate by [j + 1], carries the sum
    [baseRate + fluctuation] itself, rounded to four decimals. *)
Theorem floor_never_binds
    (sin : float -> float) (rand : nat -> float) (tz : TimeZone)
    (bigToString : float -> string) (now days : Z) (k : nat) :
  sineLike sin -> unitSource rand -> boundedZone tz ->
  forall l k',
    generateMockHistoricalData sin rand tz bigToString now days k = Normal (l, k') ->
    forall j p, nth_error l j = Some p ->
      let raw := rawRate sin (baseRate (rand k)) (days - Z.of_nat j) (rand (S k + j)%nat) in
      JsNumber.max 0.1 raw = raw /\
      rate p = JsString.parseFloat (JsString.toFixed bigToString 4 raw).
Proof.
  intros Hs Hr Hz l k' Hg j p Hj.
  apply generate_points in Hg.
  assert (j < Z.to_nat (days + 1))%nat as Hlt.
  { rewrite <- (pointsFrom_length _ _ _ _ _ _ _ _ _ Hg). apply nth_error_Some. congruence. }
  destruct (pointsFrom_nth _ _ _ _ _ _ _ _ _ j Hg Hlt) as [t [Ht Hn]].
  rewrite Hj in Hn. injection Hn as ->.
  replace (Z.of_nat (Z.to_nat (days + 1) - 1 - j)) with (days - Z.of_nat j) in * by lia.
  pose proof (valid_offset_bound tz now (days - Z.of_nat j) t Hz ltac:(lia) Ht) as Hb.
  pose proof (raw_in_band sin rand k (days - Z.of_nat j) (S k + j) Hs Hr ltac:(lia)) as Hw.
  cbv zeta. rewrite max_above by apply Hw. split; [reflexivity|].
  cbn [rate pointAt].
  apply (rateAt_band sin rand bigToString k (days - Z.of_nat j) (S k + j) Hs Hr). lia.
Qed.

Lemma floor_never_binds_witness :
  exists l k' p,
    generateMockHistoricalData SampleHost.sampleSin SampleHost.sampleRand SampleHost.utc
      SampleHost.sampleBig SampleHost.sampleNow 7 0%nat = Normal (l, k') /\
    nth_error l 0 = Some p /\
    let raw := rawRate SampleHost.sampleSin (baseRate (SampleHost.sampleRand 0))
                 (7 - Z.of_nat 0) (SampleHost.sampleRand (1 + 0)%nat) in
    JsNumber.max 0.1 raw = raw /\
    rate p = JsString.parseFloat (JsString.toFixed SampleHost.sampleBig 4 raw).
Proof.
  destruct (generate_in_range SampleHost.sampleSin SampleHost.sampleRand SampleHost.utc
              SampleHost.sampleBig SampleHost.sampleNow 7 0%nat ltac:(lia)
              (PeriodFacts.sample_window 7 ltac:(lia))) as [l [Hg [_ Hlen]]].
  destruct l as [|p l]; [simpl in Hlen; lia|].
  exists (p :: l), (0 + Z.to_nat (7 + 2))%nat, p.
  split; [exact Hg | split; [reflexivity|]].
  apply (floor_never_binds SampleHost.sampleSin SampleHost.sampleRand SampleHost.utc
           SampleHost.sampleBig SampleHost.sampleNow 7 0%nat
           sampleSin_sine sampleRand_unit (boundedZone_fixed 0 ltac:(reflexivity))
           (p :: l) _ Hg 0%nat p eq_refl).
Defined.

(** X12: what the tooltip prints for a rate of a generated history is the rate
    itself: [toFixed(4)] writes the four decimals the rate was rounded to,
    and reading the text back gives the same Number. *)
Theorem tooltip_shows_rate
    (sin : float -> float) (rand : nat -> float) (tz : TimeZone)
    (bigToString : float -> string) (now days : Z) (k : nat) :
  sineLike sin -> unitSource rand -> boundedZone tz ->
  forall l k',
    generateMockHistoricalData sin rand tz bigToString now days k = Normal (l, k') ->
    forall p, In p l ->
      exists n, 7750 <= n <= 12251 /\
        Ui.formatter bigToString (rate p) = (Decimal.fixedString 4 n, "Exchange Rate") /\
        JsString.parseFloat (fst (Ui.formatter bigToString (rate p))) = rate p.
Proof.
  intros Hs Hr Hz l k' Hg p Hin.
  apply generate_points in Hg.
  destruct (pointsFrom_In _ _ _ _ _ _ _ _ _ _ Hg Hin) as [m [j [t [Hm [Hd ->]]]]].
  cbn [rate pointAt].
  pose proof (valid_offset_bound tz now (Z.of_nat m) t Hz ltac:(lia) Hd) as Hb.
  destruct (rateAt_band sin rand bigToString k (Z.of_nat m) j Hs Hr ltac:(lia)) as [_ [n [Hn ->]]].
  destruct (band_spec n Hn) as [H1 [H2 H3]].
  exists n. split; [exact Hn|].
  pose proof (toFixed_digits bigToString 4 _ n H3) as Ht.
  unfold Ui.formatter. cbn [fst]. rewrite Ht. split; [reflexivity|].
  apply fixed4_reads_back. lia.
Qed.

Lemma tooltip_shows_rate_witness :
  exists l k',
    generateMockHistoricalData SampleHost.sampleSin SampleHost.sampleRand SampleHost.utc
      SampleHost.sampleBig SampleHost.sampleNow 7 0%nat = Normal (l, k') /\
    l <> [] /\
    forall p, In p l ->
      exists n, 7750 <= n <= 12251 /\
        Ui.formatter SampleHost.sampleBig (rate p) = (Decimal.fixedString 4 n, "Exchange Rate") /\
        JsString.parseFloat (fst (Ui.formatter SampleHost.sampleBig (rate p))) = rate p.
Proof.
  destruct (generate_in_range SampleHost.sampleSin SampleHost.sampleRand SampleHost.utc
              SampleHost.sampleBig SampleHost.sampleNow 7 0%nat ltac:(lia)
              (PeriodFacts.sample_window 7 ltac:(lia))) as [l [Hg [_ Hlen]]].
  exists l, (0 + Z.to_nat (7 + 2))%nat.
  split; [exact Hg | split; [intros ->; simpl in Hlen; lia|]].
  apply (tooltip_shows_rate SampleHost.sampleSin SampleHost.sampleRand SampleHost.utc
           SampleHost.sampleBig SampleHost.sampleNow 7 0%nat
           sampleSin_sine sampleRand_unit (boundedZone_fixed 0 ltac:(reflexivity)) l _ Hg).
Defined.

End BandFacts.

(** ** Truthy Numbers, the rate line and the amount field *)

Module TruthFacts.
Import Rounding RoundFacts SpecFacts OpFacts FloatFacts NumberFacts.

Lemma is_zero_V (x : float) : PrimFloat.is_zero x = true -> Vf x = 0.
Proof.
  unfold PrimFloat.is_zero. intros H. apply TrendClaims.eqb_V in H.
  destruct H as [_ [_ H]]. exact H.
Qed.

(** A Number that is not zero and not NaN is truthy. *)
Lemma truthy_nonzero (x : float) : number x = true -> Vf x <> 0 -> JsNumber.truthy x = true.
Proof.
  intros Nx Hx. unfold JsNumber.truthy.
  rewrite isNaN_number, Nx. cbn [negb orb].
  destruct (PrimFloat.is_zero x) eqn:E; [|reflexivity].
  apply is_zero_V in E. contradiction.
Qed.

Lemma truthy_above (lo x : float) :
  (0 <? lo)%float = true -> (lo <=? x)%float = true -> JsNumber.truthy x = true.
Proof.
  intros H0 H. apply ltb_V in H0. apply leb_V in H.
  change (Vf 0) with 0 in H0.
  apply truthy_nonzero; [tauto | lia].
Qed.

End TruthFacts.

Module RateLineFacts.
Import App Ui Rounding RoundFacts SpecFacts FloatFacts NumberFacts FixedFacts RateFacts TruthFacts.

Lemma mock_digits (bigToString : float -> string) (r : float) :
  within 0.5 0x1.fffffffffffffp+0 r ->
  exists n, 5000 <= n <= 20000 /\
    JsString.toFixed bigToString 4 r = Decimal.fixedString 4 n.
Proof.
  intros [Hlo Hhi].
  rewrite toFixed_positive.
  - apply leb_V in Hlo, Hhi.
    exists (scaledOf 4 (Vf r)). split; [|reflexivity]. split.
    + apply Z.le_trans with (scaledOf 4 (Vf 0.5)); [now vm_compute|].
      apply scaledOf_mono. tauto.
    + apply Z.le_trans with (scaledOf 4 (Vf 0x1.fffffffffffffp+0)); [|now vm_compute].
      apply scaledOf_mono. tauto.
  - apply ltb_V. apply leb_V in Hlo. destruct Hlo as [_ [Nv Hlo]].
    split; [reflexivity | split; [exact Nv|]].
    eapply Z.lt_le_trans; [|exact Hlo]. now vm_compute.
  - apply (leb_ltb_trans _ _ _ Hhi). reflexivity.
Qed.

(** X9: after a fetch the line under the result is shown and reads
    [1 FROM = d.dddd TO], with a rate text from ["0.5000"] to ["2.0000"];
    the upper end is reached, by rounding, although the rate itself is
    below [2]. *)
Theorem rate_line_range (rand : nat -> float) (bigToString : float -> string)
    (now : Z) (st : State) (k : nat) :
  ((0 <=? rand k)%float = true -> (rand k <? 1)%float = true ->
   exists st' n,
     fetchExchangeRate rand now st k = Normal (st', S k) /\
     5000 <= n <= 20000 /\
     rateLine bigToString st'
     = Some ("1 " ++ fromCurrency st ++ " = " ++ Decimal.fixedString 4 n ++ " " ++ toCurrency st)) /\
  (mockRate 0x1.fffffffffffffp-1 <? 2)%float = true /\
  JsString.toFixed bigToString 4 (mockRate 0x1.fffffffffffffp-1) = "2.0000".
Proof.
  split; [|split; reflexivity].
  intros H0 H1.
  pose proof (mockRate_within (rand k) H0 H1) as Hw.
  destruct (mock_digits bigToString _ Hw) as [n [Hn Ht]].
  unfold fetchExchangeRate, fetchExchangeRate_resume, fetchExchangeRate_begin, bind, random, ret.
  eexists. exists n. split; [reflexivity|]. split; [exact Hn|].
  unfold rateLine. cbn [exchangeRate fromCurrency toCurrency].
  rewrite (truthy_above 0.5 _ eq_refl (proj1 Hw)), Ht. reflexivity.
Qed.

Lemma rate_line_range_witness :
  exists st' n,
    fetchExchangeRate SampleHost.sampleRand SampleHost.sampleNow initialState 0%nat
    = Normal (st', 1%nat) /\
    5000 <= n <= 20000 /\
    rateLine SampleHost.sampleBig st'
    = Some ("1 " ++ "USD" ++ " = " ++ Decimal.fixedString 4 n ++ " " ++ "EUR").
Proof.
  apply (proj1 (rate_line_range SampleHost.sampleRand SampleHost.sampleBig SampleHost.sampleNow
                  initialState 0%nat)); reflexivity.
Defined.

End RateLineFacts.

Module AmountFacts.
Import App Ui Decimal DecimalFacts Rounding RoundFacts SpecFacts OpFacts FloatFacts NumberFacts TruthFacts.

(** A character that can begin a number: a digit, a sign, the point, or the
    [I] of [Infinity]. *)
Definition startsNumber (c : ascii) : bool :=
  isDigit c || Ascii.eqb c "+" || Ascii.eqb c "-" || Ascii.eqb c "." || Ascii.eqb c "I".

Lemma parseFloat_empty (value : string) :
  JsString.trimStart value = "" -> PrimFloat.is_nan (JsString.parseFloat value) = true.
Proof. intros H. unfold JsString.parseFloat. rewrite H. reflexivity. Qed.

Lemma parseFloat_other (value : string) (c : ascii) (rest : string) :
  JsString.trimStart value = String c rest -> startsNumber c = false ->
  PrimFloat.is_nan (JsString.parseFloat value) = true.
Proof.
  intros H Hc. unfold JsString.parseFloat. rewrite H. clear H.
  destruct c as [[] [] [] [] [] [] [] []]; try discriminate Hc; reflexivity.
Qed.

Lemma amount_number (value : string) (st : State) :
  number (amount (onAmountChange value st)) = true.
Proof.
  unfold onAmountChange. cbn [amount]. unfold JsNumber.truthy.
  rewrite isNaN_number.
  destruct (number (JsString.parseFloat value)) eqn:E; cbn [negb orb]; [|reflexivity].
  destruct (PrimFloat.is_zero (JsString.parseFloat value)); [reflexivity | exact E].
Qed.

(** The characters of StrWhiteSpaceChar, as the bytes of their UTF-8
    encoding. *)
Definition bytes (l : list nat) : string :=
  fold_right (fun n s => String (ascii_of_nat n) s) "" l.

Definition whiteSpaceChars : list string :=
  map bytes
    [[9]; [10]; [11]; [12]; [13]; [32]; [194; 160]; [225; 154; 128];
     [226; 128; 128]; [226; 128; 129]; [226; 128; 130]; [226; 128; 131];
     [226; 128; 132]; [226; 128; 133]; [226; 128; 134]; [226; 128; 135];
     [226; 128; 136]; [226; 128; 137]; [226; 128; 138];
     [226; 128; 168]; [226; 128; 169]; [226; 128; 175]; [226; 129; 159];
     [227; 128; 128]; [239; 187; 191]]%nat.

Lemma trimStart_white (w value : string) :
  In w whiteSpaceChars -> JsString.trimStart (w ++ value) = JsString.trimStart value.
Proof.
  unfold whiteSpaceChars. cbn [map In].
  intros H. repeat (destruct H as [<- | H]; [reflexivity|]). destruct H.
Qed.

(** At both ends of a text, for [StringToNumber]; a white-space character
    inside the text stays. *)
Lemma trim_white :
  forallb (fun w => String.eqb (JsConvert.trim (w ++ w ++ "1" ++ w ++ "2" ++ w ++ w))
                               ("1" ++ w ++ "2")) whiteSpaceChars = true.
Proof. now vm_compute. Qed.

(** X3: whatever the text of the field, the amount that is stored is a Number:
    never NaN, and never the negative zero; the other cells keep their
    values.  A text that is empty after its leading white space, or whose
    first character after it cannot begin a number, stores [0], and a
    white-space character in front of a text does not change what is
    stored. *)
Theorem amount_never_nan (value : string) (st : State) :
  let st' := onAmountChange value st in
  JsNumber.isNaN (amount st') = false /\
  (PrimFloat.is_zero (amount st') = true -> amount st' = 0%float) /\
  (fromCurrency st' = fromCurrency st /\ toCurrency st' = toCurrency st /\
   exchangeRate st' = exchangeRate st /\ convertedAmount st' = convertedAmount st /\
   loading st' = loading st /\ historicalData st' = historicalData st /\
   chartPeriod st' = chartPeriod st /\ lastUpdated st' = lastUpdated st) /\
  (JsString.trimStart value = "" -> amount st' = 0%float) /\
  (forall c rest, JsString.trimStart value = String c rest ->
     startsNumber c = false -> amount st' = 0%float) /\
  (forall w, In w whiteSpaceChars -> onAmountChange (w ++ value) st = st').
Proof.
  cbv zeta. unfold onAmountChange. cbn [amount fromCurrency toCurrency exchangeRate
    convertedAmount loading historicalData chartPeriod lastUpdated].
  split; [|split; [|split; [|split; [|split]]]].
  - pose proof (amount_number value st) as H. unfold onAmountChange in H. cbn [amount] in H.
    rewrite isNaN_number, H. reflexivity.
  - unfold JsNumber.truthy.
    destruct (JsNumber.isNaN (JsString.parseFloat value)); [reflexivity|].
    destruct (PrimFloat.is_zero (JsString.parseFloat value)) eqn:E; cbn [orb negb];
      [reflexivity | congruence].
  - repeat split.
  - intros H. apply parseFloat_empty in H. unfold JsNumber.truthy, JsNumber.isNaN.
    now rewrite H.
  - intros c rest H Hc. apply (parseFloat_other _ _ _ H) in Hc.
    unfold JsNumber.truthy, JsNumber.isNaN. now rewrite Hc.
  - intros w Hw.
    assert (JsString.parseFloat (w ++ value) = JsString.parseFloat value) as ->;
      [|reflexivity].
    unfold JsString.parseFloat. now rewrite (trimStart_white w value Hw).
Qed.

(** The second text is U+00A0 and [abc], the third is U+00A0 and [12.5]. *)
Lemma amount_never_nan_witness :
  amount (onAmountChange "   " initialState) = 0%float /\
  amount (onAmountChange (bytes [194; 160]%nat ++ "abc") initialState) = 0%float /\
  onAmountChange (bytes [194; 160]%nat ++ "12.5") initialState
  = onAmountChange "12.5" initialState.
Proof.
  split; [|split].
  - apply (amount_never_nan "   " initialState). reflexivity.
  - apply (proj1 (proj2 (proj2 (proj2 (proj2
             (amount_never_nan (bytes [194; 160]%nat ++ "abc") initialState)))))
             "a"%char "bc"); reflexivity.
  - apply (proj2 (proj2 (proj2 (proj2 (proj2 (amount_never_nan "12.5" initialState)))))).
    do 6 right. left. reflexivity.
Defined.

End AmountFacts.

(** ** Integers typed into the amount field *)

Module ValidFacts.
Import Rounding ShiftFacts RoundFacts SpecFacts OpFacts.

Lemma valid_canonical (s : bool) (m : positive) (e : Z) :
  fexp64 (Zdigits2 (Zpos m) + e) = e -> e <= 971 -> valid (S754_finite s m e).
Proof.
  intros Hc He. unfold valid, valid_binary, bounded, canonical_mantissa.
  change (Zpos (digits2_pos m)) with (Zdigits2 (Zpos m)).
  fold (fexp64 (Zdigits2 (Zpos m) + e)). rewrite Hc, Z.eqb_refl.
  change (emax - prec) with 971. cbn [andb]. now apply Z.leb_le.
Qed.

(** What [binary_round_aux] builds is a valid number. *)
Lemma finish_valid (s : bool) (q E : Z) :
  0 <= q <= 2 ^ 53 -> -1074 <= E -> (-1074 < E -> 2 ^ 52 <= q) ->
  valid (finish s q E).
Proof.
  intros Hq HE Hn. unfold finish. destruct q as [|p|p]; [reflexivity | | lia].
  destruct (Z.eqb_spec (Zpos p) (2 ^ 53)) as [Hp|Hp].
  - destruct (Z.leb_spec (E + 1) 971) as [Hle|Hgt]; [|reflexivity].
    apply valid_canonical; [|exact Hle]. rewrite fexp64_eq.
    change (Zdigits2 (Zpos (Z.to_pos (2 ^ 52)))) with 53. lia.
  - destruct (Z.leb_spec E 971) as [Hle|Hgt]; [|reflexivity].
    apply valid_canonical; [|exact Hle]. rewrite fexp64_eq, Zdigits2_log2.
    pose proof (Z.log2_nonneg (Zpos p)) as Hl.
    assert (Z.log2 (Zpos p) < 53) as Hu by (apply Z.log2_lt_pow2; lia).
    destruct (Z.eq_dec E (-1074)) as [->|Hne]; [lia|].
    assert (52 <= Z.log2 (Zpos p)) by (apply Z.log2_le_pow2; lia).
    lia.
Qed.

Lemma round_aux_valid (s : bool) (m : positive) (e : Z) :
  e <= fexp64 (Zdigits2 (Zpos m) + e) ->
  valid (binary_round_aux prec emax s (Zpos m) e loc_Exact).
Proof.
  intros Hn. rewrite round_aux_shape by lia.
  set (E := fexp64 (Zdigits2 (Zpos m) + e)) in *.
  set (n := E - e) in *.
  assert (-1074 <= E) as HE by (unfold E; rewrite fexp64_eq; lia).
  assert (0 <= Zpos m / 2 ^ n < 2 ^ 53) as Hq.
  { apply quotient_bound; [lia|]. unfold n, E. rewrite fexp64_eq. lia. }
  apply finish_valid; [destruct (roundUp _ _ _); lia | exact HE |].
  intros HE'.
  assert (2 ^ 52 <= Zpos m / 2 ^ n).
  { apply quotient_normal; [lia|]. unfold n, E in *. rewrite fexp64_eq in *. lia. }
  destruct (roundUp _ _ _); lia.
Qed.

Lemma round_valid (s : bool) (m : positive) (e : Z) : valid (binary_round prec emax s m e).
Proof.
  unfold binary_round.
  change (Zpos (digits2_pos m)) with (Zdigits2 (Zpos m)).
  fold (fexp64 (Zdigits2 (Zpos m) + e)).
  set (E := fexp64 (Zdigits2 (Zpos m) + e)).
  destruct (Z.le_gt_cases e E) as [Hle|Hgt].
  - rewrite shl_align_up by lia. now apply round_aux_valid.
  - destruct (shl_align_down m e E ltac:(lia)) as [-> _].
    assert (0 < 2 ^ (e - E)) as HP by (apply pow2_pos; lia).
    assert (Zpos (Z.to_pos (Zpos m * 2 ^ (e - E))) = Zpos m * 2 ^ (e - E)) as Hm'
      by (apply Z2Pos.id; lia).
    apply round_aux_valid.
    assert (Zdigits2 (Zpos m * 2 ^ (e - E)) = Zdigits2 (Zpos m) + (e - E)) as Hd.
    { destruct (Zpos m * 2 ^ (e - E)) as [|p|p] eqn:Ep; try lia.
      rewrite Zdigits2_log2, <- Ep, Z.log2_mul_pow2, Zdigits2_log2 by lia. lia. }
    rewrite Hm', Hd.
    replace (Zdigits2 (Zpos m) + (e - E) + E) with (Zdigits2 (Zpos m) + e) by lia.
    fold E. lia.
Qed.

Lemma normalize_valid (S e : Z) : valid (binary_normalize prec emax S e false).
Proof. destruct S; cbn [binary_normalize]; [reflexivity | apply round_valid ..]. Qed.

End ValidFacts.

Module IntegerFacts.
Import App Ui Decimal DecimalFacts Rounding RoundFacts SpecFacts OpFacts FloatFacts NumberFacts
  TruthFacts ValidFacts.

Fixpoint allDigits (s : string) : bool :=
  match s with
  | EmptyString => true
  | String c s' => isDigit c && allDigits s'
  end.

Lemma spanDigits_all (s : string) :
  allDigits s = true ->
  forall acc len, spanDigits s acc len = (strVal s acc, (len + String.length s)%nat, "").
Proof.
  induction s as [|c s IH]; intros H acc len; cbn [spanDigits strVal String.length].
  - now rewrite Nat.add_0_r.
  - cbn [allDigits] in H. apply andb_true_iff in H. destruct H as [Hc Hs].
    rewrite Hc, IH by exact Hs. do 2 f_equal. lia.
Qed.

Lemma isDigit_digitChar (d : Z) : 0 <= d <= 9 -> isDigit (digitChar d) = true.
Proof.
  intros H. assert (d = 0 \/ d = 1 \/ d = 2 \/ d = 3 \/ d = 4 \/ d = 5 \/ d = 6 \/ d = 7
                    \/ d = 8 \/ d = 9) as Hd by lia.
  repeat (destruct Hd as [->|Hd]; [reflexivity|]). now subst.
Qed.

Lemma digitsFuel_all (fuel : nat) :
  forall n acc, 0 <= n -> allDigits acc = true -> allDigits (digitsFuel fuel n acc) = true.
Proof.
  induction fuel as [|f IH]; intros n acc Hn Ha; cbn [digitsFuel]; [exact Ha|].
  pose proof (Z.mod_pos_bound n 10 ltac:(lia)) as Hm.
  assert (allDigits (String (digitChar (n mod 10)) acc) = true) as Ha'.
  { cbn [allDigits]. rewrite isDigit_digitChar by lia. exact Ha. }
  destruct (n <? 10); [exact Ha'|].
  apply IH; [apply Z.div_pos; lia | exact Ha'].
Qed.

Lemma digits_all (n : Z) : 0 <= n -> allDigits (digits n) = true.
Proof. intros Hn. unfold digits. now apply digitsFuel_all. Qed.

Lemma digitsFuel_length (fuel : nat) :
  forall n acc, (String.length acc <= String.length (digitsFuel fuel n acc))%nat.
Proof.
  induction fuel as [|f IH]; intros n acc; cbn [digitsFuel]; [lia|].
  destruct (n <? 10); [cbn [String.length]; lia|].
  eapply Nat.le_trans; [|apply IH]. cbn [String.length]. lia.
Qed.

Lemma digits_first (n : Z) :
  0 <= n -> exists c s, digits n = String c s /\ isDigit c = true.
Proof.
  intros Hn. pose proof (digits_all n Hn) as Ha.
  assert (1 <= String.length (digits n))%nat as Hl.
  { unfold digits. cbn [digitsFuel]. destruct (n <? 10); [cbn [String.length]; lia|].
    eapply Nat.le_trans; [|apply digitsFuel_length]. cbn [String.length]. lia. }
  destruct (digits n) as [|c s]; [cbn in Hl; lia|].
  exists c, s. split; [reflexivity|].
  cbn [allDigits] in Ha. apply andb_true_iff in Ha. tauto.
Qed.

(** The text of an integer: its decimal digits, after a minus sign when it
    is negative. *)
Definition integerText (z : Z) : string :=
  (if z <? 0 then "-" else "") ++ digits (Z.abs z).

Lemma parseFloat_start (neg : bool) (c : ascii) (s : string) :
  isDigit c = true ->
  JsString.parseFloat ((if neg then "-" else "") ++ String c s)
  = let '(ip, il, s2) := spanDigits (String c s) 0 0 in
    let '(fp, fl, s3) :=
      match s2 with
      | String "." t => spanDigits t ip 0
      | _ => (ip, O, s2)
      end in
    match (il + fl)%nat with
    | O => nan
    | S _ => JsString.ofDecimal neg fp (JsString.exponentPart s3 - Z.of_nat fl)
    end.
Proof.
  intros Hc.
  destruct neg; destruct c as [[] [] [] [] [] [] [] []]; try discriminate Hc; reflexivity.
Qed.

Lemma parseFloat_digits (neg : bool) (n : Z) :
  0 <= n ->
  JsString.parseFloat ((if neg then "-" else "") ++ digits n) = JsString.ofDecimal neg n 0.
Proof.
  intros Hn. destruct (digits_first n Hn) as [c [s [E Hc]]].
  pose proof (digits_all n Hn) as Ha. pose proof (digits_value n Hn) as Hv.
  rewrite E in *. rewrite parseFloat_start by exact Hc.
  rewrite spanDigits_all by exact Ha. rewrite Hv.
  cbn [Nat.add String.length]. reflexivity.
Qed.

Lemma ofZ_normalize (z : Z) :
  JsNumber.ofZ z = SF2Prim (binary_normalize prec emax z 0 false).
Proof.
  unfold JsNumber.ofZ.
  destruct (Z.leb_spec 0 z); [|reflexivity].
  destruct (Z.ltb_spec z (2 ^ 63)); [|reflexivity]. cbn [andb].
  rewrite <- (SF2Prim_Prim2SF (of_uint63 (Uint63.of_Z z))).
  rewrite of_uint63_spec, Uint63.of_Z_spec, Z.mod_small; [reflexivity|].
  split; [lia | assumption].
Qed.

Lemma ofDecimal_integer (z : Z) :
  z <> 0 -> JsString.ofDecimal (z <? 0) (Z.abs z) 0 = JsNumber.ofZ z.
Proof.
  intros Hz. rewrite ofZ_normalize. unfold JsString.ofDecimal.
  destruct (Z.abs z) eqn:Ea; [lia|..]; rewrite <- Ea;
    change (10 ^ 0) with 1; rewrite Z.mul_1_r;
    (destruct (Z.ltb_spec z 0); do 2 f_equal; lia).
Qed.

Lemma ofZ_truthy (z : Z) : z <> 0 -> JsNumber.truthy (JsNumber.ofZ z) = true.
Proof.
  intros Hz. rewrite ofZ_normalize.
  destruct (normalize_value z 0 ltac:(unfold scale; lia)) as [Hv Hn].
  pose proof (normalize_valid z 0) as Hval.
  apply truthy_nonzero; unfold number, Vf; rewrite Prim2SF_SF2Prim by exact Hval.
  - exact Hn.
  - rewrite Hv. intros H0.
    assert (Z.sgn (RS (z * 2 ^ (0 + scale))) = Z.sgn (z * 2 ^ (0 + scale))) as Hs.
    { apply TrendSign.RS_sgn.
      assert (2 ^ 1074 <= 2 ^ (0 + scale)) by (apply pow2_le; unfold scale; lia).
      rewrite Z.abs_mul, (Z.abs_eq (2 ^ (0 + scale))) by lia.
      assert (1 <= Z.abs z) by lia. nia. }
    rewrite H0 in Hs. cbn [Z.sgn] in Hs.
    assert (0 < 2 ^ (0 + scale)) by (apply pow2_pos; unfold scale; lia).
    symmetry in Hs. apply Z.sgn_null_iff in Hs. nia.
Qed.

(** X4: typing an integer stores it: the text of any integer [z], negative
    ones included, sets the amount to the Number nearest to [z]. *)
Theorem amount_of_integer_text (z : Z) (st : State) :
  amount (onAmountChange (integerText z) st) = JsNumber.ofZ z.
Proof.
  unfold onAmountChange, integerText. cbn [amount].
  destruct (Z.eq_dec z 0) as [->|Hz]; [reflexivity|].
  replace (if z <? 0 then "-" else "") with (if (z <? 0) then "-" else "") by reflexivity.
  rewrite parseFloat_digits by lia.
  rewrite ofDecimal_integer by exact Hz.
  now rewrite ofZ_truthy.
Qed.

End IntegerFacts.

(** ** The labels of the chart *)

Module LabelFacts.
Import JsDate App Decimal DecimalFacts DateFacts HistoryFacts WindowFacts IsoFacts.

(** The label of a day number: the short month and the day of the month. *)
Definition shortDateOfDay (d : Z) : string :=
  monthShort (MonthFromTime (d * msPerDay)) ++ " " ++ digits (DateFromTime (d * msPerDay)).

Lemma short_of_Day (tz : TimeZone) (t : Z) :
  toLocaleDateString_short tz (Some t) = shortDateOfDay (Day (LocalTime tz t)).
Proof.
  unfold shortDateOfDay, toLocaleDateString_short, DateFromTime, MonthFromTime, DayWithinYear,
    InLeapYear, YearFromTime.
  rewrite Day_of_day. reflexivity.
Qed.

Lemma DayFromYear_step (y : Z) : 365 <= DayFromYear (y + 1) - DayFromYear y <= 366.
Proof.
  unfold DayFromYear.
  replace (y + 1 - 1969) with (y - 1968) by lia.
  replace (y + 1 - 1901) with (y - 1900) by lia.
  replace (y + 1 - 1601) with (y - 1600) by lia.
  replace (y + 1 - 1970) with (y - 1969) by lia.
  Z.div_mod_to_equations; lia.
Qed.

Lemma DayFromYear_grows (y k : Z) : 0 <= k -> DayFromYear y + 365 * k <= DayFromYear (y + k).
Proof.
  intros Hk. revert k Hk. apply natlike_ind.
  - replace (y + 0) with y by lia. lia.
  - intros k Hk IH. pose proof (DayFromYear_step (y + k)).
    replace (y + Z.succ k) with (y + k + 1) by lia. lia.
Qed.

Lemma monthStart_leap (l1 l2 m : Z) :
  0 <= l1 -> 0 <= l2 -> 0 <= m <= 11 -> - l1 <= monthStart l2 m - monthStart l1 m.
Proof.
  intros H1 H2 Hm.
  assert (m = 0 \/ m = 1 \/ m = 2 \/ m = 3 \/ m = 4 \/ m = 5 \/ m = 6 \/ m = 7 \/ m = 8
          \/ m = 9 \/ m = 10 \/ m = 11) as Hc by lia.
  repeat (destruct Hc as [->|Hc]; [cbn [monthStart]; lia|]). subst. cbn [monthStart]. lia.
Qed.

(** Two days with the same month and day of the month are the same day or
    lie at least 365 days apart. *)
Lemma same_month_day (a b : Z) :
  MonthFromTime (a * msPerDay) = MonthFromTime (b * msPerDay) ->
  DateFromTime (a * msPerDay) = DateFromTime (b * msPerDay) ->
  YearFromTime (a * msPerDay) <= YearFromTime (b * msPerDay) ->
  a = b \/ 365 <= b - a.
Proof.
  intros Hm Hd Hy.
  pose proof (Day_from_parts (a * msPerDay)) as Ha.
  pose proof (Day_from_parts (b * msPerDay)) as Hb.
  rewrite Day_of_day in Ha, Hb. rewrite Hm, Hd in Ha.
  pose proof (MonthFromTime_range (b * msPerDay)) as Hr.
  set (ya := YearFromTime (a * msPerDay)) in *. set (yb := YearFromTime (b * msPerDay)) in *.
  destruct (Z.eq_dec ya yb) as [E|Hne].
  - left. rewrite E in Ha. lia.
  - right.
    pose proof (DayFromYear_step ya) as Sa. pose proof (DayFromYear_step yb) as Sb.
    pose proof (DayFromYear_grows (ya + 1) (yb - ya - 1) ltac:(lia)) as Hg.
    replace (ya + 1 + (yb - ya - 1)) with yb in Hg by lia.
    pose proof (monthStart_leap (DayFromYear (ya + 1) - DayFromYear ya - 365)
                  (DayFromYear (yb + 1) - DayFromYear yb - 365)
                  (MonthFromTime (b * msPerDay)) ltac:(lia) ltac:(lia) Hr).
    lia.
Qed.

Lemma monthShort_length (m : Z) : 0 <= m <= 11 -> String.length (monthShort m) = 3%nat.
Proof.
  intros Hm.
  assert (m = 0 \/ m = 1 \/ m = 2 \/ m = 3 \/ m = 4 \/ m = 5 \/ m = 6 \/ m = 7 \/ m = 8
          \/ m = 9 \/ m = 10 \/ m = 11) as Hc by lia.
  repeat (destruct Hc as [->|Hc]; [reflexivity|]). now subst.
Qed.

Lemma monthShort_inj (m1 m2 : Z) :
  0 <= m1 <= 11 -> 0 <= m2 <= 11 -> monthShort m1 = monthShort m2 -> m1 = m2.
Proof.
  intros H1 H2.
  assert (m1 = 0 \/ m1 = 1 \/ m1 = 2 \/ m1 = 3 \/ m1 = 4 \/ m1 = 5 \/ m1 = 6 \/ m1 = 7
          \/ m1 = 8 \/ m1 = 9 \/ m1 = 10 \/ m1 = 11) as Hc1 by lia.
  assert (m2 = 0 \/ m2 = 1 \/ m2 = 2 \/ m2 = 3 \/ m2 = 4 \/ m2 = 5 \/ m2 = 6 \/ m2 = 7
          \/ m2 = 8 \/ m2 = 9 \/ m2 = 10 \/ m2 = 11) as Hc2 by lia.
  clear H1 H2.
  repeat (destruct Hc1 as [->|Hc1]);
    repeat (destruct Hc2 as [->|Hc2]); subst; intros H;
    first [reflexivity | cbv in H; discriminate H].
Qed.

(** A label names one day in every stretch of fewer than 365 days. *)
Lemma shortDateOfDay_inj (a b : Z) :
  shortDateOfDay a = shortDateOfDay b -> Z.abs (b - a) < 365 -> a = b.
Proof.
  unfold shortDateOfDay. intros H Hd.
  pose proof (MonthFromTime_range (a * msPerDay)) as Ha.
  pose proof (MonthFromTime_range (b * msPerDay)) as Hb.
  pose proof (DateFromTime_range (a * msPerDay)) as Da.
  pose proof (DateFromTime_range (b * msPerDay)) as Db.
  assert (String.length (monthShort (MonthFromTime (a * msPerDay)))
          = String.length (monthShort (MonthFromTime (b * msPerDay)))) as Hl
    by (rewrite !monthShort_length by assumption; reflexivity).
  destruct (app_inj_length _ _ _ _ Hl H) as [Hm Ht].
  apply monthShort_inj in Hm; try assumption.
  cbn [append] in Ht. injection Ht as Ht.
  assert (DateFromTime (a * msPerDay) = DateFromTime (b * msPerDay)) as Hdt.
  { rewrite <- (digits_value (DateFromTime (a * msPerDay))) by lia.
    rewrite <- (digits_value (DateFromTime (b * msPerDay))) by lia. now rewrite Ht. }
  destruct (Z.le_ge_cases (YearFromTime (a * msPerDay)) (YearFromTime (b * msPerDay))) as [Hy|Hy].
  - destruct (same_month_day a b Hm Hdt Hy); lia.
  - destruct (same_month_day b a (eq_sym Hm) (eq_sym Hdt) Hy); lia.
Qed.

(** X14: the labels of the chart, in a time zone with a constant offset: the
    point at index [j] is labelled with the local day [days - j] days before
    the local day of the clock reading; and in a window of fewer than 365
    days, as the three chart periods are, no label occurs twice. *)
Theorem history_labels_fixed_offset
    (sin : float -> float) (rand : nat -> float) (off : Z)
    (bigToString : float -> string) (now days : Z) (k : nat) :
  0 <= days -> days * msPerDay - maxTime <= now <= maxTime ->
  exists l,
    generateMockHistoricalData sin rand (fixedZone off) bigToString now days k
    = Normal (l, (k + Z.to_nat (days + 2))%nat) /\
    (forall j, 0 <= j <= days ->
       exists p, nth_error l (Z.to_nat j) = Some p /\
                 displayDate p = shortDateOfDay (Day (now + off) - (days - j))) /\
    (days < 365 -> NoDup (map displayDate l)).
Proof.
  intros Hd Hn.
  pose proof (DateClaims.fixedZone_window off now days Hn Hd) as Hw.
  destruct (generate_in_range sin rand (fixedZone off) bigToString now days k Hd Hw)
    as [l [Hg [Hp Hlen]]].
  assert (forall j, 0 <= j <= days ->
            exists p, nth_error l (Z.to_nat j) = Some p /\
                      displayDate p = shortDateOfDay (Day (now + off) - (days - j))) as Hnth.
  { intros j Hj.
    destruct (pointsFrom_nth _ _ _ _ _ _ _ _ _ (Z.to_nat j) Hp ltac:(lia)) as [t [Ht Hq]].
    eexists. split; [exact Hq|]. cbn [displayDate pointAt].
    apply DateClaims.fixedZone_dateAt in Ht. subst t.
    rewrite short_of_Day. f_equal. unfold LocalTime. cbn [offsetAtUTC fixedZone].
    replace (now - Z.of_nat (Z.to_nat (days + 1) - 1 - Z.to_nat j) * msPerDay + off)
      with (now + off + (j - days) * msPerDay) by (unfold msPerDay; lia).
    rewrite Day_shift. lia. }
  exists l. split; [exact Hg|]. split; [exact Hnth|].
  intros Hshort.
  apply NoDup_nth_error. intros i j Hi Heq.
  rewrite length_map in Hi. rewrite !nth_error_map in Heq.
  destruct (Hnth (Z.of_nat i) ltac:(lia)) as [p [Hp1 Hp2]].
  rewrite Nat2Z.id in Hp1. rewrite Hp1 in Heq. cbn [option_map] in Heq.
  destruct (nth_error l j) as [q|] eqn:Hq; [|discriminate].
  assert (j < List.length l)%nat as Hj by (apply nth_error_Some; congruence).
  destruct (Hnth (Z.of_nat j) ltac:(lia)) as [q' [Hq1 Hq2]].
  rewrite Nat2Z.id, Hq in Hq1. injection Hq1 as <-.
  cbn [option_map] in Heq. injection Heq as Heq.
  rewrite Hp2, Hq2 in Heq. apply shortDateOfDay_inj in Heq; lia.
Qed.

Lemma history_labels_fixed_offset_witness :
  exists l,
    generateMockHistoricalData SampleHost.sampleSin SampleHost.sampleRand (fixedZone 3600000)
      SampleHost.sampleBig SampleHost.sampleNow 90 0%nat
    = Normal (l, (0 + Z.to_nat (90 + 2))%nat) /\
    (forall j, 0 <= j <= 90 ->
       exists p, nth_error l (Z.to_nat j) = Some p /\
                 displayDate p
                 = shortDateOfDay (Day (SampleHost.sampleNow + 3600000) - (90 - j))) /\
    NoDup (map displayDate l).
Proof.
  destruct (history_labels_fixed_offset SampleHost.sampleSin SampleHost.sampleRand 3600000
              SampleHost.sampleBig SampleHost.sampleNow 90 0%nat)
    as [l [Hg [Hn Hd]]];
    [lia | unfold msPerDay, maxTime, SampleHost.sampleNow; lia |].
  exists l. split; [exact Hg|]. split; [exact Hn|]. apply Hd. lia.
Defined.

End LabelFacts.

(** ** The effects *)

Module EffectFacts.
Import JsDate App Ui Rounding RoundFacts SpecFacts OpFacts ArithFacts FloatFacts NumberFacts
  HistoryFacts WindowFacts HostFacts RateFacts TruthFacts PeriodFacts.

(** X7: one run of the effect on [fromCurrency, toCurrency, chartPeriod],
    followed by the timer of [fetchExchangeRate]: the history is drawn
    first, with [loading] set and the rate still the old one; the rate is
    drawn after it, from the next draw, and then [loading] is cleared and
    the converted amount is the amount of the render times the new rate. *)
Theorem effect_then_timer
    (sin : float -> float) (rand : nat -> float) (tz : TimeZone)
    (bigToString : float -> string) (now later : Z) (st : State) (k : nat) :
  unitSource rand -> windowInRange tz now 90 ->
  let d := periodDays (chartPeriod st) in
  exists st1 st2 r,
    pairPeriodEffect sin rand tz bigToString now st k
    = Normal (st1, (k + Z.to_nat (d + 2))%nat) /\
    loading st1 = true /\
    Z.of_nat (List.length (historicalData st1)) = d + 1 /\
    exchangeRate st1 = exchangeRate st /\
    convertedAmount st1 = convertedAmount st /\
    fetchExchangeRate_resume rand later (amount st) st1 (k + Z.to_nat (d + 2))%nat
    = Normal (st2, (k + Z.to_nat (d + 3))%nat) /\
    r = mockRate (rand (k + Z.to_nat (d + 2))%nat) /\
    (0.5 <=? r)%float = true /\ (r <? 2)%float = true /\
    loading st2 = false /\
    exchangeRate st2 = Some r /\
    convertedAmount st2 = Some (amount st * r)%float /\
    historicalData st2 = historicalData st1 /\
    lastUpdated st2 = TimeClip later.
Proof.
  intros Hr Hw d.
  assert (0 <= d <= 90) as Hd
    by (unfold d; destruct (periodDays_cases (chartPeriod st)) as [H|[H|H]]; rewrite H; lia).
  destruct (generate_in_range sin rand tz bigToString now d k)
    as [l [Hg [_ Hlen]]]; [lia | apply (windowInRange_shorter tz now 90); [lia | exact Hw] |].
  unfold pairPeriodEffect, loadHistoricalData, bind.
  cbn [chartPeriod fetchExchangeRate_begin]. fold d. rewrite Hg.
  eexists. eexists. eexists. split; [reflexivity|].
  cbn [loading historicalData exchangeRate convertedAmount amount fromCurrency toCurrency
       chartPeriod lastUpdated].
  split; [reflexivity|]. split; [exact Hlen|]. split; [reflexivity|]. split; [reflexivity|].
  unfold fetchExchangeRate_resume, bind, random, ret. split.
  - do 2 f_equal. lia.
  - split; [reflexivity|].
    destruct (Hr (k + Z.to_nat (d + 2))%nat) as [H0 H1].
    destruct (mockRate_within _ H0 H1) as [Hlo Hhi].
    split; [exact Hlo|]. split; [apply (leb_ltb_trans _ _ _ Hhi); reflexivity|].
    cbn. repeat split.
Qed.

Lemma effect_then_timer_witness :
  exists st1 st2 r,
    pairPeriodEffect SampleHost.sampleSin SampleHost.sampleRand SampleHost.utc
      SampleHost.sampleBig SampleHost.sampleNow initialState 0%nat
    = Normal (st1, 32%nat) /\
    loading st1 = true /\
    Z.of_nat (List.length (historicalData st1)) = 31 /\
    exchangeRate st1 = None /\
    convertedAmount st1 = None /\
    fetchExchangeRate_resume SampleHost.sampleRand (SampleHost.sampleNow + 500) 100 st1 32%nat
    = Normal (st2, 33%nat) /\
    r = mockRate (SampleHost.sampleRand 32%nat) /\
    (0.5 <=? r)%float = true /\ (r <? 2)%float = true /\
    loading st2 = false /\
    exchangeRate st2 = Some r /\
    convertedAmount st2 = Some (100 * r)%float /\
    historicalData st2 = historicalData st1 /\
    lastUpdated st2 = TimeClip (SampleHost.sampleNow + 500).
Proof.
  apply (effect_then_timer SampleHost.sampleSin SampleHost.sampleRand SampleHost.utc
           SampleHost.sampleBig SampleHost.sampleNow (SampleHost.sampleNow + 500)
           initialState 0%nat sampleRand_unit (sample_window 90 ltac:(lia))).
Defined.

(** The product of a Number that is not NaN and a finite Number that is
    not zero is not NaN. *)
Lemma mul_number (a r : float) :
  number a = true -> finite r = true -> Vf r <> 0 -> number (a * r) = true.
Proof.
  unfold number, finite, Vf. rewrite mul_spec.
  pose proof (valid_Prim a) as Va. pose proof (valid_Prim r) as Vr.
  destruct (Prim2SF a) as [sa|sa| |sa ma ea], (Prim2SF r) as [sr|sr| |sr mr er];
    cbn [notNaN finiteSF V]; intros Na Fr Hr; try discriminate; try reflexivity; try lia.
  apply (SFmul_V (S754_finite sa ma ea) (S754_finite sr mr er)); auto.
Qed.

(** X6: the amount typed while a fetch is under way is not lost:
    [fetchExchangeRate] stores the product with the amount its closure had
    captured, and once the effect on [amount, exchangeRate] has run on the
    state it leaves, the converted amount is the product of the current
    amount and the new rate. *)
Theorem stale_amount_repaired (rand : nat -> float) (now : Z) (captured : float)
    (st : State) (k : nat) :
  (0 <=? rand k)%float = true -> (rand k <? 1)%float = true ->
  exists st1 r,
    fetchExchangeRate_resume rand now captured st k = Normal (st1, S k) /\
    exchangeRate st1 = Some r /\
    convertedAmount st1 = Some (captured * r)%float /\
    convertedAmount (recomputeConverted st1) = Some (amount st * r)%float /\
    amount (recomputeConverted st1) = amount st /\
    exchangeRate (recomputeConverted st1) = Some r.
Proof.
  intros H0 H1. destruct (mockRate_within _ H0 H1) as [Hlo _].
  unfold fetchExchangeRate_resume, bind, random, ret.
  eexists. eexists. split; [reflexivity|].
  cbn [exchangeRate convertedAmount]. split; [reflexivity|]. split; [reflexivity|].
  unfold recomputeConverted. cbn [exchangeRate].
  rewrite (truthy_above 0.5 _ eq_refl Hlo). cbn. repeat split.
Qed.

Lemma stale_amount_repaired_witness :
  exists st1 r,
    fetchExchangeRate_resume SampleHost.sampleRand SampleHost.sampleNow 100
      (onAmountChange "250" initialState) 0%nat = Normal (st1, 1%nat) /\
    exchangeRate st1 = Some r /\
    convertedAmount st1 = Some (100 * r)%float /\
    convertedAmount (recomputeConverted st1) = Some (250 * r)%float /\
    amount (recomputeConverted st1) = 250%float /\
    exchangeRate (recomputeConverted st1) = Some r.
Proof.
  apply (stale_amount_repaired SampleHost.sampleRand SampleHost.sampleNow 100
           (onAmountChange "250" initialState) 0%nat); reflexivity.
Defined.

(** X5: typing in the amount field, followed by the effect on [amount,
    exchangeRate]: with a rate in the range of the mock rates the converted
    amount becomes the product of the parsed amount and the rate, and it is
    a Number, never NaN, whatever the text; while there is no rate yet the
    converted amount stays as it was. *)
Theorem typed_amount_converted (value : string) (st : State) :
  (forall r, exchangeRate st = Some r ->
     (0.5 <=? r)%float = true -> (r <? 2)%float = true ->
     let st' := recomputeConverted (onAmountChange value st) in
     convertedAmount st' = Some (amount st' * r)%float /\
     JsNumber.isNaN (amount st' * r)%float = false) /\
  (exchangeRate st = None ->
     convertedAmount (recomputeConverted (onAmountChange value st)) = convertedAmount st).
Proof.
  split.
  - intros r Hr Hlo Hhi. cbv zeta.
    unfold recomputeConverted. cbn [exchangeRate onAmountChange]. rewrite Hr.
    rewrite (truthy_above 0.5 r eq_refl Hlo).
    cbn [convertedAmount amount]. split; [reflexivity|].
    rewrite isNaN_number. apply negb_false_iff.
    apply mul_number.
    + apply (AmountFacts.amount_number value st).
    + apply (within_finite 0.5 2); try reflexivity.
      split; [exact Hlo | now apply ltb_leb].
    + apply leb_V in Hlo. assert (0 < Vf 0.5) by now vm_compute. lia.
  - intros Hr. unfold recomputeConverted. cbn [exchangeRate onAmountChange]. rewrite Hr.
    reflexivity.
Qed.

Definition sampleRated : State :=
  {| amount := 100; fromCurrency := "USD"; toCurrency := "EUR";
     exchangeRate := Some 0.9%float; convertedAmount := Some 90%float;
     loading := false; historicalData := []; chartPeriod := "30d";
     lastUpdated := None |}.

Lemma typed_amount_converted_witness :
  (convertedAmount (recomputeConverted (onAmountChange "12.5" sampleRated))
   = Some (amount (recomputeConverted (onAmountChange "12.5" sampleRated)) * 0.9)%float /\
   JsNumber.isNaN (amount (recomputeConverted (onAmountChange "12.5" sampleRated)) * 0.9)%float
   = false) /\
  convertedAmount (recomputeConverted (onAmountChange "12.5" initialState)) = None.
Proof.
  split.
  - apply (proj1 (typed_amount_converted "12.5" sampleRated) 0.9%float); reflexivity.
  - apply (proj2 (typed_amount_converted "12.5" initialState)). reflexivity.
Defined.

End EffectFacts.

(** ** The clock and the rates; the range of the converted amount *)

Module ClockFacts.
Import JsDate App HistoryFacts WindowFacts BandFacts.

(** The rates of the points that the loop appends when [n] iterations are
    left and the random source stands at [k]. *)
Fixpoint ratesFrom (sin : float -> float) (rand : nat -> float) (bigToString : float -> string)
    (base : float) (n k : nat) : list float :=
  match n with
  | O => []
  | S m =>
      HistoryFacts.rateAt sin bigToString base (Z.of_nat m) (rand k)
        :: ratesFrom sin rand bigToString base m (S k)
  end.

Lemma pointsFrom_rates (sin : float -> float) (rand : nat -> float) (tz : TimeZone)
    (bigToString : float -> string) (today : Date) (base : float) (n : nat) :
  forall (k : nat) (l : list RatePoint),
    pointsFrom sin rand tz bigToString today base n k = Some l ->
    map rate l = ratesFrom sin rand bigToString base n k.
Proof.
  induction n as [|m IH]; intros k l; cbn [pointsFrom ratesFrom].
  - now intros [= <-].
  - destruct (dateAt tz today (Z.of_nat m)) as [t|]; [|discriminate].
    destruct (pointsFrom sin rand tz bigToString today base m (S k)) as [l'|] eqn:E;
      [|discriminate].
    intros [= <-]. cbn [map rate pointAt]. f_equal. now apply IH.
Qed.

(** X13: the rates do not depend on the clock or on the time zone: two calls
    that start at the same position of the random source and return, return
    the same sequence of rates, whatever their clock readings and zones. *)
Theorem rates_ignore_clock
    (sin : float -> float) (rand : nat -> float) (bigToString : float -> string)
    (tz1 tz2 : TimeZone) (now1 now2 days : Z) (k : nat)
    (l1 l2 : list RatePoint) (k1 k2 : nat) :
  generateMockHistoricalData sin rand tz1 bigToString now1 days k = Normal (l1, k1) ->
  generateMockHistoricalData sin rand tz2 bigToString now2 days k = Normal (l2, k2) ->
  map rate l1 = map rate l2 /\ k1 = k2.
Proof.
  intros H1 H2.
  pose proof (generate_points _ _ _ _ _ _ _ _ _ H1) as P1.
  pose proof (generate_points _ _ _ _ _ _ _ _ _ H2) as P2.
  split.
  - rewrite (pointsFrom_rates _ _ _ _ _ _ _ _ _ P1), (pointsFrom_rates _ _ _ _ _ _ _ _ _ P2).
    reflexivity.
  - rewrite generate_spec, P1 in H1. rewrite generate_spec, P2 in H2.
    injection H1 as <-. injection H2 as <-. reflexivity.
Qed.

Lemma rates_ignore_clock_witness :
  exists l1 l2 k',
    generateMockHistoricalData SampleHost.sampleSin SampleHost.sampleRand SampleHost.utc
      SampleHost.sampleBig SampleHost.sampleNow 7 0%nat = Normal (l1, k') /\
    generateMockHistoricalData SampleHost.sampleSin SampleHost.sampleRand london2024
      SampleHost.sampleBig 0 7 0%nat = Normal (l2, k') /\
    map rate l1 = map rate l2.
Proof.
  destruct (generate_in_range SampleHost.sampleSin SampleHost.sampleRand SampleHost.utc
              SampleHost.sampleBig SampleHost.sampleNow 7 0%nat ltac:(lia)
              (PeriodFacts.sample_window 7 ltac:(lia))) as [l1 [H1 _]].
  destruct (generate_in_range SampleHost.sampleSin SampleHost.sampleRand london2024
              SampleHost.sampleBig 0 7 0%nat ltac:(lia)) as [l2 [H2 _]].
  { apply windowInRange_bounded; [apply boundedZone_london|].
    unfold msPerDay, maxTime. lia. }
  exists l1, l2, (0 + Z.to_nat (7 + 2))%nat.
  split; [exact H1|]. split; [exact H2|].
  apply (rates_ignore_clock _ _ _ _ _ _ _ _ _ _ _ _ _ H1 H2).
Defined.

End ClockFacts.

Module ConvertedRange.
Import App Rounding RoundFacts SpecFacts OpFacts FloatFacts NumberFacts RateFacts.

(** Multiplying a finite Number that is not negative by factors in order. *)
Lemma mul_mono_l (a r1 r2 : float) :
  finite a = true -> 0 <= Vf a -> finite r1 = true -> finite r2 = true ->
  (r1 <=? r2)%float = true -> (a * r1 <=? a * r2)%float = true.
Proof.
  intros Fa Ha F1 F2 H. apply leb_V in H. destruct H as [_ [_ H]].
  destruct (mul_V a r1 Fa F1) as [V1 N1]. destruct (mul_V a r2 Fa F2) as [V2 N2].
  apply leb_V. split; [exact N1 | split; [exact N2|]].
  rewrite V1, V2. apply RS_mono. apply Z.div_le_mono; [reflexivity | nia].
Qed.

(** X8: with an amount that is finite and not negative, the converted amount
    that a fetch stores lies between half the amount and twice the
    amount. *)
Theorem converted_between (rand : nat -> float) (now : Z) (st : State) (k : nat) :
  finite (amount st) = true -> (0 <=? amount st)%float = true ->
  (0 <=? rand k)%float = true -> (rand k <? 1)%float = true ->
  exists st' c,
    fetchExchangeRate rand now st k = Normal (st', S k) /\
    convertedAmount st' = Some c /\
    (amount st * 0.5 <=? c)%float = true /\ (c <=? amount st * 2)%float = true.
Proof.
  intros Fa Ha H0 H1. destruct (mockRate_within (rand k) H0 H1) as [Hlo Hhi].
  unfold fetchExchangeRate, fetchExchangeRate_resume, fetchExchangeRate_begin, bind, random, ret.
  eexists. eexists. split; [reflexivity|]. cbn [convertedAmount amount].
  split; [reflexivity|].
  apply leb_V in Ha. destruct Ha as [_ [_ Ha]]. change (Vf 0) with 0 in Ha.
  assert (finite (mockRate (rand k)) = true) as Fr
    by (apply (within_finite 0.5 0x1.fffffffffffffp+0); try reflexivity; split; assumption).
  split; apply mul_mono_l; try assumption; try reflexivity.
  apply (leb_trans _ 0x1.fffffffffffffp+0); [exact Hhi | reflexivity].
Qed.

Lemma converted_between_witness :
  exists st' c,
    fetchExchangeRate SampleHost.sampleRand SampleHost.sampleNow initialState 0%nat
    = Normal (st', 1%nat) /\
    convertedAmount st' = Some c /\
    (100 * 0.5 <=? c)%float = true /\ (c <=? 100 * 2)%float = true.
Proof.
  apply (converted_between SampleHost.sampleRand SampleHost.sampleNow initialState 0%nat);
    reflexivity.
Defined.

End ConvertedRange.

(** ** The result text *)

Module ResultFacts.
Import JsDate App Ui HistoryFacts WindowFacts HostFacts PeriodFacts.

(** X17: what the result shows around the first fetch.  On the initial
    state, before any effect has run, nothing is loading and there is no
    converted amount, and the text reads [undefined] between the symbol and
    the code; once the effect has started the fetch it reads [Loading...];
    and when the timer has fired it shows the product of the amount and the
    new rate, formatted by the host, for whatever state the effect started
    from. *)
Theorem result_text_first_fetch
    (sin : float -> float) (rand : nat -> float) (tz : TimeZone)
    (bigToString : float -> string) (format : float -> string)
    (now later : Z) (st : State) (k : nat) :
  resultText format initialState = "€undefined EUR" /\
  (windowInRange tz now 90 ->
   exists st1 k1 st2 k2,
     pairPeriodEffect sin rand tz bigToString now st k = Normal (st1, k1) /\
     resultText format st1 = "Loading..." /\
     fetchExchangeRate_resume rand later (amount st) st1 k1 = Normal (st2, k2) /\
     resultText format st2
     = getCurrentSymbol (toCurrency st) ++ format (amount st * mockRate (rand k1))%float
         ++ " " ++ toCurrency st).
Proof.
  split; [reflexivity|]. intros Hw.
  assert (0 <= periodDays (chartPeriod st) <= 90) as Hd
    by (destruct (periodDays_cases (chartPeriod st)) as [H|[H|H]]; rewrite H; lia).
  destruct (generate_in_range sin rand tz bigToString now (periodDays (chartPeriod st)) k)
    as [l [Hg _]]; [lia | apply (windowInRange_shorter tz now 90); [lia | exact Hw] |].
  unfold pairPeriodEffect, loadHistoricalData, bind.
  cbn [chartPeriod fetchExchangeRate_begin]. rewrite Hg.
  eexists. eexists. eexists. eexists. split; [reflexivity|].
  split; [reflexivity|].
  unfold fetchExchangeRate_resume, bind, random, ret. split; [reflexivity|].
  reflexivity.
Qed.

Lemma result_text_first_fetch_witness :
  exists st1 k1 st2 k2,
    pairPeriodEffect SampleHost.sampleSin SampleHost.sampleRand SampleHost.utc
      SampleHost.sampleBig SampleHost.sampleNow initialState 0%nat = Normal (st1, k1) /\
    resultText SampleHost.sampleBig st1 = "Loading..." /\
    fetchExchangeRate_resume SampleHost.sampleRand (SampleHost.sampleNow + 500) 100 st1 k1
    = Normal (st2, k2) /\
    resultText SampleHost.sampleBig st2
    = getCurrentSymbol "EUR"
        ++ SampleHost.sampleBig (100 * mockRate (SampleHost.sampleRand k1))%float
        ++ " " ++ "EUR".
Proof.
  apply (proj2 (result_text_first_fetch SampleHost.sampleSin SampleHost.sampleRand
                  SampleHost.utc SampleHost.sampleBig SampleHost.sampleBig
                  SampleHost.sampleNow (SampleHost.sampleNow + 500) initialState 0%nat)).
  apply sample_window. lia.
Defined.

End ResultFacts.

(** ** The dates in any time zone *)

Module ZoneFacts.
Import JsDate App DateFacts HistoryFacts WindowFacts IsoFacts BandFacts.

(** The date built for offset [i], in a zone whose offsets stay below a
    day: within two days of the UTC day [i] days before the clock reading. *)
Lemma dateAt_near (tz : TimeZone) (now i t : Z) :
  boundedZone tz -> dateAt tz (TimeClip now) i = Some t ->
  Z.abs (Day t - (Day now - i)) <= 2.
Proof.
  intros Hz Hd. unfold dateAt in Hd.
  destruct (TimeClip now) as [t0|] eqn:Hn; [|discriminate].
  unfold TimeClip in Hn, Hd.
  destruct (maxTime <? Z.abs now); [discriminate|]. injection Hn as <-.
  destruct (maxTime <? Z.abs (UTC tz (LocalTime tz now - i * msPerDay))); [discriminate|].
  injection Hd as <-.
  unfold UTC, LocalTime.
  destruct (Hz now) as [H1 _].
  destruct (Hz (now + offsetAtUTC tz now - i * msPerDay)) as [_ H2].
  set (a := offsetAtUTC tz now) in *.
  set (b := offsetAtLocal tz (now + a - i * msPerDay)) in *.
  replace (now + a - i * msPerDay - b) with (now + (a - b) + - i * msPerDay) by lia.
  rewrite Day_shift. unfold Day, msPerDay in *.
  Z.div_mod_to_equations. lia.
Qed.

(** X18: in any time zone whose offsets stay below a day, daylight saving
    included, the date of the point at index [j] of a generated history is
    the ISO date of a day at most two days away from the UTC day
    [days - j] days before the clock reading. *)
Theorem history_dates_any_zone
    (sin : float -> float) (rand : nat -> float) (tz : TimeZone)
    (bigToString : float -> string) (now days : Z) (k : nat) :
  boundedZone tz ->
  forall l k',
    generateMockHistoricalData sin rand tz bigToString now days k = Normal (l, k') ->
    forall j p, nth_error l j = Some p ->
      exists D, date p = isoDateOfDay D /\
                Z.abs (D - (Day now - (days - Z.of_nat j))) <= 2.
Proof.
  intros Hz l k' Hg j p Hj.
  apply generate_points in Hg.
  assert (j < Z.to_nat (days + 1))%nat as Hlt.
  { rewrite <- (pointsFrom_length _ _ _ _ _ _ _ _ _ Hg). apply nth_error_Some. congruence. }
  destruct (pointsFrom_nth _ _ _ _ _ _ _ _ _ j Hg Hlt) as [t [Ht Hn]].
  rewrite Hj in Hn. injection Hn as ->.
  replace (Z.of_nat (Z.to_nat (days + 1) - 1 - j)) with (days - Z.of_nat j) in * by lia.
  exists (Day t). split.
  - cbn [date pointAt]. apply isoDate_of_Day.
  - now apply (dateAt_near tz).
Qed.

Lemma history_dates_any_zone_witness :
  exists l k' p,
    generateMockHistoricalData SampleHost.sampleSin SampleHost.sampleRand london2024
      SampleHost.sampleBig SampleHost.sampleNow 1 0%nat = Normal (l, k') /\
    nth_error l 0 = Some p /\
    exists D, date p = isoDateOfDay D /\
              Z.abs (D - (Day SampleHost.sampleNow - (1 - Z.of_nat 0))) <= 2.
Proof.
  destruct (generate_in_range SampleHost.sampleSin SampleHost.sampleRand london2024
              SampleHost.sampleBig SampleHost.sampleNow 1 0%nat ltac:(lia)) as [l [Hg [_ Hlen]]].
  { apply windowInRange_bounded; [apply boundedZone_london|].
    unfold msPerDay, maxTime, SampleHost.sampleNow. lia. }
  destruct l as [|p l]; [simpl in Hlen; lia|].
  exists (p :: l), (0 + Z.to_nat (1 + 2))%nat, p.
  split; [exact Hg | split; [reflexivity|]].
  apply (history_dates_any_zone SampleHost.sampleSin SampleHost.sampleRand london2024
           SampleHost.sampleBig SampleHost.sampleNow 1 0%nat boundedZone_london
           (p :: l) _ Hg 0%nat p eq_refl).
Defined.

End ZoneFacts.

(** ** The size of a quotient *)

Module QuotientFacts.
Import Rounding ShiftFacts RoundFacts SpecFacts OpFacts ArithFacts FloatFacts DivFacts.

(** Rounding a mantissa of 53 or 54 bits moves it by less than two units of
    its last place. *)
Lemma round_aux_bracket (s : bool) (q e : Z) (l : location) :
  2 ^ 52 <= q < 2 ^ 54 -> -1074 <= e ->
  exists q' E,
    binary_round_aux prec emax s q e l = finish s q' E /\
    2 ^ 52 <= q' <= 2 ^ 53 /\ e <= E <= e + 1 /\
    q - 1 <= q' * 2 ^ (E - e) <= q + 2.
Proof.
  intros Hq He. unfold binary_round_aux, shr_fexp at 1.
  fold (fexp64 (Zdigits2 q + e)). rewrite fexp64_eq.
  destruct (Zdigits2_53_54 q Hq) as [[Hd Hlt]|[Hd Hge]]; rewrite Hd.
  - replace (Z.max (53 + e - 53) (-1074) - e) with 0 by lia.
    cbn [shr]. rewrite shr_m_of_loc.
    pose proof (round_even_range q (loc_of_shr_record (shr_record_of_loc q l))) as Hr.
    eexists. exists e. split; [apply second_shift; lia|].
    rewrite Z.sub_diag, Z.pow_0_r, Z.mul_1_r. lia.
  - replace (Z.max (54 + e - 53) (-1074) - e) with 1 by lia.
    cbn [shr iter_pos].
    pose proof (shr_1_m (shr_record_of_loc q l)) as Hm. rewrite shr_m_of_loc in Hm.
    specialize (Hm ltac:(lia)).
    pose proof (round_even_range (shr_m (shr_1 (shr_record_of_loc q l)))
                  (loc_of_shr_record (shr_1 (shr_record_of_loc q l)))) as Hr.
    rewrite Hm in Hr.
    assert (2 ^ 52 <= q / 2 < 2 ^ 53) as Hh.
    { split; [apply Z.div_le_lower_bound; lia | apply Z.div_lt_upper_bound; lia]. }
    rewrite Hm.
    eexists. exists (e + 1). split; [apply second_shift; lia|].
    replace (e + 1 - e) with 1 by lia. rewrite Z.pow_1_r.
    pose proof (Z.div_mod q 2 ltac:(lia)). pose proof (Z.mod_pos_bound q 2 ltac:(lia)).
    lia.
Qed.

(** The quotient of two mantissas: its exponent, its length and its value. *)
Lemma div_core_value (m1 m2 : positive) (e1 e2 : Z) :
  let d1 := Zdigits2 (Zpos m1) in
  let d2 := Zdigits2 (Zpos m2) in
  d1 <= 53 -> -1074 <= d1 + e1 - (d2 + e2) - 53 ->
  exists q l,
    SFdiv_core_binary prec emax (Zpos m1) e1 (Zpos m2) e2
    = (q, d1 + e1 - (d2 + e2) - 53, l) /\
    2 ^ 52 <= q < 2 ^ 54 /\ 0 < d2 - d1 + 53 /\
    q * Zpos m2 <= Zpos m1 * 2 ^ (d2 - d1 + 53) < (q + 1) * Zpos m2.
Proof.
  intros d1 d2 Hd1 Hn. unfold SFdiv_core_binary.
  fold d1. fold d2. fold (fexp64 (d1 + e1 - (d2 + e2))). rewrite fexp64_eq.
  assert (1 <= d2) as Hd2 by (unfold d2; rewrite Zdigits2_log2; pose proof (Z.log2_nonneg (Zpos m2)); lia).
  replace (Z.min (Z.max (d1 + e1 - (d2 + e2) - 53) (-1074)) (e1 - e2))
    with (d1 + e1 - (d2 + e2) - 53) by lia.
  replace (e1 - e2 - (d1 + e1 - (d2 + e2) - 53)) with (d2 - d1 + 53) by lia.
  destruct (d2 - d1 + 53) as [|sp|sp] eqn:Es; try lia.
  rewrite Z.shiftl_mul_pow2 by lia. rewrite <- Es.
  pose proof (log2_digits (Zpos m1) ltac:(lia)) as [L1 U1].
  pose proof (log2_digits (Zpos m2) ltac:(lia)) as [L2 U2].
  unfold d1, d2 in *. rewrite !Zdigits2_log2 in *.
  set (a := Z.log2 (Zpos m1)) in *. set (b := Z.log2 (Zpos m2)) in *.
  pose proof (Z.log2_nonneg (Zpos m1)). pose proof (Z.log2_nonneg (Zpos m2)).
  pose proof (Z_div_mod (Zpos m1 * 2 ^ (b + 1 - (a + 1) + 53)) (Zpos m2) ltac:(lia)) as Hdm.
  unfold Z.div_eucl at 1.
  fold (Z.div_eucl (Zpos m1 * 2 ^ (b + 1 - (a + 1) + 53)) (Zpos m2)).
  destruct (Z.div_eucl (Zpos m1 * 2 ^ (b + 1 - (a + 1) + 53)) (Zpos m2)) as [q r].
  destruct Hdm as [Hdm Hr].
  eexists. eexists. split; [reflexivity|].
  assert (0 < 2 ^ (b + 1 - (a + 1) + 53)) as HP by (apply pow2_pos; lia).
  assert (2 ^ a * 2 ^ (b + 1 - (a + 1) + 53) = 2 ^ 52 * 2 ^ (b + 1)) as E1.
  { rewrite <- !Z.pow_add_r by lia. f_equal. lia. }
  assert (2 ^ (a + 1) * 2 ^ (b + 1 - (a + 1) + 53) = 2 ^ 54 * 2 ^ b) as E2.
  { rewrite <- !Z.pow_add_r by lia. f_equal. lia. }
  assert (0 < 2 ^ b) by (apply pow2_pos; lia).
  assert (0 < 2 ^ (b + 1)) by (apply pow2_pos; lia).
  split; [split|split; [lia|]].
  - assert (2 ^ 52 * 2 ^ (b + 1) <= Zpos m1 * 2 ^ (b + 1 - (a + 1) + 53)) by nia.
    assert (2 ^ 52 * Zpos m2 < Zpos m2 * q + Zpos m2) by nia.
    nia.
  - assert (Zpos m1 * 2 ^ (b + 1 - (a + 1) + 53) < 2 ^ 54 * 2 ^ b) by nia.
    assert (Zpos m2 * q < 2 ^ 54 * Zpos m2) by nia.
    nia.
  - rewrite Es, <- Es. lia.
Qed.

(** A relative error of [2^-51] on a quotient, on integers. *)
Lemma quotient_window (q a b c : Z) :
  2 ^ 52 <= q -> 0 < b -> q - 1 <= a <= q + 2 -> q * b <= c < (q + 1) * b ->
  (2 ^ 51 - 1) * c <= 2 ^ 51 * (a * b) /\ 2 ^ 51 * (a * b) <= (2 ^ 51 + 1) * c.
Proof.
  intros Hq Hb Ha Hc. split.
  - apply Z.le_trans with ((2 ^ 51 - 1) * ((q + 1) * b)).
    + apply Z.mul_le_mono_nonneg_l; lia.
    + apply Z.le_trans with (2 ^ 51 * ((q - 1) * b)).
      * rewrite !Z.mul_assoc. apply Z.mul_le_mono_nonneg_r; lia.
      * apply Z.mul_le_mono_nonneg_l; [lia|]. apply Z.mul_le_mono_nonneg_r; lia.
  - apply Z.le_trans with (2 ^ 51 * ((q + 2) * b)).
    + apply Z.mul_le_mono_nonneg_l; [lia|]. apply Z.mul_le_mono_nonneg_r; lia.
    + apply Z.le_trans with ((2 ^ 51 + 1) * (q * b)).
      * rewrite !Z.mul_assoc. apply Z.mul_le_mono_nonneg_r; lia.
      * apply Z.mul_le_mono_nonneg_l; lia.
Qed.

(** The quotient of a finite non-zero number by a positive one, when it
    neither overflows nor underflows: a number of the same sign, within a
    relative error of [2^-51] of the exact quotient. *)
Lemma SFdiv_bounds (sx : bool) (mx my : positive) (ex ey : Z) :
  valid (S754_finite sx mx ex) -> valid (S754_finite false my ey) ->
  -1021 <= Zdigits2 (Zpos mx) + ex - (Zdigits2 (Zpos my) + ey) <= 1022 ->
  notNaN (SFdiv prec emax (S754_finite sx mx ex) (S754_finite false my ey)) = true /\
  exists A, 0 < A /\
    V (SFdiv prec emax (S754_finite sx mx ex) (S754_finite false my ey)) = signed sx A /\
    (2 ^ 51 - 1) * (Zpos mx * 2 ^ (ex + scale) * 2 ^ scale)
    <= 2 ^ 51 * (A * (Zpos my * 2 ^ (ey + scale))) /\
    2 ^ 51 * (A * (Zpos my * 2 ^ (ey + scale)))
    <= (2 ^ 51 + 1) * (Zpos mx * 2 ^ (ex + scale) * 2 ^ scale).
Proof.
  intros Hx Hy Hn. cbn [SFdiv].
  pose proof (valid_digits _ _ _ Hx) as Hdx. pose proof (valid_digits _ _ _ Hy) as Hdy.
  destruct (valid_finite _ _ _ Hx) as [_ [Hex _]].
  destruct (valid_finite _ _ _ Hy) as [_ [Hey _]].
  destruct (div_core_value mx my ex ey ltac:(lia) ltac:(lia)) as [q [l [Hc [Hq [Hs Hqv]]]]].
  rewrite Hc. replace (xorb sx false) with sx by (destruct sx; reflexivity).
  set (dx := Zdigits2 (Zpos mx)) in *. set (dy := Zdigits2 (Zpos my)) in *.
  set (e := dx + ex - (dy + ey) - 53) in *.
  destruct (round_aux_bracket sx q e l Hq ltac:(lia)) as [q' [E [Hr [Hq' [HE Hb]]]]].
  rewrite Hr.
  destruct (finish_positive sx q' E Hq' ltac:(lia)) as [Nn _].
  split; [exact Nn|].
  rewrite V_finish by lia.
  assert (0 < 2 ^ (E + scale)) as HT by (apply pow2_pos; unfold scale; lia).
  assert (q' * 2 ^ (E + scale) <= INF) as Hno.
  { rewrite INF_eq. apply Z.mul_le_mono_nonneg; try lia.
    apply pow2_le. unfold scale; lia. }
  rewrite Z.min_l by exact Hno.
  exists (q' * 2 ^ (E + scale)). split; [nia|]. split; [reflexivity|].
  (* common factor *)
  set (W := 2 ^ (e + ey + scale + scale)).
  assert (0 < W) as HW by (apply pow2_pos; unfold scale; lia).
  assert (q' * 2 ^ (E + scale) * (Zpos my * 2 ^ (ey + scale))
          = q' * 2 ^ (E - e) * Zpos my * W) as EA.
  { unfold W. replace (E + scale) with ((E - e) + (e + scale)) by lia.
    replace (e + ey + scale + scale) with ((e + scale) + (ey + scale)) by lia.
    rewrite (Z.pow_add_r 2 (E - e) (e + scale)) by (unfold scale; lia).
    rewrite (Z.pow_add_r 2 (e + scale) (ey + scale)) by (unfold scale; lia). ring. }
  assert (Zpos mx * 2 ^ (ex + scale) * 2 ^ scale
          = Zpos mx * 2 ^ (dy - dx + 53) * W) as EX.
  { unfold W. replace (ex + scale) with ((dy - dx + 53) + (e + ey + scale)) by (unfold e; lia).
    rewrite (Z.pow_add_r 2 (dy - dx + 53) (e + ey + scale)) by (unfold scale, e; lia).
    replace (e + ey + scale + scale) with ((e + ey + scale) + scale) by lia.
    rewrite (Z.pow_add_r 2 (e + ey + scale) scale) by (unfold scale, e; lia). ring. }
  rewrite EA, EX.
  destruct (quotient_window q (q' * 2 ^ (E - e)) (Zpos my) (Zpos mx * 2 ^ (dy - dx + 53))
              ltac:(lia) ltac:(lia) Hb Hqv) as [H1 H2].
  split.
  - replace ((2 ^ 51 - 1) * (Zpos mx * 2 ^ (dy - dx + 53) * W))
      with ((2 ^ 51 - 1) * (Zpos mx * 2 ^ (dy - dx + 53)) * W) by ring.
    replace (2 ^ 51 * (q' * 2 ^ (E - e) * Zpos my * W))
      with (2 ^ 51 * (q' * 2 ^ (E - e) * Zpos my) * W) by ring.
    apply Z.mul_le_mono_nonneg_r; lia.
  - replace ((2 ^ 51 + 1) * (Zpos mx * 2 ^ (dy - dx + 53) * W))
      with ((2 ^ 51 + 1) * (Zpos mx * 2 ^ (dy - dx + 53)) * W) by ring.
    replace (2 ^ 51 * (q' * 2 ^ (E - e) * Zpos my * W))
      with (2 ^ 51 * (q' * 2 ^ (E - e) * Zpos my) * W) by ring.
    apply Z.mul_le_mono_nonneg_r; lia.
Qed.

End QuotientFacts.

(** ** Quotients of Numbers *)

Module QuotientNumbers.
Import Rounding ShiftFacts RoundFacts SpecFacts OpFacts ArithFacts FloatFacts NumberFacts DivFacts
  QuotientFacts.

Lemma abs_signed (s : bool) (z : Z) : 0 <= z -> Z.abs (signed s z) = z.
Proof. intros H. destruct s; unfold signed; lia. Qed.

(** [Math.abs] on values. *)
Lemma abs_V (x : float) :
  Vf (JsNumber.abs x) = Z.abs (Vf x) /\ number (JsNumber.abs x) = number x /\
  finite (JsNumber.abs x) = finite x.
Proof.
  unfold Vf, number, finite, JsNumber.abs. rewrite abs_spec.
  pose proof (valid_Prim x) as Hv. assert (0 < INF) as HI by reflexivity.
  destruct (Prim2SF x) as [s|s| |s m e]; cbn [SFabs V notNaN finiteSF].
  - repeat split.
  - rewrite abs_signed by lia. repeat split.
  - repeat split.
  - assert (0 < Zpos m * 2 ^ (e + scale)).
    { destruct (valid_finite _ _ _ Hv) as [_ [He _]].
      pose proof (pow2_pos (e + scale) ltac:(unfold scale; lia)). lia. }
    rewrite abs_signed by lia. repeat split.
Qed.

Lemma finite_shape (x : float) :
  finite x = true -> Vf x <> 0 ->
  exists s m e, Prim2SF x = S754_finite s m e /\
                Vf x = signed s (Zpos m * 2 ^ (e + scale)).
Proof.
  unfold finite, Vf. destruct (Prim2SF x) as [s|s| |s m e]; cbn [finiteSF V];
    intros Hf H0; try discriminate; try lia.
  eauto.
Qed.

(** The length of a mantissa, from the value. *)
Lemma digits_window (m : positive) (e : Z) :
  - scale <= e ->
  2 ^ (Zdigits2 (Zpos m) - 1 + (e + scale)) <= Zpos m * 2 ^ (e + scale)
  < 2 ^ (Zdigits2 (Zpos m) + (e + scale)).
Proof.
  intros He. rewrite Zdigits2_log2.
  pose proof (log2_digits (Zpos m) ltac:(lia)) as [L U].
  pose proof (Z.log2_nonneg (Zpos m)) as Hl.
  pose proof (pow2_pos (e + scale) ltac:(lia)) as HT.
  replace (Z.log2 (Zpos m) + 1 - 1 + (e + scale)) with (Z.log2 (Zpos m) + (e + scale)) by lia.
  rewrite (Z.pow_add_r 2 (Z.log2 (Zpos m)) (e + scale)) by lia.
  rewrite (Z.pow_add_r 2 (Z.log2 (Zpos m) + 1) (e + scale)) by lia.
  split.
  - apply Z.mul_le_mono_nonneg_r; lia.
  - apply Z.mul_lt_mono_pos_r; [lia | exact U].
Qed.

(** Division of a finite non-zero Number by a positive one, away from
    overflow and underflow. *)
Theorem div_bounds (x y : float) :
  finite x = true -> Vf x <> 0 -> finite y = true -> 0 < Vf y ->
  Vf y <= Z.abs (Vf x) * 2 ^ 1020 -> Z.abs (Vf x) <= Vf y * 2 ^ 1021 ->
  finite (x / y) = true /\ Z.sgn (Vf (x / y)) = Z.sgn (Vf x) /\
  (2 ^ 51 - 1) * (Z.abs (Vf x) * 2 ^ scale) <= 2 ^ 51 * (Z.abs (Vf (x / y)) * Vf y) /\
  2 ^ 51 * (Z.abs (Vf (x / y)) * Vf y) <= (2 ^ 51 + 1) * (Z.abs (Vf x) * 2 ^ scale).
Proof.
  intros Fx Hx Fy Hy Hlo Hhi.
  destruct (finite_shape x Fx Hx) as [sx [mx [ex [Ex Vx]]]].
  destruct (finite_shape y Fy ltac:(lia)) as [sy [my [ey [Ey Vy]]]].
  pose proof (valid_Prim x) as Hvx. pose proof (valid_Prim y) as Hvy.
  rewrite Ex in Hvx. rewrite Ey in Hvy.
  destruct (valid_finite _ _ _ Hvx) as [_ [Hex _]].
  destruct (valid_finite _ _ _ Hvy) as [_ [Hey _]].
  pose proof (pow2_pos (ex + scale) ltac:(unfold scale; lia)) as HTx.
  pose proof (pow2_pos (ey + scale) ltac:(unfold scale; lia)) as HTy.
  assert (sy = false) as -> by (destruct sy; [unfold signed in Vy; lia | reflexivity]).
  unfold signed in Vy at 1. rewrite Vx, Vy in *. rewrite abs_signed in * by lia.
  pose proof (digits_window mx ex ltac:(unfold scale; lia)) as [Lx Ux].
  pose proof (digits_window my ey ltac:(unfold scale; lia)) as [Ly Uy].
  pose proof (valid_digits _ _ _ Hvx) as Hdx. pose proof (valid_digits _ _ _ Hvy) as Hdy.
  assert (-1021 <= Zdigits2 (Zpos mx) + ex - (Zdigits2 (Zpos my) + ey) <= 1022) as Hn.
  { split.
    - assert (2 ^ (Zdigits2 (Zpos my) - 1 + (ey + scale))
              < 2 ^ (Zdigits2 (Zpos mx) + (ex + scale) + 1020)) as H.
      { eapply Z.le_lt_trans; [exact Ly|]. eapply Z.le_lt_trans; [exact Hlo|].
        rewrite (Z.pow_add_r 2 _ 1020) by (unfold scale; lia).
        apply Z.mul_lt_mono_pos_r; [reflexivity | exact Ux]. }
      apply Z.pow_lt_mono_r_iff in H; [lia | lia | unfold scale; lia].
    - assert (2 ^ (Zdigits2 (Zpos mx) - 1 + (ex + scale))
              < 2 ^ (Zdigits2 (Zpos my) + (ey + scale) + 1021)) as H.
      { eapply Z.le_lt_trans; [exact Lx|]. eapply Z.le_lt_trans; [exact Hhi|].
        rewrite (Z.pow_add_r 2 _ 1021) by (unfold scale; lia).
        apply Z.mul_lt_mono_pos_r; [reflexivity | exact Uy]. }
      apply Z.pow_lt_mono_r_iff in H; [lia | lia | unfold scale; lia]. }
  destruct (SFdiv_bounds sx mx my ex ey Hvx Hvy Hn) as [Nn [A [HA [HV [H1 H2]]]]].
  assert (Prim2SF (x / y) = SFdiv prec emax (S754_finite sx mx ex) (S754_finite false my ey)) as Ed
    by (rewrite div_spec, Ex, Ey; reflexivity).
  assert (Vf (x / y) = signed sx A) as EV by (unfold Vf; rewrite Ed; exact HV).
  rewrite EV, abs_signed by lia.
  split; [|split; [|split; assumption]].
  - apply finite_V. split; [unfold number; rewrite Ed; exact Nn|]. rewrite EV.
    (* the quotient is below the overflow threshold *)
    assert (A < INF).
    { assert (0 < INF) by reflexivity.
      destruct (Z.lt_ge_cases A INF) as [|Hge]; [assumption|exfalso].
      assert (2 ^ 51 * (INF * (Zpos my * 2 ^ (ey + scale)))
              <= (2 ^ 51 + 1) * (Zpos my * 2 ^ (ey + scale) * 2 ^ 1021 * 2 ^ scale)) as Hc.
      { eapply Z.le_trans; [|eapply Z.le_trans; [exact H2|]].
        - apply Z.mul_le_mono_nonneg_l; [lia|]. apply Z.mul_le_mono_nonneg_r; lia.
        - apply Z.mul_le_mono_nonneg_l; [lia|]. apply Z.mul_le_mono_nonneg_r; [|exact Hhi].
          apply Z.pow_nonneg; lia. }
      set (Y := Zpos my * 2 ^ (ey + scale)) in *.
      assert (2 ^ 51 * INF <= (2 ^ 51 + 1) * (2 ^ 1021 * 2 ^ scale)) as Hcc.
      { apply Z.mul_le_mono_pos_r with Y; [lia|].
        replace (2 ^ 51 * INF * Y) with (2 ^ 51 * (INF * Y)) by ring.
        replace ((2 ^ 51 + 1) * (2 ^ 1021 * 2 ^ scale) * Y)
          with ((2 ^ 51 + 1) * (Y * 2 ^ 1021 * 2 ^ scale)) by ring.
        exact Hc. }
      revert Hcc. apply Z.lt_nge. now vm_compute. }
    destruct sx; unfold signed; lia.
  - destruct sx; unfold signed; [rewrite !Z.sgn_neg | rewrite !Z.sgn_pos]; lia.
Qed.

End QuotientNumbers.

(** ** The trend indicator *)

Module IndicatorFacts.
Import JsDate App Ui Rounding RoundFacts SpecFacts OpFacts ArithFacts FloatFacts NumberFacts
  DivFacts TrendSign HistoryFacts WindowFacts HostFacts FixedFacts BandFacts PeriodFacts.

(** The direction that [calculateTrend] reports for the rates [latest] and
    [previous]. *)
Definition directionOf (latest previous : float) : string :=
  let change := ((latest - previous) / previous * 100)%float in
  if (0 <? change)%float then "up" else if (change <? 0)%float then "down" else "neutral".

Lemma calculateTrend_last (bigToString : float -> string) (h : list RatePoint)
    (pp pl : RatePoint) :
  (2 <= List.length h)%nat ->
  nth_error h (List.length h - 2) = Some pp ->
  nth_error h (List.length h - 1) = Some pl ->
  calculateTrend bigToString h
  = Normal {| trend := directionOf (rate pl) (rate pp);
              percentage :=
                JsStr (JsString.toFixed bigToString 2
                         (JsNumber.abs ((rate pl - rate pp) / rate pp * 100)%float)) |}.
Proof.
  intros Hl Hp Hq. unfold calculateTrend, App.rateAt.
  destruct (Nat.ltb_spec (List.length h) 2) as [|_]; [lia|].
  rewrite Hp, Hq. reflexivity.
Qed.

(** For positive finite rates the direction is up, down or neutral as the
    latest rate is above, below or equal to the previous one. *)
Lemma directionOf_spec (latest previous : float) :
  finite latest = true -> (0 <? latest)%float = true ->
  finite previous = true -> (0 <? previous)%float = true ->
  (directionOf latest previous = "up" /\ Vf previous < Vf latest) \/
  (directionOf latest previous = "down" /\ Vf latest < Vf previous) \/
  (directionOf latest previous = "neutral" /\ Vf latest = Vf previous /\
   Vf ((latest - previous) / previous * 100)%float = 0).
Proof.
  intros Fl Pl Fp Pp.
  destruct (change_sign latest previous Fl Pl Fp Pp) as [Nc Hs].
  unfold directionOf.
  set (change := ((latest - previous) / previous * 100)%float) in *.
  destruct (0 <? change)%float eqn:E1; [|destruct (change <? 0)%float eqn:E2].
  - left. split; [reflexivity|]. apply ltb_V in E1. destruct E1 as [_ [_ H]].
    change (Vf 0) with 0 in H. apply Z.sgn_pos_iff in H. rewrite Hs in H.
    apply Z.sgn_pos_iff in H. lia.
  - right. left. split; [reflexivity|]. apply ltb_V in E2. destruct E2 as [_ [_ H]].
    change (Vf 0) with 0 in H. apply Z.sgn_neg_iff in H. rewrite Hs in H.
    apply Z.sgn_neg_iff in H. lia.
  - right. right. split; [reflexivity|].
    assert (Vf change = 0) as H0.
    { destruct (Z.lt_trichotomy (Vf change) 0) as [H|[H|H]]; [|exact H|].
      - assert ((change <? 0)%float = true) by (apply ltb_V; auto). congruence.
      - assert ((0 <? change)%float = true) by (apply ltb_V; auto). congruence. }
    split; [|exact H0]. rewrite H0 in Hs. cbn [Z.sgn] in Hs.
    symmetry in Hs. apply Z.sgn_null_iff in Hs. lia.
Qed.

(** A Number of value zero is one of the two zeros. *)
Lemma zero_shape (x : float) :
  number x = true -> Vf x = 0 -> exists s, Prim2SF x = S754_zero s.
Proof.
  unfold number, Vf. pose proof (valid_Prim x) as Hv.
  assert (0 < INF) as HI by reflexivity.
  destruct (Prim2SF x) as [s|s| |s m e]; cbn [notNaN V]; intros Hn H0.
  - eauto.
  - destruct s; unfold signed in H0; lia.
  - discriminate.
  - pose proof (V_finite_pos m e Hv). destruct s; unfold signed in H0; lia.
Qed.

Lemma toFixed_abs_zero (bigToString : float -> string) (x : float) :
  number x = true -> Vf x = 0 ->
  JsString.toFixed bigToString 2 (JsNumber.abs x) = "0.00".
Proof.
  intros Hn H0. destruct (zero_shape x Hn H0) as [s Hs].
  unfold JsString.toFixed, JsNumber.abs. rewrite abs_spec, Hs. reflexivity.
Qed.

Lemma zero_text : (0 <? JsConvert.toNumber "0.00")%float = false.
Proof. vm_compute. reflexivity. Qed.

(** X15: the trend indicator is rendered only for a trend that goes up or down,
    and then its word fits the direction: for a history whose last two rates
    are positive and finite, a rendered indicator says [increase] for the
    trend ["up"] and [decrease] for the trend ["down"], never for a neutral
    one; and for a history of fewer than two points it is not rendered. *)
Theorem indicator_fits_direction (bigToString : float -> string)
    (pre : list RatePoint) (pp pl : RatePoint) :
  (finite (rate pp) = true -> (0 <? rate pp)%float = true ->
   finite (rate pl) = true -> (0 <? rate pl)%float = true ->
   exists t,
     calculateTrend bigToString (pre ++ [pp; pl]) = Normal t /\
     (trendShown t = true ->
      (trend t = "up" /\ trendWord t = "increase" /\ (rate pp <? rate pl)%float = true) \/
      (trend t = "down" /\ trendWord t = "decrease" /\ (rate pl <? rate pp)%float = true))) /\
  (forall h t, (List.length h < 2)%nat -> calculateTrend bigToString h = Normal t ->
     trendShown t = false /\ trendText bigToString t = None).
Proof.
  split.
  - intros Fp Pp Fl Pl.
    rewrite (calculateTrend_last bigToString (pre ++ [pp; pl]) pp pl).
    + eexists. split; [reflexivity|].
      unfold trendShown, trendWord. cbn [percentage trend].
      pose proof (finite_number _ Fl) as Nl. pose proof (finite_number _ Fp) as Np.
      destruct (directionOf_spec (rate pl) (rate pp) Fl Pl Fp Pp)
        as [[-> H]|[[-> H]|[-> [_ H0]]]]; intros Hshown.
      * left. repeat split. apply ltb_V. auto.
      * right. repeat split. apply ltb_V. auto.
      * exfalso.
        destruct (change_sign (rate pl) (rate pp) Fl Pl Fp Pp) as [Nc _].
        rewrite (toFixed_abs_zero bigToString _ Nc H0) in Hshown.
        rewrite zero_text in Hshown. discriminate Hshown.
    + rewrite length_app. cbn [List.length]. lia.
    + rewrite length_app. cbn [List.length].
      rewrite nth_error_app2 by lia.
      replace (List.length pre + 2 - 2 - List.length pre)%nat with 0%nat by lia. reflexivity.
    + rewrite length_app. cbn [List.length].
      rewrite nth_error_app2 by lia.
      replace (List.length pre + 2 - 1 - List.length pre)%nat with 1%nat by lia. reflexivity.
  - intros h t Hl. unfold calculateTrend.
    destruct (Nat.ltb_spec (List.length h) 2) as [_|]; [|lia].
    intros [= <-]. split; reflexivity.
Qed.

Lemma indicator_fits_direction_witness :
  (exists t,
     calculateTrend SampleHost.sampleBig
       ([] ++ [{| date := "2024-03-30"; rate := 1.0; displayDate := "Mar 30" |}; {| date := "2024-03-31"; rate := 0.9; displayDate := "Mar 31" |}])
     = Normal t /\
     trendShown t = true /\
     trend t = "down" /\ trendWord t = "decrease") /\
  (exists t, calculateTrend SampleHost.sampleBig [] = Normal t /\ trendShown t = false).
Proof.
  split.
  - destruct (proj1 (indicator_fits_direction SampleHost.sampleBig []
                       ({| date := "2024-03-30"; rate := 1.0; displayDate := "Mar 30" |})
                       ({| date := "2024-03-31"; rate := 0.9; displayDate := "Mar 31" |}))
                eq_refl eq_refl eq_refl eq_refl) as [t [Ht Hs]].
    exists t. split; [exact Ht|].
    assert (trendShown t = true) as Hshown.
    { vm_compute in Ht. injection Ht as <-. vm_compute. reflexivity. }
    split; [exact Hshown|].
    destruct (Hs Hshown) as [[Hu _]|[Hd [Hw _]]]; [|tauto].
    vm_compute in Ht. injection Ht as <-. vm_compute in Hu. discriminate Hu.
  - eexists. split; [reflexivity|].
    apply (proj2 (indicator_fits_direction SampleHost.sampleBig [] {| date := "2024-03-31"; rate := 1; displayDate := "Mar 31" |}
                    {| date := "2024-03-31"; rate := 1; displayDate := "Mar 31" |}) [] _ ltac:(simpl; lia) eq_refl).
Defined.

End IndicatorFacts.

(** ** The percentage of the trend *)

Module PercentFacts.
Import JsDate App Ui Rounding RoundFacts SpecFacts OpFacts ArithFacts FloatFacts NumberFacts
  DivFacts TrendSign HistoryFacts WindowFacts HostFacts FixedFacts BandFacts PeriodFacts
  QuotientNumbers IndicatorFacts.

(** The unit of the rates of the band: [2^-53]. *)
Definition unit53 : Z := 2 ^ (scale - 53).

(** A rate of the band is a multiple [a * 2^-53] with [a] within a unit of
    [n * 2^53 / 10^4]. *)
Definition onGrid (n : Z) : bool :=
  match Prim2SF (decimal4 n) with
  | S754_finite false m e =>
      (-53 <=? e) && (e <=? -52) &&
      (Z.abs (10 ^ 4 * (Zpos m * 2 ^ (e + 53)) - n * 2 ^ 53) <=? 10 ^ 4)
  | _ => false
  end.

Lemma grid_table : forallb onGrid (zrange 7750 (Z.to_nat 4502)) = true.
Proof. vm_compute. reflexivity. Qed.

Lemma grid_spec (n : Z) :
  7750 <= n <= 12251 ->
  finite (decimal4 n) = true /\
  exists a, Vf (decimal4 n) = a * unit53 /\ Z.abs (10 ^ 4 * a - n * 2 ^ 53) <= 10 ^ 4.
Proof.
  intros Hn.
  pose proof (proj1 (forallb_forall _ _) grid_table n) as H.
  assert (In n (zrange 7750 (Z.to_nat 4502))) as Hin by (apply zrange_In; lia).
  specialize (H Hin). unfold onGrid in H. unfold finite, Vf.
  destruct (Prim2SF (decimal4 n)) as [s|s| |s m e]; try discriminate.
  destruct s; [discriminate|].
  apply andb_true_iff in H. destruct H as [H H3].
  apply andb_true_iff in H. destruct H as [H1 H2].
  apply Z.leb_le in H1, H2, H3.
  split; [reflexivity|].
  exists (Zpos m * 2 ^ (e + 53)). split; [|exact H3].
  cbn [V signed]. unfold unit53.
  replace (e + scale) with ((e + 53) + (scale - 53)) by lia.
  rewrite (Z.pow_add_r 2 (e + 53) (scale - 53)) by (unfold scale; lia). ring.
Qed.

Definition gapLow : Z := 900719925472.
Definition gapHigh : Z := 4054200000000000.

(** Two different rates of the band differ by a multiple of [2^-53] between
    [gapLow] and [gapHigh]. *)
Lemma grid_gap (n1 n2 : Z) :
  7750 <= n1 <= 12251 -> 7750 <= n2 <= 12251 -> n1 <> n2 ->
  exists g, Z.abs (Vf (decimal4 n1) - Vf (decimal4 n2)) = g * unit53 /\
            gapLow <= g <= gapHigh.
Proof.
  intros H1 H2 Hne.
  destruct (grid_spec n1 H1) as [_ [a1 [E1 B1]]].
  destruct (grid_spec n2 H2) as [_ [a2 [E2 B2]]].
  exists (Z.abs (a1 - a2)). split.
  - rewrite E1, E2, <- Z.mul_sub_distr_r, Z.abs_mul.
    f_equal; apply Z.abs_eq; unfold unit53; apply Z.pow_nonneg; lia.
  - unfold gapLow, gapHigh. lia.
Qed.

Lemma grid_same (n1 n2 : Z) :
  7750 <= n1 <= 12251 -> 7750 <= n2 <= 12251 ->
  Vf (decimal4 n1) = Vf (decimal4 n2) -> n1 = n2.
Proof.
  intros H1 H2 He.
  destruct (Z.eq_dec n1 n2) as [|Hne]; [assumption|exfalso].
  destruct (grid_gap n1 n2 H1 H2 Hne) as [g [Hg Hb]].
  rewrite He, Z.sub_diag in Hg. cbn [Z.abs] in Hg.
  assert (0 < unit53) by reflexivity. unfold gapLow in Hb. nia.
Qed.

Definition diffLow : Z := RS (gapLow * unit53).
Definition diffHigh : Z := RS (gapHigh * unit53).

Lemma RS_nonneg (z : Z) : 0 <= z -> 0 <= RS z.
Proof. intros H. change 0 with (RS 0) at 1. now apply RS_mono. Qed.

Lemma RS_abs (z : Z) : Z.abs (RS z) = RS (Z.abs z).
Proof.
  destruct (Z.le_gt_cases 0 z) as [H|H].
  - rewrite (Z.abs_eq z) by exact H. apply Z.abs_eq. now apply RS_nonneg.
  - rewrite (Z.abs_neq z) by lia.
    replace z with (- - z) at 1 by lia. rewrite RS_opp.
    pose proof (RS_nonneg (- z) ltac:(lia)). lia.
Qed.

Lemma quotient_sandwich (D P Q DLO DHI PLO PHI QLO QHI S : Z) :
  0 <= Q -> 0 < PLO <= P -> P <= PHI -> 0 <= DLO <= D -> D <= DHI -> 0 < S ->
  0 <= QLO -> 0 <= QHI ->
  (2 ^ 51 - 1) * (D * S) <= 2 ^ 51 * (Q * P) ->
  2 ^ 51 * (Q * P) <= (2 ^ 51 + 1) * (D * S) ->
  2 ^ 51 * (QLO * PHI) < (2 ^ 51 - 1) * (DLO * S) ->
  (2 ^ 51 + 1) * (DHI * S) < 2 ^ 51 * (QHI * PLO) ->
  QLO <= Q <= QHI.
Proof.
  intros HQ HP HP' HD HD' HS HQL HQH B1 B2 C1 C2. split.
  - destruct (Z.le_gt_cases QLO Q) as [|Hlt]; [assumption|exfalso].
    assert (Q * P <= QLO * PHI) by (apply Z.mul_le_mono_nonneg; lia).
    assert (DLO * S <= D * S) by (apply Z.mul_le_mono_nonneg_r; lia).
    assert ((2 ^ 51 - 1) * (DLO * S) <= (2 ^ 51 - 1) * (D * S))
      by (apply Z.mul_le_mono_nonneg_l; lia).
    assert (2 ^ 51 * (Q * P) <= 2 ^ 51 * (QLO * PHI))
      by (apply Z.mul_le_mono_nonneg_l; lia).
    lia.
  - destruct (Z.le_gt_cases Q QHI) as [|Hlt]; [assumption|exfalso].
    assert (QHI * PLO <= Q * P) by (apply Z.mul_le_mono_nonneg; lia).
    assert (D * S <= DHI * S) by (apply Z.mul_le_mono_nonneg_r; lia).
    assert ((2 ^ 51 + 1) * (D * S) <= (2 ^ 51 + 1) * (DHI * S))
      by (apply Z.mul_le_mono_nonneg_l; lia).
    assert (2 ^ 51 * (QHI * PLO) <= 2 ^ 51 * (Q * P))
      by (apply Z.mul_le_mono_nonneg_l; lia).
    lia.
Qed.

Lemma cert_diff : 0 < diffLow /\ diffHigh < INF.
Proof. split; now vm_compute. Qed.

Lemma cert_range :
  Vf 1.2251 <= diffLow * 2 ^ 1020 /\ diffHigh <= Vf 0.775 * 2 ^ 1021.
Proof. split; now vm_compute. Qed.

Lemma cert_quotient :
  2 ^ 51 * (Vf 0.00008 * Vf 1.2251) < (2 ^ 51 - 1) * (diffLow * 2 ^ scale) /\
  (2 ^ 51 + 1) * (diffHigh * 2 ^ scale) < 2 ^ 51 * (Vf 0.59 * Vf 0.775).
Proof. split; now vm_compute. Qed.

(** The relative change between two different rates of the band, as a
    percentage, lies between [0.008] and [59]. *)
Lemma change_magnitude (nl np : Z) :
  7750 <= nl <= 12251 -> 7750 <= np <= 12251 -> nl <> np ->
  within (0.00008 * 100) (0.59 * 100)
    (JsNumber.abs ((decimal4 nl - decimal4 np) / decimal4 np * 100)%float).
Proof.
  intros Hl Hp Hne.
  set (l := decimal4 nl). set (p := decimal4 np).
  destruct (grid_spec nl Hl) as [Fl _]. destruct (grid_spec np Hp) as [Fp _].
  fold l in Fl. fold p in Fp.
  destruct (band_spec np Hp) as [P1 [P2 _]]. fold p in P1, P2.
  apply leb_V in P1, P2. destruct P1 as [_ [_ P1]]. destruct P2 as [_ [_ P2]].
  destruct (grid_gap nl np Hl Hp Hne) as [g [Hg Hb]]. fold l p in Hg.
  destruct (sub_V l p Fl Fp) as [Vd Nd].
  assert (Z.abs (Vf (l - p)) = RS (g * unit53)) as Ed by (rewrite Vd, RS_abs, Hg; reflexivity).
  assert (0 < unit53) as HU by reflexivity.
  assert (diffLow <= Z.abs (Vf (l - p)) <= diffHigh) as Hd.
  { rewrite Ed. unfold diffLow, diffHigh. split; apply RS_mono; nia. }
  destruct cert_diff as [C0 C1]. destruct cert_range as [C2 C3].
  destruct cert_quotient as [C4 C5].
  set (PLO := Vf 0.775) in *. set (PHI := Vf 1.2251) in *.
  set (QLO := Vf 0.00008) in *. set (QHI := Vf 0.59) in *.
  assert (0 < PLO) as HPLO by reflexivity.
  assert (0 <= QLO) as HQLO by (now vm_compute).
  assert (0 <= QHI) as HQHI by (now vm_compute).
  assert (0 < 2 ^ scale) as HS by reflexivity.
  set (S := 2 ^ scale) in *.
  set (D := Z.abs (Vf (l - p))) in *.
  assert (finite (l - p) = true) as Fd.
  { apply finite_V. split; [exact Nd|]. unfold D in Hd. lia. }
  assert (Vf (l - p) <> 0) as Hnz by (unfold D in Hd; lia).
  assert (Vf p <= D * 2 ^ 1020) as R1.
  { apply Z.le_trans with PHI; [exact P2|]. apply Z.le_trans with (diffLow * 2 ^ 1020); [exact C2|].
    apply Z.mul_le_mono_nonneg_r; [now vm_compute | lia]. }
  assert (D <= Vf p * 2 ^ 1021) as R2.
  { apply Z.le_trans with diffHigh; [lia|]. apply Z.le_trans with (PLO * 2 ^ 1021); [exact C3|].
    apply Z.mul_le_mono_nonneg_r; [now vm_compute | lia]. }
  destruct (div_bounds (l - p) p Fd Hnz Fp ltac:(lia) R1 R2) as [Fq [_ [B1 B2]]].
  fold D in B1, B2. fold S in B1, B2.
  pose proof (quotient_sandwich D (Vf p) (Z.abs (Vf ((l - p) / p))) diffLow diffHigh PLO PHI
                QLO QHI S (Z.abs_nonneg _) ltac:(lia) P2 ltac:(lia) ltac:(lia) HS HQLO HQHI
                B1 B2 C4 C5) as HQ.
  destruct (abs_V ((l - p) / p)%float) as [Va [Na Fa]].
  rewrite TrendClaims.abs_times_hundred.
  apply within_mul_r; try reflexivity.
  split; apply leb_V; rewrite Va, Na; unfold QLO, QHI in HQ;
    (split; [|split]); try reflexivity; try (apply finite_number; exact Fq); lia.
Qed.

(** [toFixed(2)] on such a percentage. *)
Lemma percent_digits (bigToString : float -> string) (v : float) :
  within (0.00008 * 100) (0.59 * 100) v ->
  exists n, 1 <= n <= 5900 /\ JsString.toFixed bigToString 2 v = Decimal.fixedString 2 n.
Proof.
  intros [Hlo Hhi].
  rewrite toFixed_positive.
  - apply leb_V in Hlo, Hhi.
    exists (scaledOf 2 (Vf v)). split; [|reflexivity]. split.
    + apply Z.le_trans with (scaledOf 2 (Vf (0.00008 * 100))); [now vm_compute|].
      apply scaledOf_mono. tauto.
    + apply Z.le_trans with (scaledOf 2 (Vf (0.59 * 100))); [|now vm_compute].
      apply scaledOf_mono. tauto.
  - apply ltb_V. apply leb_V in Hlo. destruct Hlo as [_ [Nv Hlo]].
    split; [reflexivity | split; [exact Nv|]].
    eapply Z.lt_le_trans; [|exact Hlo]. now vm_compute.
  - apply (leb_ltb_trans _ _ _ Hhi). reflexivity.
Qed.

Definition shownFor (n : Z) : bool := (0 <? JsConvert.toNumber (Decimal.fixedString 2 n))%float.

Lemma shown_table : forallb shownFor (zrange 1 (Z.to_nat 5900)) = true.
Proof. vm_compute. reflexivity. Qed.

Lemma shown_spec (n : Z) :
  1 <= n <= 5900 -> (0 <? JsConvert.toNumber (Decimal.fixedString 2 n))%float = true.
Proof.
  intros Hn.
  apply (proj1 (forallb_forall _ _) shown_table n). apply zrange_In. lia.
Qed.

End PercentFacts.

(** ** The trend of a loaded history *)

Module LoadedTrend.
Import JsDate App Ui Rounding RoundFacts SpecFacts OpFacts ArithFacts FloatFacts NumberFacts
  DivFacts TrendSign HistoryFacts WindowFacts HostFacts FixedFacts BandFacts PeriodFacts
  QuotientNumbers IndicatorFacts PercentFacts.

Lemma band_positive (n : Z) :
  7750 <= n <= 12251 ->
  finite (decimal4 n) = true /\ (0 <? decimal4 n)%float = true.
Proof.
  intros Hn. destruct (grid_spec n Hn) as [F _]. split; [exact F|].
  destruct (band_spec n Hn) as [H1 _].
  apply ltb_V. apply leb_V in H1. destruct H1 as [_ [Nv H1]].
  split; [reflexivity | split; [exact Nv|]].
  eapply Z.lt_le_trans; [|exact H1]. now vm_compute.
Qed.

(** The trend between two rates of the band. *)
Lemma trend_on_band (bigToString : float -> string) (h : list RatePoint) (pp pl : RatePoint)
    (nl np : Z) :
  7750 <= nl <= 12251 -> 7750 <= np <= 12251 ->
  rate pl = decimal4 nl -> rate pp = decimal4 np ->
  (2 <= List.length h)%nat ->
  nth_error h (List.length h - 2) = Some pp ->
  nth_error h (List.length h - 1) = Some pl ->
  exists t n,
    calculateTrend bigToString h = Normal t /\
    0 <= n <= 5900 /\
    percentage t = JsStr (Decimal.fixedString 2 n) /\
    ((trend t = "up" /\ (rate pp <? rate pl)%float = true /\ 1 <= n /\
      trendText bigToString t
      = Some (Decimal.fixedString 2 n ++ "% increase from yesterday")) \/
     (trend t = "down" /\ (rate pl <? rate pp)%float = true /\ 1 <= n /\
      trendText bigToString t
      = Some (Decimal.fixedString 2 n ++ "% decrease from yesterday")) \/
     (trend t = "neutral" /\ rate pl = rate pp /\ n = 0 /\
      trendText bigToString t = None)).
Proof.
  intros Hl Hp El Ep Hlen Hpp Hpl.
  rewrite (calculateTrend_last bigToString h pp pl Hlen Hpp Hpl).
  rewrite El, Ep.
  destruct (band_positive nl Hl) as [Fl Pl]. destruct (band_positive np Hp) as [Fp Pp].
  pose proof (finite_number _ Fl) as Nl. pose proof (finite_number _ Fp) as Np.
  destruct (directionOf_spec (decimal4 nl) (decimal4 np) Fl Pl Fp Pp)
    as [[Hdir H]|[[Hdir H]|[Hdir [H H0]]]].
  - assert (nl <> np) as Hne by (intros ->; lia).
    destruct (percent_digits bigToString _ (change_magnitude nl np Hl Hp Hne)) as [n [Hn Ht]].
    eexists. exists n. split; [reflexivity|]. cbn [percentage trend].
    split; [lia|]. split; [now rewrite Ht|]. left.
    split; [exact Hdir|]. split; [apply ltb_V; auto|]. split; [lia|].
    unfold trendText, trendShown, trendWord. cbn [percentage trend].
    rewrite Ht, (shown_spec n Hn), Hdir. reflexivity.
  - assert (nl <> np) as Hne by (intros ->; lia).
    destruct (percent_digits bigToString _ (change_magnitude nl np Hl Hp Hne)) as [n [Hn Ht]].
    eexists. exists n. split; [reflexivity|]. cbn [percentage trend].
    split; [lia|]. split; [now rewrite Ht|]. right. left.
    split; [exact Hdir|]. split; [apply ltb_V; auto|]. split; [lia|].
    unfold trendText, trendShown, trendWord. cbn [percentage trend].
    rewrite Ht, (shown_spec n Hn), Hdir. reflexivity.
  - pose proof (grid_same nl np Hl Hp H) as Hs.
    destruct (change_sign (decimal4 nl) (decimal4 np) Fl Pl Fp Pp) as [Nc _].
    pose proof (toFixed_abs_zero bigToString _ Nc H0) as Ht.
    eexists. exists 0. split; [reflexivity|]. cbn [percentage trend].
    split; [lia|]. split; [now rewrite Ht|]. right. right.
    split; [exact Hdir|]. split; [now rewrite Hs|]. split; [reflexivity|].
    unfold trendText, trendShown. cbn [percentage]. rewrite Ht, zero_text. reflexivity.
Qed.

(** X16: the trend of a history that [loadHistoricalData] has stored, for any
    chart period: [calculateTrend] compares the rate of today, the last
    point, with the rate of yesterday, the point before it; the percentage
    is a text with two decimals between ["0.00"] and ["59.00"]; and the
    indicator is rendered exactly when the two rates differ, saying
    [increase] when today's rate is the higher one and [decrease] when it is
    the lower one. *)
Theorem loaded_trend
    (sin : float -> float) (rand : nat -> float) (tz : TimeZone)
    (bigToString : float -> string) (now : Z) (st : State) (k : nat) :
  sineLike sin -> unitSource rand -> windowInRange tz now 90 ->
  let d := Z.to_nat (periodDays (chartPeriod st)) in
  let today := HistoryFacts.rateAt sin bigToString (baseRate (rand k)) 0 (rand (k + d + 1)%nat) in
  let yesterday := HistoryFacts.rateAt sin bigToString (baseRate (rand k)) 1 (rand (k + d)%nat) in
  exists st' k' t n,
    loadHistoricalData sin rand tz bigToString now st k = Normal (st', k') /\
    calculateTrend bigToString (historicalData st') = Normal t /\
    0 <= n <= 5900 /\
    percentage t = JsStr (Decimal.fixedString 2 n) /\
    ((trend t = "up" /\ (yesterday <? today)%float = true /\ 1 <= n /\
      trendText bigToString t
      = Some (Decimal.fixedString 2 n ++ "% increase from yesterday")) \/
     (trend t = "down" /\ (today <? yesterday)%float = true /\ 1 <= n /\
      trendText bigToString t
      = Some (Decimal.fixedString 2 n ++ "% decrease from yesterday")) \/
     (trend t = "neutral" /\ today = yesterday /\ n = 0 /\
      trendText bigToString t = None)).
Proof.
  intros Hs Hr Hw d today yesterday.
  assert (7 <= periodDays (chartPeriod st) <= 90) as Hd
    by (destruct (periodDays_cases (chartPeriod st)) as [H|[H|H]]; rewrite H; lia).
  destruct (generate_in_range sin rand tz bigToString now (periodDays (chartPeriod st)) k)
    as [l [Hg [Hp Hlen]]];
    [lia | apply (windowInRange_shorter tz now 90); [lia | exact Hw] |].
  assert (List.length l = S d) as Hl by (unfold d; lia).
  destruct (pointsFrom_nth _ _ _ _ _ _ _ _ _ d Hp ltac:(unfold d; lia)) as [t1 [_ N1]].
  destruct (pointsFrom_nth _ _ _ _ _ _ _ _ _ (d - 1)%nat Hp ltac:(unfold d; lia))
    as [t2 [_ N2]].
  replace (Z.of_nat (Z.to_nat (periodDays (chartPeriod st) + 1) - 1 - d)) with 0 in N1
    by (unfold d; lia).
  replace (Z.of_nat (Z.to_nat (periodDays (chartPeriod st) + 1) - 1 - (d - 1))) with 1 in N2
    by (unfold d; lia).
  replace (S k + d)%nat with (k + d + 1)%nat in N1 by lia.
  replace (S k + (d - 1))%nat with (k + d)%nat in N2 by (unfold d; lia).
  destruct (rateAt_band sin rand bigToString k 0 (k + d + 1)%nat Hs Hr ltac:(lia)) as [_ [nl [Hnl El]]].
  destruct (rateAt_band sin rand bigToString k 1 (k + d)%nat Hs Hr ltac:(lia)) as [_ [np [Hnp Ep]]].
  fold today in El. fold yesterday in Ep.
  destruct (trend_on_band bigToString l
              (pointAt sin tz bigToString t2 (baseRate (rand k)) 1 (rand (k + d)%nat))
              (pointAt sin tz bigToString t1 (baseRate (rand k)) 0 (rand (k + d + 1)%nat))
              nl np Hnl Hnp El Ep) as [t [n [Ht Hrest]]].
  - rewrite Hl. lia.
  - rewrite Hl. replace (S d - 2)%nat with (d - 1)%nat by lia. exact N2.
  - rewrite Hl. replace (S d - 1)%nat with d by lia. exact N1.
  - unfold loadHistoricalData, bind. rewrite Hg.
    eexists. eexists. exists t, n. split; [reflexivity|].
    cbn [historicalData]. split; [exact Ht|]. exact Hrest.
Qed.

Lemma loaded_trend_witness :
  exists st' k' t n,
    loadHistoricalData SampleHost.sampleSin SampleHost.sampleRand SampleHost.utc
      SampleHost.sampleBig SampleHost.sampleNow initialState 0%nat = Normal (st', k') /\
    calculateTrend SampleHost.sampleBig (historicalData st') = Normal t /\
    0 <= n <= 5900 /\
    percentage t = JsStr (Decimal.fixedString 2 n).
Proof.
  destruct (loaded_trend SampleHost.sampleSin SampleHost.sampleRand SampleHost.utc
              SampleHost.sampleBig SampleHost.sampleNow initialState 0%nat
              sampleSin_sine sampleRand_unit (sample_window 90 ltac:(lia)))
    as [st' [k' [t [n [H1 [H2 [H3 [H4 _]]]]]]]].
  exists st', k', t, n. repeat split; assumption || lia.
Defined.

End LoadedTrend.

(** ** The cost of rounding; overlapping fetches *)

Module RoundingError.
Import JsDate App Rounding RoundFacts SpecFacts OpFacts ArithFacts FloatFacts NumberFacts
  HistoryFacts WindowFacts ArgumentFacts HostFacts FixedFacts BandFacts QuotientNumbers
  PercentFacts.

(** Half a unit of the fourth decimal, and a unit of the last place of a
    rate on top of it. *)
Definition tolerance : float := 0.00005000000000012%float.

Lemma scaledOf_near (X : Z) :
  - 2 ^ scale <= 2 * 10 ^ 4 * X - 2 ^ (scale + 1) * scaledOf 4 X < 2 ^ scale.
Proof.
  unfold scaledOf. change (Z.of_nat 4) with 4.
  assert (0 < 2 ^ (scale + 1)) as HP by reflexivity.
  pose proof (Z.div_mod (2 * 10 ^ 4 * X + 2 ^ scale) (2 ^ (scale + 1)) ltac:(lia)) as Hdm.
  pose proof (Z.mod_pos_bound (2 * 10 ^ 4 * X + 2 ^ scale) (2 ^ (scale + 1)) HP) as Hm.
  set (n := (2 * 10 ^ 4 * X + 2 ^ scale) / 2 ^ (scale + 1)) in *.
  set (r := (2 * 10 ^ 4 * X + 2 ^ scale) mod 2 ^ (scale + 1)) in *.
  assert (2 ^ (scale + 1) = 2 * 2 ^ scale) as E by reflexivity.
  set (T := 2 ^ (scale + 1)) in *. set (S := 2 ^ scale) in *.
  lia.
Qed.

Lemma cert_tolerance : 2 * 10 ^ 4 * unit53 + 2 ^ scale <= 2 * 10 ^ 4 * Vf tolerance.
Proof. now vm_compute. Qed.

(** A Number of the band and the rate it is rounded to. *)
Lemma round4_error (bigToString : float -> string) (v : float) :
  within rateBottom rateCeiling v ->
  (JsNumber.abs (JsString.parseFloat (JsString.toFixed bigToString 4 v) - v) <=? tolerance)%float
  = true.
Proof.
  intros Hw. pose proof Hw as [Hlo Hhi].
  assert (finite v = true) as Fv by (apply (within_finite rateBottom rateCeiling); auto).
  assert (JsString.parseFloat (JsString.toFixed bigToString 4 v) = decimal4 (scaledOf 4 (Vf v))
          /\ 7750 <= scaledOf 4 (Vf v) <= 12251) as [E Hn].
  { rewrite toFixed_positive.
    - apply leb_V in Hlo, Hhi.
      assert (7750 <= scaledOf 4 (Vf v) <= 12251) as Hn.
      { split.
        - apply Z.le_trans with (scaledOf 4 (Vf rateBottom)); [now vm_compute|].
          apply scaledOf_mono. tauto.
        - apply Z.le_trans with (scaledOf 4 (Vf rateCeiling)); [|now vm_compute].
          apply scaledOf_mono. tauto. }
      split; [apply fixed4_reads_back; lia | exact Hn].
    - apply ltb_V. apply leb_V in Hlo. destruct Hlo as [_ [Nv Hlo]].
      split; [reflexivity | split; [exact Nv|]].
      eapply Z.lt_le_trans; [|exact Hlo]. now vm_compute.
    - apply (leb_ltb_trans _ _ _ Hhi). reflexivity. }
  rewrite E. set (n := scaledOf 4 (Vf v)) in *.
  destruct (grid_spec n Hn) as [Fr [a [Ea Ba]]].
  destruct (sub_V (decimal4 n) v Fr Fv) as [Vd Nd].
  destruct (abs_V (decimal4 n - v)%float) as [Va [Na _]].
  apply leb_V. rewrite Na, Va, Vd, RS_abs.
  split; [exact Nd | split; [reflexivity|]].
  assert (RS (Vf tolerance) = Vf tolerance) as ET
    by (apply RS_V; [apply valid_Prim | reflexivity]).
  rewrite <- ET. apply RS_mono.
  pose proof (scaledOf_near (Vf v)) as Hs. fold n in Hs.
  pose proof cert_tolerance as Hc.
  assert (2 ^ 53 * unit53 = 2 ^ scale) as EU by reflexivity.
  assert (2 ^ (scale + 1) = 2 * 2 ^ scale) as E2 by reflexivity.
  assert (0 < unit53) as HU by reflexivity.
  rewrite Ea.
  assert (Z.abs (10 ^ 4 * (a * unit53) - n * 2 ^ scale) <= 10 ^ 4 * unit53) as Hg.
  { rewrite <- EU.
    replace (10 ^ 4 * (a * unit53) - n * (2 ^ 53 * unit53))
      with ((10 ^ 4 * a - n * 2 ^ 53) * unit53) by ring.
    rewrite Z.abs_mul, (Z.abs_eq unit53) by lia.
    apply Z.mul_le_mono_nonneg_r; lia. }
  set (T := Vf tolerance) in *. set (S := 2 ^ scale) in *. set (S1 := 2 ^ (scale + 1)) in *.
  set (U := unit53) in *. set (X := Vf v) in *. set (R := a * U) in *.
  lia.
Qed.

(** X19: what rounding to four decimals costs.  The rate of every point of
    a generated history differs from the unrounded sum
    [baseRate + fluctuation] by at most half a unit of the fourth decimal
    (up to the last place of a Number): their difference is at most
    [0.00005000000000012] in absolute value. *)
Theorem rate_rounding_error
    (sin : float -> float) (rand : nat -> float) (tz : TimeZone)
    (bigToString : float -> string) (now days : Z) (k : nat) :
  sineLike sin -> unitSource rand -> boundedZone tz ->
  forall l k',
    generateMockHistoricalData sin rand tz bigToString now days k = Normal (l, k') ->
    forall j p, nth_error l j = Some p ->
      (JsNumber.abs
         (rate p - rawRate sin (baseRate (rand k)) (days - Z.of_nat j) (rand (S k + j)%nat))
       <=? tolerance)%float = true.
Proof.
  intros Hs Hr Hz l k' Hg j p Hj.
  apply generate_points in Hg.
  assert (j < Z.to_nat (days + 1))%nat as Hlt.
  { rewrite <- (pointsFrom_length _ _ _ _ _ _ _ _ _ Hg). apply nth_error_Some. congruence. }
  destruct (pointsFrom_nth _ _ _ _ _ _ _ _ _ j Hg Hlt) as [t [Ht Hn]].
  rewrite Hj in Hn. injection Hn as ->.
  replace (Z.of_nat (Z.to_nat (days + 1) - 1 - j)) with (days - Z.of_nat j) in * by lia.
  pose proof (valid_offset_bound tz now (days - Z.of_nat j) t Hz ltac:(lia) Ht) as Hb.
  pose proof (raw_in_band sin rand k (days - Z.of_nat j) (S k + j) Hs Hr ltac:(lia)) as Hw.
  change (rate (pointAt sin tz bigToString t (baseRate (rand k)) (days - Z.of_nat j)
                  (rand (S (k + j)))))
    with (HistoryFacts.rateAt sin bigToString (baseRate (rand k)) (days - Z.of_nat j)
            (rand (S k + j)%nat)).
  destruct (rateAt_band sin rand bigToString k (days - Z.of_nat j) (S k + j) Hs Hr ltac:(lia))
    as [E _].
  rewrite E.
  now apply round4_error.
Qed.

Lemma rate_rounding_error_witness :
  exists l k' p,
    generateMockHistoricalData SampleHost.sampleSin SampleHost.sampleRand SampleHost.utc
      SampleHost.sampleBig SampleHost.sampleNow 7 0%nat = Normal (l, k') /\
    nth_error l 0 = Some p /\
    (JsNumber.abs
       (rate p - rawRate SampleHost.sampleSin (baseRate (SampleHost.sampleRand 0))
                   (7 - Z.of_nat 0) (SampleHost.sampleRand (1 + 0)%nat))
     <=? tolerance)%float = true.
Proof.
  destruct (generate_in_range SampleHost.sampleSin SampleHost.sampleRand SampleHost.utc
              SampleHost.sampleBig SampleHost.sampleNow 7 0%nat ltac:(lia)
              (PeriodFacts.sample_window 7 ltac:(lia))) as [l [Hg [_ Hlen]]].
  destruct l as [|p l]; [simpl in Hlen; lia|].
  exists (p :: l), (0 + Z.to_nat (7 + 2))%nat, p.
  split; [exact Hg | split; [reflexivity|]].
  apply (rate_rounding_error SampleHost.sampleSin SampleHost.sampleRand SampleHost.utc
           SampleHost.sampleBig SampleHost.sampleNow 7 0%nat
           sampleSin_sine sampleRand_unit (boundedZone_fixed 0 ltac:(reflexivity))
           (p :: l) _ Hg 0%nat p eq_refl).
Defined.

End RoundingError.

Module OverlapFacts.
Import App Ui FloatFacts RateFacts.

(** X20: [loading] does not count the fetches that are under way.  When a
    second fetch begins before the timer of the first has fired, the first
    timer clears [loading] although the second fetch is still pending; and
    when the second timer fires, its rate and its product replace the ones
    of the first. *)
Theorem overlapping_fetches (rand : nat -> float) (now1 now2 : Z) (amt1 amt2 : float)
    (st : State) (k : nat) :
  let started := fetchExchangeRate_begin (fetchExchangeRate_begin st) in
  exists st1 st2,
    loading started = true /\
    fetchExchangeRate_resume rand now1 amt1 started k = Normal (st1, S k) /\
    loading st1 = false /\
    exchangeRate st1 = Some (mockRate (rand k)) /\
    fetchExchangeRate_resume rand now2 amt2 st1 (S k) = Normal (st2, S (S k)) /\
    loading st2 = false /\
    exchangeRate st2 = Some (mockRate (rand (S k))) /\
    convertedAmount st2 = Some (amt2 * mockRate (rand (S k)))%float /\
    lastUpdated st2 = JsDate.TimeClip now2.
Proof.
  cbv zeta. unfold fetchExchangeRate_resume, bind, random, ret.
  eexists. eexists. split; [reflexivity|]. split; [reflexivity|].
  cbn. repeat split.
Qed.

End OverlapFacts.
